(** * Verification of the Prosperity trading template

    A shallow embedding of [template2.py] (the [Logger] and [Status]
    classes) and of [backtest.py] ([calculate_pnl]), followed by the
    properties of the specification that are proved about them.

    Conventions of the embedding:
    - a Python [int] is a [Z];
    - a Python [float] obtained by true division of integers, and the
      arithmetic carried out on it, is modelled by exact rational
      arithmetic on [Qc] (rounding is not modelled);
    - a Python [dict] is a [gmap]; where the source iterates over one,
      the model folds over [map_to_list];
    - a Python exception is a value [Raised e]; code that mutates shared
      state returns the store next to its outcome, so that the store
      left behind by a raise is explicit;
    - the mutually recursive properties [best_bid] and [best_ask] take a
      recursion budget, and [Unfinished] is the outcome of a call whose
      budget does not suffice. *)

From Stdlib Require Import ZArith QArith Qcanon List String Ascii Lia DecimalString.
From stdpp Require Import base option list sorting gmap strings numbers.

Local Open Scope Z_scope.

(** ** Outcomes of Python calls *)

Inductive exn : Type :=
| KeyError
| AttributeError
| ZeroDivisionError
| IndexError
| ValueError (msg : string).

Inductive outcome (A : Type) : Type :=
| Done (a : A)
| Raised (e : exn)
| Unfinished.

Arguments Done {A} a.
Arguments Raised {A} e.
Arguments Unfinished {A}.

Definition bind {A B : Type} (c : outcome A) (k : A -> outcome B) : outcome B :=
  match c with
  | Done a => k a
  | Raised e => Raised e
  | Unfinished => Unfinished
  end.

Notation "x <-- c ;; k" := (bind c (fun x => k))
  (at level 100, c at next level, right associativity).

(** [d[k]] on a dict: the value, or [KeyError]. *)
Definition getitem `{Countable K} {V : Type} (d : gmap K V) (k : K) : outcome V :=
  match d !! k with
  | Some v => Done v
  | None => Raised KeyError
  end.

(** ** Python slices *)

Module Slice.

(** The index a slice bound [i] denotes on a sequence of length [n]:
    a negative bound counts from the end, and both are clipped to
    [0..n]. *)
Definition clip (n : nat) (i : Z) : nat :=
  if i <? 0 then Z.to_nat (Z.max (Z.of_nat n + i) 0)
  else Z.to_nat (Z.min i (Z.of_nat n)).

(** [xs[start:]] *)
Definition from {A : Type} (start : Z) (xs : list A) : list A :=
  drop (clip (length xs) start) xs.

(** [xs[:stop]] *)
Definition upto {A : Type} (stop : Z) (xs : list A) : list A :=
  take (clip (length xs) stop) xs.

(** [s[:stop]] on a [str]. *)
Definition str_upto (stop : Z) (s : string) : string :=
  string_of_list_ascii (upto stop (list_ascii_of_string s)).

End Slice.

(** ** [template2.py]: class [Logger] *)

Module Logger.

(** [Logger.truncate] *)
Definition truncate (value : string) (max_length : Z) : string :=
  if Z.of_nat (String.length value) <=? max_length then value
  else (Slice.str_upto (max_length - 3) value ++ "...")%string.

End Logger.

(** ** [datamodel]: the values the trader receives

    Only the fields read by the embedded code are kept. *)

Module datamodel.

Record OrderDepth : Type := mkOrderDepth {
  buy_orders : gmap Z Z;
  sell_orders : gmap Z Z
}.

Record Listing : Type := mkListing {
  listing_symbol : string;
  listing_product : string;
  denomination : string
}.

Record Order : Type := mkOrder {
  order_symbol : string;
  price : Z;
  quantity : Z
}.

Record TradingState : Type := mkTradingState {
  timestamp : Z;
  listings : gmap string Listing;
  order_depths : gmap string OrderDepth;
  position : gmap string Z
}.

End datamodel.
Export datamodel.

(** ** Numbers *)

(** [a / b] on two [int]s: true division. *)
Definition truediv (a b : Z) : outcome Qc :=
  if b =? 0 then Raised ZeroDivisionError
  else Done (Qc_of_Z a / Qc_of_Z b)%Qc.

(** [max(xs)] and [min(xs)] on a sequence of [int]s. *)
Definition py_max (xs : list Z) : outcome Z :=
  match xs with
  | [] => Raised (ValueError "max() arg is an empty sequence")
  | x :: xs' => Done (foldl Z.max x xs')
  end.

Definition py_min (xs : list Z) : outcome Z :=
  match xs with
  | [] => Raised (ValueError "min() arg is an empty sequence")
  | x :: xs' => Done (foldl Z.min x xs')
  end.

(** [d.keys()] and [len(d)]. *)
Definition keys {V : Type} (d : gmap Z V) : list Z := (map_to_list d).*1.
Definition len {V : Type} (d : gmap Z V) : Z := Z.of_nat (size d).

(** [str(n)] on an [int]. *)
Definition str (n : Z) : string := NilZero.string_of_int (Z.to_int n).

(** [sum(xs)] on a sequence of [int]s. *)
Definition py_sum (xs : list Z) : Z := foldl Z.add 0 xs.

(** [d.values()] *)
Definition values {V : Type} (d : gmap Z V) : list V := (map_to_list d).*2.

(** The order of Python on pairs of [int]s: by the first component,
    then by the second. *)
Definition item_le (x y : Z * Z) : Prop :=
  x.1 < y.1 \/ (x.1 = y.1 /\ x.2 <= y.2).

#[global] Instance item_le_dec : RelDecision item_le.
Proof. intros x y. unfold item_le. apply _. Defined.

(** [sorted(items, reverse=...)] on a list of pairs. The result is the
    one arrangement of the items in that order; that it does not depend
    on the order in which a dict enumerates them is proved below. *)
Definition sorted (reverse : bool) (items : list (Z * Z)) : list (Z * Z) :=
  if reverse then merge_sort (flip item_le) items
  else merge_sort item_le items.

(** [d.items()] enumerates the items of a dict in the order of their
    insertion, which a [gmap] does not record. Where that order can be
    observed, the enumeration is a parameter of the model, of which the
    properties assume that it lists the items of the dict. *)
Definition enumerates {K : Type} `{Countable K} {V : Type}
    (enum : gmap K V -> list (K * V)) : Prop :=
  forall d, enum d ≡ₚ map_to_list d.

(** ** [template2.py]: class [Status] *)

Module Status.

(** A recorded history cell: a level's price or amount, or [None] for
    the [np.nan] padding of a missing level. *)
Definition cell : Type := option Z.

Definition _position_limit : gmap string Z :=
  list_to_map
    [ ("RAINFOREST_RESIN", 50); ("KELP", 50); ("SQUID_INK", 50);
      ("CROISSANTS", 250); ("JAMS", 350); ("DJEMBES", 60);
      ("PICNIC_BASKET1", 60); ("PICNIC_BASKET2", 100) ]%string.

Definition series_names : list string :=
  [ "bidprc1"; "bidamt1"; "bidprc2"; "bidamt2"; "bidprc3"; "bidamt3";
    "askprc1"; "askamt1"; "askprc2"; "askamt2"; "askprc3"; "askamt3" ]%string.

(** The class attributes, shared by every instance. *)
Record cls : Type := mkCls {
  _state : option TradingState;
  _realtime_position : gmap string Z;
  _hist_order_depths : gmap string (gmap string (list cell));
  _num_data : Z
}.

(** The class attributes as the class body leaves them. *)
Definition initial : cls :=
  {| _state := None;
     _realtime_position := (fun _ => 0) <$> _position_limit;
     _hist_order_depths :=
       (fun _ => list_to_map ((fun name => (name, [])) <$> series_names))
         <$> _position_limit;
     _num_data := 0 |}.

(** The instance attributes. *)
Record t : Type := mkStatus {
  product : string;
  ema_mid_35 : list Qc;
  ema_mid_100 : list Qc
}.

(** [Status.__init__] *)
Definition init (product : string) : t :=
  {| product := product; ema_mid_35 := []; ema_mid_100 := [] |}.

(** [self._state], on which an attribute is then read: [None] has
    none. *)
Definition state (c : cls) : outcome TradingState :=
  match _state c with
  | Some st => Done st
  | None => Raised AttributeError
  end.

(** [Status.position_limit] *)
Definition position_limit (self : t) : outcome Z :=
  getitem _position_limit (product self).

(** [Status.position] *)
Definition position (c : cls) (self : t) : outcome Z :=
  st <-- state c;;
  match datamodel.position st !! product self with
  | Some v => Done v
  | None => Done 0
  end.

(** [Status.rt_position] *)
Definition rt_position (c : cls) (self : t) : outcome Z :=
  getitem (_realtime_position c) (product self).

Definition set_realtime_position (c : cls) (m : gmap string Z) : cls :=
  {| _state := _state c;
     _realtime_position := m;
     _hist_order_depths := _hist_order_depths c;
     _num_data := _num_data c |}.

(** [Status._cls_rt_position_update]. The method is not a class
    method: its first parameter is bound to the instance, through which
    the two class attributes are reached. *)
Definition _cls_rt_position_update (c : cls) (product : string) (new_position : Z)
  : outcome unit * cls :=
  match getitem _position_limit product with
  | Done limit =>
      if Z.abs new_position <=? limit
      then (Done tt,
            set_realtime_position c (<[product := new_position]> (_realtime_position c)))
      else (Raised (ValueError "New position exceeds position limit"), c)
  | Raised e => (Raised e, c)
  | Unfinished => (Unfinished, c)
  end.

(** [Status.rt_position_update] *)
Definition rt_position_update (c : cls) (self : t) (new_position : Z)
  : outcome unit * cls :=
  _cls_rt_position_update c (product self) new_position.

(** [Status.possible_buy_amt] *)
Definition possible_buy_amt (c : cls) (self : t) : outcome Z :=
  limit1 <-- getitem _position_limit (product self);;
  rt <-- rt_position c self;;
  let possible_buy_amount1 := limit1 - rt in
  limit2 <-- getitem _position_limit (product self);;
  pos <-- position c self;;
  let possible_buy_amount2 := limit2 - pos in
  Done (Z.min possible_buy_amount1 possible_buy_amount2).

(** [Status.possible_sell_amt] *)
Definition possible_sell_amt (c : cls) (self : t) : outcome Z :=
  limit1 <-- getitem _position_limit (product self);;
  rt <-- rt_position c self;;
  let possible_sell_amount1 := limit1 + rt in
  limit2 <-- getitem _position_limit (product self);;
  pos <-- position c self;;
  let possible_sell_amount2 := limit2 + pos in
  Done (Z.min possible_sell_amount1 possible_sell_amount2).

(** [self._state.order_depths[self.product]] *)
Definition order_depth (c : cls) (self : t) : outcome OrderDepth :=
  st <-- state c;;
  getitem (order_depths st) (product self).

(** [Status.best_bid] and [Status.best_ask]: each falls back on the
    other when its own side is empty. [fuel] bounds the depth of the
    calls. *)
Fixpoint best_bid (fuel : nat) (c : cls) (self : t) : outcome Z :=
  match fuel with
  | O => Unfinished
  | S fuel' =>
      od <-- order_depth c self;;
      if 0 <? len (buy_orders od) then py_max (keys (buy_orders od))
      else (a <-- best_ask fuel' c self;; Done (a - 1))
  end
with best_ask (fuel : nat) (c : cls) (self : t) : outcome Z :=
  match fuel with
  | O => Unfinished
  | S fuel' =>
      od <-- order_depth c self;;
      if 0 <? len (sell_orders od) then py_min (keys (sell_orders od))
      else (b <-- best_bid fuel' c self;; Done (b + 1))
  end.

(** [Status.mid] *)
Definition mid (fuel : nat) (c : cls) (self : t) : outcome Qc :=
  b <-- best_bid fuel c self;;
  a <-- best_ask fuel c self;;
  truediv (b + a) 2.

(** [Status.spread] *)
Definition spread (fuel : nat) (c : cls) (self : t) : outcome Z :=
  a <-- best_ask fuel c self;;
  b <-- best_bid fuel c self;;
  Done (a - b).

(** [Status.vwap]: the two loops carry [(vwap, total_amt)]. *)
Definition vwap_bid_step (acc : Z * Z) (level : Z * Z) : Z * Z :=
  let '(vwap, total_amt) := acc in
  let '(prc, amt) := level in
  (vwap + prc * amt, total_amt + amt).

Definition vwap_ask_step (acc : Z * Z) (level : Z * Z) : Z * Z :=
  let '(vwap, total_amt) := acc in
  let '(prc, amt) := level in
  (vwap + prc * Z.abs amt, total_amt + Z.abs amt).

Definition vwap (c : cls) (self : t) : outcome Qc :=
  let acc := (0, 0) in
  od <-- order_depth c self;;
  let acc := foldl vwap_bid_step acc (map_to_list (buy_orders od)) in
  od' <-- order_depth c self;;
  let '(vwap, total_amt) := foldl vwap_ask_step acc (map_to_list (sell_orders od')) in
  truediv vwap total_amt.

(** [xs[-1]] *)
Definition last_item (xs : list Qc) : outcome Qc :=
  match list.last xs with
  | Some x => Done x
  | None => Raised IndexError
  end.

Definition append_ema_mid_35 (x : Qc) (self : t) : t :=
  {| product := product self;
     ema_mid_35 := ema_mid_35 self ++ [x];
     ema_mid_100 := ema_mid_100 self |}.

Definition append_ema_mid_100 (x : Qc) (self : t) : t :=
  {| product := product self;
     ema_mid_35 := ema_mid_35 self;
     ema_mid_100 := ema_mid_100 self ++ [x] |}.

Definition n35 : Qc := (Qc_of_Z 2 / Qc_of_Z 36)%Qc.
Definition n100 : Qc := (Qc_of_Z 2 / Qc_of_Z 101)%Qc.

(** [Status.updates]: the instance is returned as the call leaves it,
    also when [self.mid] raises part-way. *)
Definition updates (fuel : nat) (c : cls) (self : t) : outcome unit * t :=
  if (length (ema_mid_35 self) =? 0)%nat then
    match mid fuel c self with
    | Done m =>
        let self := append_ema_mid_35 m self in
        match mid fuel c self with
        | Done m' => (Done tt, append_ema_mid_100 m' self)
        | Raised e => (Raised e, self)
        | Unfinished => (Unfinished, self)
        end
    | Raised e => (Raised e, self)
    | Unfinished => (Unfinished, self)
    end
  else
    let nums :=
      prev <-- last_item (ema_mid_35 self);;
      m <-- mid fuel c self;;
      let num := (prev * (1 - n35) + n35 * m)%Qc in
      prev2 <-- last_item (ema_mid_100 self);;
      m' <-- mid fuel c self;;
      let num2 := (prev2 * (1 - n100) + n100 * m')%Qc in
      Done (num, num2) in
    match nums with
    | Done (num, num2) =>
        (Done tt, append_ema_mid_100 num2 (append_ema_mid_35 num self))
    | Raised e => (Raised e, self)
    | Unfinished => (Unfinished, self)
    end.

Section hist.

(** [np.array(..., dtype=np.float32)] converts each cell; the
    conversion is a parameter of the model. *)
Context {F : Type} (float32 : cell -> F).

(** [Status.hist_order_depth] *)
Definition hist_order_depth (c : cls) (self : t)
    (type : string) (depth : Z) (size : Z) : outcome (list F) :=
  per_product <-- getitem (_hist_order_depths c) (product self);;
  series <-- getitem per_product (type ++ str depth)%string;;
  Done (float32 <$> Slice.from (- size) series).

End hist.

(** *** Calls that change the class attributes

    A call takes the class attributes and returns them, as it leaves
    them, next to its outcome. *)

Definition action (A : Type) : Type := cls -> outcome A * cls.

Definition ret {A : Type} (a : A) : action A := fun c => (Done a, c).

(** A read of the class attributes. *)
Definition lift {A : Type} (f : cls -> outcome A) : action A :=
  fun c => (f c, c).

Definition andthen {A B : Type} (m : action A) (k : A -> action B) : action B :=
  fun c =>
    match m c with
    | (Done a, c') => k a c'
    | (Raised e, c') => (Raised e, c')
    | (Unfinished, c') => (Unfinished, c')
    end.

Notation "x <~ m ;; k" := (andthen m (fun x => k))
  (at level 100, m at next level, right associativity).

(** [for x in xs: body(x)] *)
Fixpoint for_each {A : Type} (body : A -> action unit) (xs : list A) : action unit :=
  match xs with
  | [] => ret tt
  | x :: xs' => _ <~ body x;; for_each body xs'
  end.

Definition set_state (c : cls) (st : TradingState) : cls :=
  {| _state := Some st;
     _realtime_position := _realtime_position c;
     _hist_order_depths := _hist_order_depths c;
     _num_data := _num_data c |}.

Definition set_hist_order_depths (c : cls)
    (h : gmap string (gmap string (list cell))) : cls :=
  {| _state := _state c;
     _realtime_position := _realtime_position c;
     _hist_order_depths := h;
     _num_data := _num_data c |}.

Definition set_num_data (c : cls) (n : Z) : cls :=
  {| _state := _state c;
     _realtime_position := _realtime_position c;
     _hist_order_depths := _hist_order_depths c;
     _num_data := n |}.

(** [cls._hist_order_depths[product][name].append(x)] *)
Definition hist_append (product name : string) (x : cell) : action unit :=
  fun c =>
    match getitem (_hist_order_depths c) product with
    | Done per_product =>
        match getitem per_product name with
        | Done series =>
            (Done tt,
             set_hist_order_depths c
               (<[product := <[name := series ++ [x]]> per_product]>
                  (_hist_order_depths c)))
        | Raised e => (Raised e, c)
        | Unfinished => (Unfinished, c)
        end
    | Raised e => (Raised e, c)
    | Unfinished => (Unfinished, c)
    end.

(** The loop of [cls_update] over the sorted asks: the amount, then the
    price, of each level, up to the third; it returns [cnt]. *)
Fixpoint record_asks (product : string) (levels : list (Z * Z)) (cnt : Z)
  : action Z :=
  match levels with
  | [] => ret cnt
  | (prc, amt) :: levels' =>
      _ <~ hist_append product ("askamt" ++ str cnt) (Some amt);;
      _ <~ hist_append product ("askprc" ++ str cnt) (Some prc);;
      let cnt := cnt + 1 in
      if cnt =? 4 then ret cnt else record_asks product levels' cnt
  end.

(** [while cnt < 4]: the padding of the missing ask levels. [fuel]
    bounds the number of turns. *)
Fixpoint pad_asks (fuel : nat) (product : string) (cnt : Z) : action Z :=
  if cnt <? 4 then
    match fuel with
    | O => fun c => (Unfinished, c)
    | S fuel' =>
        _ <~ hist_append product ("askprc" ++ str cnt) None;;
        _ <~ hist_append product ("askamt" ++ str cnt) None;;
        pad_asks fuel' product (cnt + 1)
    end
  else ret cnt.

(** The same two loops over the bids, sorted from the highest price:
    the price, then the amount. *)
Fixpoint record_bids (product : string) (levels : list (Z * Z)) (cnt : Z)
  : action Z :=
  match levels with
  | [] => ret cnt
  | (prc, amt) :: levels' =>
      _ <~ hist_append product ("bidprc" ++ str cnt) (Some prc);;
      _ <~ hist_append product ("bidamt" ++ str cnt) (Some amt);;
      let cnt := cnt + 1 in
      if cnt =? 4 then ret cnt else record_bids product levels' cnt
  end.

Fixpoint pad_bids (fuel : nat) (product : string) (cnt : Z) : action Z :=
  if cnt <? 4 then
    match fuel with
    | O => fun c => (Unfinished, c)
    | S fuel' =>
        _ <~ hist_append product ("bidprc" ++ str cnt) None;;
        _ <~ hist_append product ("bidamt" ++ str cnt) None;;
        pad_bids fuel' product (cnt + 1)
    end
  else ret cnt.

(** The body of the loop of [cls_update] over the order depths. The two
    [while] loops start from a [cnt] of at least 1 and take at most
    three turns. *)
Definition record_order_depth (item : string * OrderDepth) : action unit :=
  let '(product, orderdepth) := item in
  cnt <~ record_asks product
           (sorted false (map_to_list (sell_orders orderdepth))) 1;;
  _ <~ pad_asks 3 product cnt;;
  cnt <~ record_bids product
           (sorted true (map_to_list (buy_orders orderdepth))) 1;;
  _ <~ pad_bids 3 product cnt;;
  ret tt.

(** The body of the loop of [cls_update] over the positions. *)
Definition record_position (item : string * Z) : action unit :=
  fun c =>
    (Done tt,
     set_realtime_position c (<[item.1 := item.2]> (_realtime_position c))).

(** [Status.cls_update]. The two parameters enumerate
    [state.position.items()] and [state.order_depths.items()]. *)
Definition cls_update
    (position_items : gmap string Z -> list (string * Z))
    (order_depth_items : gmap string OrderDepth -> list (string * OrderDepth))
    (state : TradingState) : action unit :=
  _ <~ (fun c => (Done tt, set_state c state));;
  _ <~ for_each record_position (position_items (datamodel.position state));;
  _ <~ for_each record_order_depth (order_depth_items (order_depths state));;
  fun c => (Done tt, set_num_data c (_num_data c + 1)).

(** [Status.timestep] *)
Definition timestep (c : cls) : outcome Qc :=
  st <-- state c;;
  truediv (timestamp st) 100.

(** [Status.all_bids] and [Status.all_asks]: the items as the dict
    enumerates them. *)
Definition all_bids (items : gmap Z Z -> list (Z * Z)) (c : cls) (self : t)
  : outcome (list (Z * Z)) :=
  od <-- order_depth c self;;
  Done (items (buy_orders od)).

Definition all_asks (items : gmap Z Z -> list (Z * Z)) (c : cls) (self : t)
  : outcome (list (Z * Z)) :=
  od <-- order_depth c self;;
  Done (items (sell_orders od)).

(** [cls._state.order_depths[product].buy_orders[prc] = amt] and its
    ask counterpart. The order depth is the one the state holds: the
    state changes with it. *)
Definition set_order_depth (st : TradingState) (product : string)
    (od : OrderDepth) : TradingState :=
  {| timestamp := timestamp st;
     listings := listings st;
     order_depths := <[product := od]> (order_depths st);
     datamodel.position := datamodel.position st |}.

Definition setitem_buy_orders (product : string) (prc amt : Z) : action unit :=
  fun c =>
    match (st <-- state c;;
           od <-- getitem (order_depths st) product;;
           Done (st, od)) with
    | Done (st, od) =>
        (Done tt,
         set_state c
           (set_order_depth st product
              {| buy_orders := <[prc := amt]> (buy_orders od);
                 sell_orders := sell_orders od |}))
    | Raised e => (Raised e, c)
    | Unfinished => (Unfinished, c)
    end.

Definition setitem_sell_orders (product : string) (prc amt : Z) : action unit :=
  fun c =>
    match (st <-- state c;;
           od <-- getitem (order_depths st) product;;
           Done (st, od)) with
    | Done (st, od) =>
        (Done tt,
         set_state c
           (set_order_depth st product
              {| buy_orders := buy_orders od;
                 sell_orders := <[prc := amt]> (sell_orders od) |}))
    | Raised e => (Raised e, c)
    | Unfinished => (Unfinished, c)
    end.

(** [Status._cls_update_bids] and [Status._cls_update_asks] *)
Definition _cls_update_bids (product : string) (prc new_amt : Z) : action unit :=
  if 0 <? new_amt then setitem_buy_orders product prc new_amt
  else if new_amt =? 0 then setitem_buy_orders product prc 0
  else ret tt.

Definition _cls_update_asks (product : string) (prc new_amt : Z) : action unit :=
  if new_amt <? 0 then setitem_sell_orders product prc new_amt
  else if new_amt =? 0 then setitem_sell_orders product prc 0
  else ret tt.

(** [Status.update_bids] and [Status.update_asks] *)
Definition update_bids (self : t) (prc new_amt : Z) : action unit :=
  _cls_update_bids (product self) prc new_amt.

Definition update_asks (self : t) (prc new_amt : Z) : action unit :=
  _cls_update_asks (product self) prc new_amt.

(** [Status.best_bid_amount] *)
Definition best_bid_amount (c : cls) (self : t) : outcome Z :=
  od <-- order_depth c self;;
  best_prc <-- py_max (keys (buy_orders od));;
  od' <-- order_depth c self;;
  best_amt <-- getitem (buy_orders od') best_prc;;
  Done best_amt.

(** [Status.best_ask_amount] *)
Definition best_ask_amount (c : cls) (self : t) : outcome Z :=
  od <-- order_depth c self;;
  best_prc <-- py_min (keys (sell_orders od));;
  od' <-- order_depth c self;;
  best_amt <-- getitem (sell_orders od') best_prc;;
  Done (- best_amt).

(** [Status.worst_bid] and [Status.worst_ask]; [fuel] bounds the depth
    of the calls of [best_ask] and [best_bid]. *)
Definition worst_bid (fuel : nat) (c : cls) (self : t) : outcome Z :=
  od <-- order_depth c self;;
  if 0 <? len (buy_orders od) then py_min (keys (buy_orders od))
  else (a <-- best_ask fuel c self;; Done (a - 1)).

Definition worst_ask (fuel : nat) (c : cls) (self : t) : outcome Z :=
  od <-- order_depth c self;;
  if 0 <? len (sell_orders od) then py_max (keys (sell_orders od))
  else (b <-- best_bid fuel c self;; Done (b + 1)).

(** [Status.vwap_bidprc] *)
Definition vwap_bidprc (c : cls) (self : t) : outcome Qc :=
  let vwap := 0 in
  od <-- order_depth c self;;
  let vwap :=
    foldl (fun vwap level => vwap + level.1 * level.2) vwap
      (map_to_list (buy_orders od)) in
  od' <-- order_depth c self;;
  truediv vwap (py_sum (values (buy_orders od'))).

(** [Status.vwap_askprc] *)
Definition vwap_askprc (c : cls) (self : t) : outcome Qc :=
  let vwap := 0 in
  od <-- order_depth c self;;
  let vwap :=
    foldl (fun vwap level => vwap + level.1 * - level.2) vwap
      (map_to_list (sell_orders od)) in
  od' <-- order_depth c self;;
  truediv vwap (- py_sum (values (sell_orders od'))).

(** [Status.maxamt_bidprc] and [Status.maxamt_askprc]: the scans carry
    [(prc_max_mat, max_amt)]; a tie keeps the level met first, so the
    enumeration of the items is a parameter. *)
Definition maxamt_bid_step (acc : Z * Z) (level : Z * Z) : Z * Z :=
  let '(prc_max_mat, max_amt) := acc in
  let '(prc, amt) := level in
  if max_amt <? amt then (prc, amt) else (prc_max_mat, max_amt).

Definition maxamt_ask_step (acc : Z * Z) (level : Z * Z) : Z * Z :=
  let '(prc_max_mat, max_amt) := acc in
  let '(prc, amt) := level in
  if amt <? max_amt then (prc, amt) else (prc_max_mat, max_amt).

Definition maxamt_bidprc (items : gmap Z Z -> list (Z * Z)) (c : cls) (self : t)
  : outcome Z :=
  od <-- order_depth c self;;
  Done (foldl maxamt_bid_step (0, 0) (items (buy_orders od))).1.

Definition maxamt_askprc (items : gmap Z Z -> list (Z * Z)) (c : cls) (self : t)
  : outcome Z :=
  od <-- order_depth c self;;
  Done (foldl maxamt_ask_step (0, 0) (items (sell_orders od))).1.

(** [Status.maxamt_midprc] *)
Definition maxamt_midprc (items : gmap Z Z -> list (Z * Z)) (c : cls) (self : t)
  : outcome Qc :=
  b <-- maxamt_bidprc items c self;;
  a <-- maxamt_askprc items c self;;
  truediv (b + a) 2.

(** [Status.bidamt] and [Status.askamt] *)
Definition bidamt (c : cls) (self : t) (price : Z) : outcome Z :=
  od <-- order_depth c self;;
  match buy_orders od !! price with
  | Some amt => Done amt
  | None => Done 0
  end.

Definition askamt (c : cls) (self : t) (price : Z) : outcome Z :=
  od <-- order_depth c self;;
  match sell_orders od !! price with
  | Some amt => Done amt
  | None => Done 0
  end.

(** [Status.total_bidamt] and [Status.total_askamt] *)
Definition total_bidamt (c : cls) (self : t) : outcome Z :=
  od <-- order_depth c self;;
  Done (py_sum (values (buy_orders od))).

Definition total_askamt (c : cls) (self : t) : outcome Z :=
  od <-- order_depth c self;;
  Done (- py_sum (values (sell_orders od))).

End Status.

(** ** [template2.py]: classes [Strategy] and [Trade] *)

(** [xs[i]] on a list: a negative index counts from the end. *)
Definition getindex {A : Type} (xs : list A) (i : Z) : outcome A :=
  let j := if i <? 0 then Z.of_nat (length xs) + i else i in
  if j <? 0 then Raised IndexError
  else match xs !! Z.to_nat j with
       | Some x => Done x
       | None => Raised IndexError
       end.

Module Strategy.
Import Status.

(** The condition of [ema_crossover], with the short cuts of [and]. *)
Definition crossed_up (state : t) : outcome bool :=
  if 2 <=? Z.of_nat (length (ema_mid_35 state)) then
    fast <-- getindex (ema_mid_35 state) (-1);;
    slow <-- getindex (ema_mid_100 state) (-1);;
    if bool_decide (slow <= fast)%Qc then
      fast' <-- getindex (ema_mid_35 state) (-2);;
      slow' <-- getindex (ema_mid_100 state) (-2);;
      Done (bool_decide (fast' < slow')%Qc)
    else Done false
  else Done false.

(** The body of the loop of [ema_crossover]; it carries [orders]. *)
Definition sweep_step (state : t) (orders : list Order) (level : Z * Z)
  : action (list Order) :=
  let '(price, amount) := level in
  buy_amount <~ lift (fun c => possible_buy_amt c state);;
  let executed_amount := Z.min buy_amount (Z.abs amount) in
  let orders := orders ++ [mkOrder (product state) price executed_amount] in
  rt <~ lift (fun c => rt_position c state);;
  _ <~ (fun c => rt_position_update c state (rt + executed_amount));;
  ret orders.

Fixpoint sweep (state : t) (orders : list Order) (levels : list (Z * Z))
  : action (list Order) :=
  match levels with
  | [] => ret orders
  | level :: levels' =>
      orders <~ sweep_step state orders level;;
      sweep state orders levels'
  end.

(** [Strategy.ema_crossover] *)
Definition ema_crossover (items : gmap Z Z -> list (Z * Z)) (state : t)
  : action (list Order) :=
  let orders := [] in
  cross <~ lift (fun _ => crossed_up state);;
  if (cross : bool) then
    asks <~ lift (fun c => all_asks items c state);;
    sweep state orders (sorted false asks)
  else ret orders.

(** [Strategy.something]; [fuel] bounds the depth of the calls of
    [best_bid] and [best_ask]. *)
Definition something (fuel : nat) (state : t) : action (list Order) :=
  let orders := [] in
  a <~ lift (fun c => best_ask fuel c state);;
  b <~ lift (fun c => best_bid fuel c state);;
  if b <? a then
    buy_amount <~ lift (fun c => possible_buy_amt c state);;
    best_amt <~ lift (fun c => best_ask_amount c state);;
    let executed_amount := Z.min buy_amount best_amt in
    a' <~ lift (fun c => best_ask fuel c state);;
    let orders := orders ++ [mkOrder (product state) a' executed_amount] in
    rt <~ lift (fun c => rt_position c state);;
    _ <~ (fun c => rt_position_update c state (rt + executed_amount));;
    ret orders
  else
    sell_amount <~ lift (fun c => possible_sell_amt c state);;
    best_amt <~ lift (fun c => best_bid_amount c state);;
    let executed_amount := Z.min sell_amount best_amt in
    b' <~ lift (fun c => best_bid fuel c state);;
    let orders := orders ++ [mkOrder (product state) b' (- executed_amount)] in
    rt <~ lift (fun c => rt_position c state);;
    _ <~ (fun c => rt_position_update c state (rt - executed_amount));;
    ret orders.

End Strategy.

Module Trade.
Import Status.

(** [Trade.squidInk]: [orders.extend] on the empty list. *)
Definition squidInk (items : gmap Z Z -> list (Z * Z)) (state : t)
  : action (list Order) :=
  let orders := [] in
  more <~ Strategy.ema_crossover items state;;
  ret (orders ++ more).

(** [Trade.kelp] *)
Definition kelp (state : t) : list Order := [].

End Trade.

(** ** [backtest.py]: settlement *)

Module backtest.

(** [bool(d)] on a dict. *)
Definition truthy {V : Type} (d : gmap Z V) : bool := 0 <? len d.

(** The reference price of the valuation loop. [best_bid] starts at
    [-np.inf] and [best_ask] at [np.inf]; no key equals either, so the
    sentinels are modelled by [None]. *)
Definition mid_price (order_depth : OrderDepth) : outcome Qc :=
  best_bid <--
    (if truthy (buy_orders order_depth)
     then (b <-- py_max (keys (buy_orders order_depth));; Done (Some b))
     else Done None);;
  best_ask <--
    (if truthy (sell_orders order_depth)
     then (a <-- py_min (keys (sell_orders order_depth));; Done (Some a))
     else Done None);;
  match best_bid, best_ask with
  | None, None => Done 0%Qc
  | None, Some best_ask => Done (Qc_of_Z best_ask)
  | Some best_bid, None => Done (Qc_of_Z best_bid)
  | Some best_bid, Some best_ask =>
      Done (Qc_of_Z (best_bid + best_ask) / Qc_of_Z 2)%Qc
  end.

(** The body of the innermost loop of the first pass. *)
Definition order_step (product : string) (acc : Qc * gmap string Z) (order : Order)
  : Qc * gmap string Z :=
  let '(cash, final_inventory) := acc in
  ((cash - Qc_of_Z (price order * quantity order))%Qc,
   <[product := default 0 (final_inventory !! product) + quantity order]>
     final_inventory).

(** One [symbol, order_list] item of one tick. *)
Definition symbol_step (final_state : TradingState)
    (acc : outcome (Qc * gmap string Z)) (item : string * list Order)
  : outcome (Qc * gmap string Z) :=
  a <-- acc;;
  listing <-- getitem (listings final_state) item.1;;
  let product := listing_product listing in
  Done (foldl (order_step product) a item.2).

(** One tick of the ledger. *)
Definition tick_step (final_state : TradingState)
    (acc : outcome (Qc * gmap string Z)) (orders_at_timestamp : gmap string (list Order))
  : outcome (Qc * gmap string Z) :=
  foldl (symbol_step final_state) acc (map_to_list orders_at_timestamp).

(** The body of the valuation loop. *)
Definition value_step (final_state : TradingState)
    (acc : outcome Qc) (item : string * Z) : outcome Qc :=
  cash <-- acc;;
  let '(product, final_pos) := item in
  if final_pos =? 0 then Done cash
  else
    let symbol := product in
    match order_depths final_state !! symbol with
    | Some order_depth =>
        mid_price <-- mid_price order_depth;;
        let inventory_value := (Qc_of_Z final_pos * mid_price)%Qc in
        Done (cash + inventory_value)%Qc
    | None => Done cash
    end.

(** [calculate_pnl]; what it prints is not modelled. *)
Definition calculate_pnl (all_orders : list (gmap string (list Order)))
    (final_state : option TradingState) : outcome Qc :=
  let cash := 0%Qc in
  let final_inventory : gmap string Z := ∅ in
  match final_state with
  | None => Done 0%Qc
  | Some final_state =>
      acc <-- foldl (tick_step final_state) (Done (cash, final_inventory)) all_orders;;
      let '(cash, final_inventory) := acc in
      foldl (value_step final_state) (Done cash) (map_to_list final_inventory)
  end.

End backtest.

(** * The notions of the specification

    What the properties below compare the embedded code with: sums over
    the levels of a book, the recurrence of the moving averages, the
    settlement formula, and the runs of calls they are stated about. *)

Module Spec.
Import Status backtest.

(** ** The position tracker *)

(** Every configured product has an optimistic position, within its
    limit in magnitude. *)
Definition within_limits (c : cls) : Prop :=
  forall p limit,
    _position_limit !! p = Some limit ->
    exists v, _realtime_position c !! p = Some v /\ Z.abs v <= limit.

(** A sequence of [rt_position_update] calls, each by some instance;
    the caller goes on after a call that raised, with the store that
    call left. *)
Definition run_updates (calls : list (t * Z)) (c : cls) : cls :=
  foldl (fun c call => (rt_position_update c call.1 call.2).2) c calls.

(** ** The market state *)

(** [m] is the largest (smallest) price with a level in [d]. *)
Definition is_max_price (m : Z) (d : gmap Z Z) : Prop :=
  is_Some (d !! m) /\ forall k, is_Some (d !! k) -> k <= m.

Definition is_min_price (m : Z) (d : gmap Z Z) : Prop :=
  is_Some (d !! m) /\ forall k, is_Some (d !! k) -> m <= k.

(** The levels of both sides, and the sums the specification takes over
    them. *)
Definition levels (od : OrderDepth) : list (Z * Z) :=
  map_to_list (buy_orders od) ++ map_to_list (sell_orders od).

Definition sum_Z (xs : list Z) : Z := foldr Z.add 0 xs.

Definition notional (ls : list (Z * Z)) : Z :=
  sum_Z ((fun l => l.1 * Z.abs l.2) <$> ls).

Definition volume (ls : list (Z * Z)) : Z :=
  sum_Z ((fun l => Z.abs l.2) <$> ls).

(** ** The moving averages *)

(** The recurrence of the specification: [ema[0] = mid[0]] and
    [ema[t] = ema[t-1] * (1 - alpha) + alpha * mid[t]]. *)
Fixpoint ema (alpha : Qc) (mids : list Qc) (t : nat) : Qc :=
  match t with
  | O => default 0%Qc (mids !! O)
  | S t' =>
      (ema alpha mids t' * (1 - alpha) + alpha * default 0%Qc (mids !! t))%Qc
  end.

Definition ema_series (alpha : Qc) (mids : list Qc) : list Qc :=
  ema alpha mids <$> seq 0 (length mids).

(** [updates] called once per tick, on the class attributes of each
    tick in turn. *)
Definition run_ticks (fuel : nat) (ticks : list cls) (self : t) : t :=
  foldl (fun self c => (updates fuel c self).2) self ticks.

(** ** Settlement *)

(** The orders of the ledger, each under the symbol it was filed
    under, in the order of the pass. *)
Definition item_orders (item : string * list Order) : list (string * Order) :=
  (fun o => (item.1, o)) <$> item.2.

Definition tick_orders (d : gmap string (list Order)) : list (string * Order) :=
  concat (item_orders <$> map_to_list d).

Definition ledger_orders (ledger : list (gmap string (list Order)))
  : list (string * Order) :=
  concat (tick_orders <$> ledger).

Definition sum_Qc (xs : list Qc) : Qc := foldr Qcplus 0%Qc xs.

(** [-sum(price * quantity)] over every order. *)
Definition cash_flow (os : list (string * Order)) : Qc :=
  (- sum_Qc ((fun so => Qc_of_Z (price so.2) * Qc_of_Z (quantity so.2)) <$> os))%Qc.

(** The net inventory of a symbol. *)
Definition inventory (os : list (string * Order)) (s : string) : Z :=
  sum_Z ((fun so => quantity so.2) <$> filter (fun so => so.1 = s) os).

(** The symbols with orders, and those left with an inventory. *)
Definition traded (os : list (string * Order)) : gset string :=
  list_to_set (os.*1).

Definition held (os : list (string * Order)) : list string :=
  filter (fun s => inventory os s <> 0) (elements (traded os)).

(** The reference price of a symbol in the final state: the mid price
    of its book, the best price of the one side that has levels, and 0
    when neither has (or the final state has no book for it). *)
Inductive reference_price (fs : TradingState) (s : string) : Qc -> Prop :=
| reference_mid od b a :
    order_depths fs !! s = Some od ->
    is_max_price b (buy_orders od) ->
    is_min_price a (sell_orders od) ->
    reference_price fs s ((Qc_of_Z b + Qc_of_Z a) / Qc_of_Z 2)%Qc
| reference_ask od a :
    order_depths fs !! s = Some od ->
    buy_orders od = ∅ ->
    is_min_price a (sell_orders od) ->
    reference_price fs s (Qc_of_Z a)
| reference_bid od b :
    order_depths fs !! s = Some od ->
    is_max_price b (buy_orders od) ->
    sell_orders od = ∅ ->
    reference_price fs s (Qc_of_Z b)
| reference_empty od :
    order_depths fs !! s = Some od ->
    buy_orders od = ∅ ->
    sell_orders od = ∅ ->
    reference_price fs s 0%Qc
| reference_absent :
    order_depths fs !! s = None ->
    reference_price fs s 0%Qc.

(** Every symbol the ledger files orders under is listed in the final
    state, as its own product. *)
Definition listed (fs : TradingState) (s : string) : Prop :=
  exists l, listings fs !! s = Some l /\ listing_product l = s.

Definition ledger_listed (ledger : list (gmap string (list Order)))
    (fs : TradingState) : Prop :=
  forall d s, d ∈ ledger -> is_Some (d !! s) -> listed fs s.

End Spec.

(** * Auxiliary notions of the settlement proofs *)

Module Passes.
Import backtest.

(** The first pass of [calculate_pnl] on one order of the flattened
    ledger. *)
Definition flat_step (acc : Qc * gmap string Z) (so : string * Order)
  : Qc * gmap string Z :=
  order_step so.1 acc so.2.

(** The price the valuation loop uses for a symbol. *)
Definition price_used (fs : TradingState) (s : string) : Qc :=
  match order_depths fs !! s with
  | Some od => match mid_price od with Done r => r | _ => 0%Qc end
  | None => 0%Qc
  end.

Definition inventory_value (fs : TradingState) (item : string * Z) : Qc :=
  if decide (item.2 = 0) then 0%Qc
  else (Qc_of_Z item.2 * price_used fs item.1)%Qc.

End Passes.

(** * Books, ticks and ledgers used as instances *)

Module Examples.
Import Status.

(** The class attributes after a tick in which [symbol] has book [od]. *)
Definition tick_of (symbol : string) (od : OrderDepth) : cls :=
  {| _state :=
       Some {| timestamp := 0;
               listings := {[symbol := mkListing symbol symbol "SEASHELLS"]};
               order_depths := {[symbol := od]};
               datamodel.position := ∅ |};
     _realtime_position := _realtime_position initial;
     _hist_order_depths := _hist_order_depths initial;
     _num_data := 1 |}.

(** A feed that reports 10 [KELP], and an optimistic position of 30. *)
Definition feed_kelp : TradingState :=
  {| timestamp := 100;
     listings := ∅;
     order_depths := ∅;
     datamodel.position := {["KELP"%string := 10]} |}.

Definition tracker_kelp : cls :=
  {| _state := Some feed_kelp;
     _realtime_position := <["KELP"%string := 30]> (_realtime_position initial);
     _hist_order_depths := _hist_order_depths initial;
     _num_data := 1 |}.

(** Three ticks of [KELP] recorded at the first bid level. *)
Definition three_ticks : cls :=
  {| _state := None;
     _realtime_position := _realtime_position initial;
     _hist_order_depths :=
       <["KELP"%string :=
           <["bidprc1"%string := [Some 2028; Some 2029; Some 2030]]>
             (default ∅ (_hist_order_depths initial !! "KELP"%string))]>
         (_hist_order_depths initial);
     _num_data := 3 |}.

(** The two-sided book of the specification's example. *)
Definition book_two_sided : OrderDepth :=
  {| buy_orders := {[100 := 5; 99 := 3]};
     sell_orders := {[101 := -4; 102 := -2]} |}.

(** A book with bids [{100: 5}] and no asks. *)
Definition book_bids_only : OrderDepth :=
  {| buy_orders := {[100 := 5]}; sell_orders := ∅ |}.

(** A book with no level on either side. *)
Definition book_empty : OrderDepth := {| buy_orders := ∅; sell_orders := ∅ |}.

(** A book with one level on each side. *)
Definition book_around (bid ask : Z) : OrderDepth :=
  {| buy_orders := {[bid := 1%Z]}; sell_orders := {[ask := (-1)%Z]} |}.

(** Three ticks of [SQUID_INK] with mid prices 10, 12 and 11. *)
Definition squid_ticks : list cls :=
  [ tick_of "SQUID_INK" (book_around 9 11);
    tick_of "SQUID_INK" (book_around 11 13);
    tick_of "SQUID_INK" (book_around 10 12) ].

(** The ledger of the specification's example, in one tick and in two. *)
Definition buy_X : Order := mkOrder "X" 100 5.
Definition sell_X : Order := mkOrder "X" 105 (-5).

Definition ledger_one_tick : list (gmap string (list Order)) :=
  [ {["X"%string := [buy_X; sell_X]]} ].

Definition ledger_two_ticks : list (gmap string (list Order)) :=
  [ {["X"%string := [buy_X]]}; {["X"%string := [sell_X]]} ].

(** A ledger of one tick that files [SQUID_INK] with no order, as a
    tick is filed in which the strategy places none. *)
Definition ledger_idle : list (gmap string (list Order)) :=
  [ {["SQUID_INK"%string := []]} ].

(** A final state that lists [SQUID_INK]. *)
Definition final_squid : TradingState :=
  {| timestamp := 999900;
     listings := {["SQUID_INK"%string
                   := mkListing "SQUID_INK" "SQUID_INK" "SEASHELLS"]};
     order_depths := {["SQUID_INK"%string := book_two_sided]};
     datamodel.position := ∅ |}.

(** A final state that lists [X], with bids [{100: 5}] and no asks. *)
Definition final_X : TradingState :=
  {| timestamp := 999900;
     listings := {["X"%string := mkListing "X" "X" "SEASHELLS"]};
     order_depths := {["X"%string := book_bids_only]};
     datamodel.position := ∅ |}.

End Examples.

(** * Further notions

    What the properties of the second part are stated with: the sign
    convention of a book, what a tick appends to the history tables,
    the shape of the orders of a sweep, and more example data. *)

Module BookSpec.
Import Status Spec.

(** The sign convention of a book: bid amounts are not negative, ask
    amounts not positive. *)
Definition book_signs (od : OrderDepth) : Prop :=
  (forall prc amt, buy_orders od !! prc = Some amt -> 0 <= amt)
  /\ (forall prc amt, sell_orders od !! prc = Some amt -> amt <= 0).

(** The sum of price times amount, the amounts with their signs. *)
Definition signed_notional (ls : list (Z * Z)) : Z :=
  sum_Z ((fun l => l.1 * l.2) <$> ls).

End BookSpec.

Module HistorySpec.
Import Status.

(** What one tick appends for one product, in the order of the
    appends: the levels present, then the padding. *)
Definition level_numbers : list Z := [1; 2; 3].

Definition present_ask (i : Z) (l : Z * Z) : list (string * cell) :=
  [ (("askamt" ++ str i)%string, Some l.2); (("askprc" ++ str i)%string, Some l.1) ].

Definition absent_ask (i : Z) : list (string * cell) :=
  [ (("askprc" ++ str i)%string, None); (("askamt" ++ str i)%string, None) ].

Definition present_bid (i : Z) (l : Z * Z) : list (string * cell) :=
  [ (("bidprc" ++ str i)%string, Some l.1); (("bidamt" ++ str i)%string, Some l.2) ].

Definition absent_bid (i : Z) : list (string * cell) :=
  [ (("bidprc" ++ str i)%string, None); (("bidamt" ++ str i)%string, None) ].

Definition ask_cells (asks : list (Z * Z)) : list (string * cell) :=
  concat (zip_with present_ask level_numbers asks)
  ++ concat (absent_ask <$> drop (length asks) level_numbers).

Definition bid_cells (bids : list (Z * Z)) : list (string * cell) :=
  concat (zip_with present_bid level_numbers bids)
  ++ concat (absent_bid <$> drop (length bids) level_numbers).

Definition tick_cells (od : OrderDepth) : list (string * cell) :=
  ask_cells (sorted false (map_to_list (sell_orders od)))
  ++ bid_cells (sorted true (map_to_list (buy_orders od))).

Definition appends (product : string) (cells : list (string * cell)) : action unit :=
  for_each (fun cell => hist_append product cell.1 cell.2) cells.

(** A table after the appends. *)
Definition appended (cells : list (string * cell)) (per : gmap string (list cell))
  : gmap string (list cell) :=
  foldl (fun per cell => alter (fun s => s ++ [cell.2]) cell.1 per) per cells.

(** The names of the series of each side. *)
Definition ask_names : list string :=
  [ "askprc1"; "askamt1"; "askprc2"; "askamt2"; "askprc3"; "askamt3" ]%string.

Definition bid_names : list string :=
  [ "bidprc1"; "bidamt1"; "bidprc2"; "bidamt2"; "bidprc3"; "bidamt3" ]%string.

(** The twelve series of a table have one length. *)
Definition table_wf (per : gmap string (list cell)) : Prop :=
  exists n, forall name,
    name ∈ series_names ->
    exists series, per !! name = Some series /\ length series = n.

Definition hist_wf (c : cls) : Prop :=
  forall product per, _hist_order_depths c !! product = Some per -> table_wf per.

(** The cell a tick records in the series [type ++ str depth]: the
    price or the amount of the level of that depth, counted from the
    best price, and [None] when the side has fewer levels. *)
Definition level_cell (od : OrderDepth) (type : string) (depth : Z) : option cell :=
  let asks := sorted false (map_to_list (sell_orders od)) in
  let bids := sorted true (map_to_list (buy_orders od)) in
  if decide (1 <= depth <= 3) then
    let i := Z.to_nat (depth - 1) in
    if decide (type = "askprc"%string) then Some (fst <$> asks !! i)
    else if decide (type = "askamt"%string) then Some (snd <$> asks !! i)
    else if decide (type = "bidprc"%string) then Some (fst <$> bids !! i)
    else if decide (type = "bidamt"%string) then Some (snd <$> bids !! i)
    else None
  else None.

(** What recording the order depths leaves alone. *)
Definition frame (c c' : cls) : Prop :=
  _state c' = _state c
  /\ _realtime_position c' = _realtime_position c
  /\ _num_data c' = _num_data c.

(** One item of the loop over the reported positions. *)
Definition put_position (m : gmap string Z) (item : string * Z) : gmap string Z :=
  <[item.1 := item.2]> m.

(** The class attributes after a run of ticks, each handed to
    [cls_update], a tick that raises leaving what it had written. *)
Definition feed position_items order_depth_items
    (states : list TradingState) (c : cls) : cls :=
  foldl (fun c state => (cls_update position_items order_depth_items state c).2)
        c states.

End HistorySpec.

Module StrategySpec.
Import Status.

(** The orders of a sweep: one per level, at the level's price. *)
Definition fills (product : string) (levels : list (Z * Z)) (qs : list Z)
  : list Order :=
  zip_with (fun l q => mkOrder product l.1 q) levels qs.

(** What a run of [updates] keeps of the two averages. *)
Definition seeded (self : t) : Prop :=
  length (ema_mid_35 self) = length (ema_mid_100 self)
  /\ ema_mid_35 self !! 0%nat = ema_mid_100 self !! 0%nat.

End StrategySpec.

Module MoreExamples.
Import Status Examples.

(** Three ticks of [SQUID_INK] with mid prices 12, 10 and 14: the
    fast average falls below the slow one, then rises above it. *)
Definition crossing_ticks : list cls :=
  [ tick_of "SQUID_INK" (book_around 11 13);
    tick_of "SQUID_INK" (book_around 9 11);
    tick_of "SQUID_INK" (book_around 13 15) ].

Definition crossing_squid : t :=
  Spec.run_ticks 2 crossing_ticks (init "SQUID_INK").

(** A tick that quotes [symbol] with book [od] and reports [held] of
    it. *)
Definition feed_book (symbol : string) (od : OrderDepth) (held : Z)
  : TradingState :=
  {| timestamp := 100;
     listings := {[symbol := mkListing symbol symbol "SEASHELLS"]};
     order_depths := {[symbol := od]};
     datamodel.position := {[symbol := held]} |}.

End MoreExamples.

(** * Properties *)

(** ** Slices *)

Module SliceFacts.

Lemma clip_nonneg (n : nat) (i : Z) :
  0 <= i -> Slice.clip n i = (Z.to_nat i `min` n)%nat.
Proof.
  intros Hi. unfold Slice.clip.
  destruct (Z.ltb_spec i 0); lia.
Qed.

Lemma clip_neg (n : nat) (i : Z) :
  i < 0 -> Slice.clip n i = (n - Z.to_nat (- i))%nat.
Proof.
  intros Hi. unfold Slice.clip.
  destruct (Z.ltb_spec i 0); lia.
Qed.

Lemma clip_le (n : nat) (i : Z) : (Slice.clip n i <= n)%nat.
Proof.
  destruct (Z.lt_ge_cases i 0).
  - rewrite clip_neg by done. lia.
  - rewrite clip_nonneg by lia. lia.
Qed.

(** [xs[-0:]] is [xs[0:]]: the whole sequence. *)
Lemma from_zero {A : Type} (xs : list A) : Slice.from 0 xs = xs.
Proof. unfold Slice.from. by rewrite clip_nonneg. Qed.

(** [xs[-k:]] for a positive [k] drops all but the last [k] items. *)
Lemma from_neg {A : Type} (k : Z) (xs : list A) :
  0 < k -> Slice.from (- k) xs = drop (length xs - Z.to_nat k) xs.
Proof.
  intros Hk. unfold Slice.from. rewrite clip_neg by lia.
  by rewrite Z.opp_involutive.
Qed.

Lemma upto_nonneg {A : Type} (k : Z) (xs : list A) :
  0 <= k -> Slice.upto k xs = take (Z.to_nat k) xs.
Proof.
  intros Hk. unfold Slice.upto. rewrite clip_nonneg by done.
  destruct (Nat.le_ge_cases (Z.to_nat k) (length xs)).
  - by rewrite Nat.min_l.
  - rewrite Nat.min_r by done. by rewrite !take_ge.
Qed.

Lemma upto_neg {A : Type} (k : Z) (xs : list A) :
  k < 0 -> Slice.upto k xs = take (length xs - Z.to_nat (- k)) xs.
Proof. intros Hk. unfold Slice.upto. by rewrite clip_neg. Qed.

Lemma length_list_ascii_of_string (s : string) :
  length (list_ascii_of_string s) = String.length s.
Proof. induction s as [|a s IH]; simpl; [done|]. by rewrite IH. Qed.

Lemma length_string_of_list_ascii (l : list ascii) :
  String.length (string_of_list_ascii l) = length l.
Proof. induction l as [|a l IH]; simpl; [done|]. by rewrite IH. Qed.

Lemma length_append (s1 s2 : string) :
  String.length (s1 ++ s2) = (String.length s1 + String.length s2)%nat.
Proof. induction s1 as [|a s1 IH]; simpl; [done|]. by rewrite IH. Qed.

(** The first [k] characters of a string, as [take] on its list of
    characters. *)
Lemma substring_take (k : nat) (s : string) :
  substring 0 k s = string_of_list_ascii (take k (list_ascii_of_string s)).
Proof.
  revert k. induction s as [|a s IH]; intros [|k]; simpl; try done.
  by rewrite IH.
Qed.

Lemma str_upto_nonneg (k : Z) (s : string) :
  0 <= k -> Slice.str_upto k s = substring 0 (Z.to_nat k) s.
Proof.
  intros Hk. unfold Slice.str_upto.
  by rewrite upto_nonneg, substring_take.
Qed.

Lemma str_upto_neg (k : Z) (s : string) :
  k < 0 ->
  Slice.str_upto k s = substring 0 (String.length s - Z.to_nat (- k)) s.
Proof.
  intros Hk. unfold Slice.str_upto.
  by rewrite upto_neg, substring_take, length_list_ascii_of_string.
Qed.

Lemma length_str_upto (k : Z) (s : string) :
  String.length (Slice.str_upto k s) = Slice.clip (String.length s) k.
Proof.
  unfold Slice.str_upto, Slice.upto.
  rewrite length_string_of_list_ascii, length_take, length_list_ascii_of_string.
  pose proof (clip_le (String.length s) k). lia.
Qed.

End SliceFacts.

(** ** [Logger.truncate] *)

Module LoggerFacts.
Import SliceFacts.

(** A value within the budget is returned as it is. *)
Lemma truncate_fits (value : string) (max_length : Z) :
  Z.of_nat (String.length value) <= max_length ->
  Logger.truncate value max_length = value.
Proof.
  intros H. unfold Logger.truncate.
  by destruct (Z.leb_spec (Z.of_nat (String.length value)) max_length); [|lia].
Qed.

(** With a budget of at least 3, a longer value keeps its first
    [max_length - 3] characters, and the result fills the budget. *)
Lemma truncate_head (value : string) (max_length : Z) :
  3 <= max_length < Z.of_nat (String.length value) ->
  Logger.truncate value max_length
    = (substring 0 (Z.to_nat (max_length - 3)) value ++ "...")%string
  /\ Z.of_nat (String.length (Logger.truncate value max_length)) = max_length.
Proof.
  intros H. unfold Logger.truncate.
  destruct (Z.leb_spec (Z.of_nat (String.length value)) max_length); [lia|].
  split.
  - by rewrite str_upto_nonneg by lia.
  - rewrite length_append, length_str_upto, clip_nonneg by lia. simpl. lia.
Qed.

(** With a budget below 3 the slice bound is negative and counts from
    the end: a longer value loses only its last [3 - max_length]
    characters, and the result is [max_length] characters longer than a
    value of at least that many characters. *)
Lemma truncate_negative_bound (value : string) (max_length : Z) :
  max_length < 3 -> max_length < Z.of_nat (String.length value) ->
  Logger.truncate value max_length
    = (substring 0 (String.length value - Z.to_nat (3 - max_length)) value
       ++ "...")%string
  /\ (3 - max_length <= Z.of_nat (String.length value) ->
      Z.of_nat (String.length (Logger.truncate value max_length))
      = Z.of_nat (String.length value) + max_length).
Proof.
  intros H3 H. unfold Logger.truncate.
  destruct (Z.leb_spec (Z.of_nat (String.length value)) max_length); [lia|].
  split.
  - rewrite str_upto_neg by lia. do 3 f_equal. lia.
  - intros Hlen. rewrite length_append, length_str_upto, clip_neg by lia.
    simpl. lia.
Qed.

(** C10, at the budget 2 and the value [abcdef]: the result is not the
    marker after the first [max_length - 3] characters (there are none
    to keep), it is the value without its last character followed by
    the marker, eight characters against a budget of two; at the budget
    5 the same value keeps its first two characters. *)
Theorem truncate_budget_below_marker :
  Logger.truncate "abcdef" 2 = "abcde..."%string
  /\ Logger.truncate "abcdef" 2
     <> (substring 0 (Z.to_nat (2 - 3)) "abcdef" ++ "...")%string
  /\ Z.of_nat (String.length (Logger.truncate "abcdef" 2)) = 8
  /\ Logger.truncate "abcdef" 5 = "ab..."%string.
Proof. repeat split. discriminate. Qed.

End LoggerFacts.

(** ** The position tracker *)

Module TrackerFacts.
Import Status Spec Examples.

Lemma rt_position_update_commit c self new_position limit :
  _position_limit !! product self = Some limit ->
  Z.abs new_position <= limit ->
  rt_position_update c self new_position
  = (Done tt,
     set_realtime_position c
       (<[product self := new_position]> (_realtime_position c))).
Proof.
  intros Hlim Hle. unfold rt_position_update, _cls_rt_position_update, getitem.
  rewrite Hlim. by destruct (Z.leb_spec (Z.abs new_position) limit); [|lia].
Qed.

Lemma rt_position_update_reject c self new_position limit :
  _position_limit !! product self = Some limit ->
  limit < Z.abs new_position ->
  rt_position_update c self new_position
  = (Raised (ValueError "New position exceeds position limit"), c).
Proof.
  intros Hlim Hgt. unfold rt_position_update, _cls_rt_position_update, getitem.
  rewrite Hlim. by destruct (Z.leb_spec (Z.abs new_position) limit); [lia|].
Qed.

(** A product without a configured limit cannot be updated. *)
Lemma rt_position_update_unknown c self new_position :
  _position_limit !! product self = None ->
  rt_position_update c self new_position = (Raised KeyError, c).
Proof.
  intros Hlim. unfold rt_position_update, _cls_rt_position_update, getitem.
  by rewrite Hlim.
Qed.

Lemma position_limit_nonneg p limit :
  _position_limit !! p = Some limit -> 0 <= limit.
Proof.
  intros H. apply elem_of_map_to_list in H.
  revert H. vm_compute map_to_list.
  rewrite !elem_of_cons, elem_of_nil.
  intros H. repeat destruct H as [H|H]; try done; injection H; lia.
Qed.

Lemma within_limits_initial : within_limits initial.
Proof.
  intros p limit Hlim. exists 0. split.
  - unfold initial. simpl. by rewrite lookup_fmap, Hlim.
  - pose proof (position_limit_nonneg _ _ Hlim). lia.
Qed.

Lemma within_limits_step c self new_position :
  within_limits c ->
  within_limits (rt_position_update c self new_position).2.
Proof.
  intros Hc.
  destruct (_position_limit !! product self) as [limit|] eqn:Hlim.
  - destruct (Z.le_gt_cases (Z.abs new_position) limit) as [Hle|Hgt].
    + rewrite (rt_position_update_commit _ _ _ _ Hlim Hle). simpl.
      intros p l Hp. cbn [_realtime_position set_realtime_position].
      destruct (decide (product self = p)) as [<-|Hne].
      * exists new_position. rewrite lookup_insert_eq. split; [done|].
        congruence.
      * rewrite lookup_insert_ne by done. by apply Hc.
    + by rewrite (rt_position_update_reject _ _ _ _ Hlim Hgt).
  - by rewrite (rt_position_update_unknown _ _ _ Hlim).
Qed.

Lemma within_limits_run calls c :
  within_limits c -> within_limits (run_updates calls c).
Proof.
  revert c. induction calls as [|call calls IH]; intros c Hc; [done|].
  apply IH. by apply within_limits_step.
Qed.

(** C1: a call within the limit returns and commits the new position:
    it is what the store then holds for the product and what
    [rt_position] reads, the other products keeping theirs; a call
    beyond the limit raises and leaves the store as it was, so the
    position read stays the one read before; and so, after any
    sequence of calls from the initial store, every optimistic position
    is within its limit in magnitude. *)
Theorem rt_position_update_within_limit :
  (forall c self new_position limit,
     _position_limit !! product self = Some limit ->
     (Z.abs new_position <= limit ->
      let r := rt_position_update c self new_position in
      r.1 = Done tt
      /\ _realtime_position r.2 !! product self = Some new_position
      /\ rt_position r.2 self = Done new_position
      /\ (forall p, p <> product self ->
            _realtime_position r.2 !! p = _realtime_position c !! p))
     /\ (limit < Z.abs new_position ->
         let r := rt_position_update c self new_position in
         (exists msg, r.1 = Raised (ValueError msg))
         /\ r.2 = c
         /\ rt_position r.2 self = rt_position c self))
  /\ (forall calls, within_limits (run_updates calls initial))
  /\ (forall calls c, within_limits c -> within_limits (run_updates calls c)).
Proof.
  split; [|split].
  - intros c self n limit Hlim. split.
    + intros Hle r. subst r.
      rewrite (rt_position_update_commit c self n limit Hlim Hle).
      cbn [fst snd _realtime_position set_realtime_position].
      split; [done|]. split; [apply lookup_insert_eq|]. split.
      * unfold rt_position, getitem.
        cbn [_realtime_position set_realtime_position].
        by rewrite lookup_insert_eq.
      * intros p Hp. by rewrite lookup_insert_ne.
    + intros Hgt r. subst r.
      rewrite (rt_position_update_reject c self n limit Hlim Hgt).
      split; [by eexists|done].
  - intros calls. exact (within_limits_run calls initial within_limits_initial).
  - exact within_limits_run.
Qed.

(** At [KELP], limit 50: 50 is committed and read back, and -51 is
    then refused, 50 staying. *)
Lemma rt_position_update_within_limit_witness :
  (let r := rt_position_update initial (init "KELP") 50 in
   r.1 = Done tt
   /\ _realtime_position r.2 !! "KELP"%string = Some 50
   /\ rt_position r.2 (init "KELP") = Done 50
   /\ (forall p, p <> "KELP"%string ->
         _realtime_position r.2 !! p = _realtime_position initial !! p))
  /\ (let c := (rt_position_update initial (init "KELP") 50).2 in
      let r := rt_position_update c (init "KELP") (-51) in
      (exists msg, r.1 = Raised (ValueError msg))
      /\ r.2 = c
      /\ rt_position r.2 (init "KELP") = rt_position c (init "KELP")).
Proof.
  split.
  - apply (proj1 rt_position_update_within_limit initial (init "KELP") 50 50);
      [reflexivity | simpl; lia].
  - apply (proj1 rt_position_update_within_limit _ (init "KELP") (-51) 50);
      [reflexivity | simpl; lia].
Defined.

(** The two rooms are computed from the limit, the optimistic position
    and the position the feed reports (0 when it reports none). *)
Lemma possible_buy_amt_eq c self st limit optimistic :
  _state c = Some st ->
  _position_limit !! product self = Some limit ->
  _realtime_position c !! product self = Some optimistic ->
  possible_buy_amt c self
  = Done (Z.min (limit - optimistic)
                (limit - default 0 (datamodel.position st !! product self))).
Proof.
  intros Hst Hlim Hrt.
  unfold possible_buy_amt, rt_position, position, state, getitem.
  rewrite Hlim, Hrt, Hst. simpl.
  by destruct (datamodel.position st !! product self).
Qed.

Lemma possible_sell_amt_eq c self st limit optimistic :
  _state c = Some st ->
  _position_limit !! product self = Some limit ->
  _realtime_position c !! product self = Some optimistic ->
  possible_sell_amt c self
  = Done (Z.min (limit + optimistic)
                (limit + default 0 (datamodel.position st !! product self))).
Proof.
  intros Hst Hlim Hrt.
  unfold possible_sell_amt, rt_position, position, state, getitem.
  rewrite Hlim, Hrt, Hst. simpl.
  by destruct (datamodel.position st !! product self).
Qed.

End TrackerFacts.

Module RoomFacts.
Import Status Spec Examples TrackerFacts.

(** C7: in a tracker state that holds a feed report, a limit and an
    optimistic position for the product, the room to buy is the smaller
    of [limit - optimistic] and [limit - authoritative], and the room
    to sell the smaller of [limit + optimistic] and
    [limit + authoritative]; the authoritative position is the one the
    feed reports, 0 when it reports none. *)
Theorem possible_amounts c self st limit optimistic :
  _state c = Some st ->
  _position_limit !! product self = Some limit ->
  _realtime_position c !! product self = Some optimistic ->
  let authoritative := default 0 (datamodel.position st !! product self) in
  position c self = Done authoritative
  /\ rt_position c self = Done optimistic
  /\ possible_buy_amt c self
     = Done (Z.min (limit - optimistic) (limit - authoritative))
  /\ possible_sell_amt c self
     = Done (Z.min (limit + optimistic) (limit + authoritative)).
Proof.
  intros Hst Hlim Hrt authoritative. repeat split.
  - unfold position, state. rewrite Hst. simpl. subst authoritative.
    by destruct (datamodel.position st !! product self).
  - unfold rt_position, getitem. by rewrite Hrt.
  - by apply possible_buy_amt_eq.
  - by apply possible_sell_amt_eq.
Qed.

Lemma possible_amounts_witness :
  possible_buy_amt tracker_kelp (init "KELP") = Done 20
  /\ possible_sell_amt tracker_kelp (init "KELP") = Done 60.
Proof.
  pose proof (possible_amounts tracker_kelp (init "KELP") feed_kelp 50 30
                eq_refl eq_refl eq_refl) as (_ & _ & Hbuy & Hsell).
  split; [exact Hbuy | exact Hsell].
Defined.

End RoomFacts.

(** ** The history buffer *)

Module HistFacts.
Import Status Spec Examples SliceFacts.

Section window.

Context {F : Type} (float32 : cell -> F).

(** For a positive [size] the result is the window of the last
    [size] cells of the series, oldest first, and the whole series
    when it holds fewer. *)
Lemma hist_order_depth_window c self type depth size per_product series :
  _hist_order_depths c !! product self = Some per_product ->
  per_product !! (type ++ str depth)%string = Some series ->
  0 < size ->
  exists older window,
    series = older ++ window
    /\ length window = (Z.to_nat size `min` length series)%nat
    /\ hist_order_depth float32 c self type depth size
       = Done (float32 <$> window).
Proof.
  intros Hp Hs Hsize.
  exists (take (length series - Z.to_nat size) series),
         (drop (length series - Z.to_nat size) series).
  split; [by rewrite take_drop|]. split.
  - rewrite length_drop. lia.
  - unfold hist_order_depth, getitem. rewrite Hp. simpl. rewrite Hs. simpl.
    by rewrite from_neg.
Qed.

(** For [size = 0] the slice [[-0:]] is the whole series. *)
Lemma hist_order_depth_zero c self type depth per_product series :
  _hist_order_depths c !! product self = Some per_product ->
  per_product !! (type ++ str depth)%string = Some series ->
  hist_order_depth float32 c self type depth 0 = Done (float32 <$> series).
Proof.
  intros Hp Hs.
  unfold hist_order_depth, getitem. rewrite Hp. simpl. rewrite Hs. simpl.
  by rewrite from_zero.
Qed.

End window.

(** C5, at [size = 0] on a series of three cells: the window is not
    empty, it is the whole series, whatever the conversion of the
    cells; a window of two is the last two. *)
Theorem hist_order_depth_size_zero :
  forall (F : Type) (float32 : cell -> F),
    hist_order_depth float32 three_ticks (init "KELP") "bidprc" 1 0
    = Done [float32 (Some 2028); float32 (Some 2029); float32 (Some 2030)]
    /\ hist_order_depth float32 three_ticks (init "KELP") "bidprc" 1 0
       <> Done []
    /\ hist_order_depth float32 three_ticks (init "KELP") "bidprc" 1 2
       = Done [float32 (Some 2029); float32 (Some 2030)].
Proof. intros F float32. repeat split. discriminate. Qed.

End HistFacts.

(** ** The market state *)

Module MarketFacts.
Import Status Spec Examples.

Lemma foldl_max_spec (xs : list Z) (x : Z) :
  foldl Z.max x xs ∈ x :: xs /\ forall k, k ∈ x :: xs -> k <= foldl Z.max x xs.
Proof.
  revert x. induction xs as [|y xs IH]; intros x; simpl.
  - split; [by left|]. intros k Hk. apply list_elem_of_singleton in Hk. lia.
  - destruct (IH (Z.max x y)) as [Hin Hub]. split.
    + apply elem_of_cons in Hin as [Heq|Hin].
      * rewrite Heq. destruct (Z.max_spec x y) as [[_ ->]|[_ ->]];
          [right; left | left].
      * by do 2 right.
    + intros k Hk. apply elem_of_cons in Hk as [->|Hk].
      * pose proof (Hub (Z.max x y) ltac:(by left)). lia.
      * apply elem_of_cons in Hk as [->|Hk].
        -- pose proof (Hub (Z.max x y) ltac:(by left)). lia.
        -- apply Hub. by right.
Qed.

Lemma foldl_min_spec (xs : list Z) (x : Z) :
  foldl Z.min x xs ∈ x :: xs /\ forall k, k ∈ x :: xs -> foldl Z.min x xs <= k.
Proof.
  revert x. induction xs as [|y xs IH]; intros x; simpl.
  - split; [by left|]. intros k Hk. apply list_elem_of_singleton in Hk. lia.
  - destruct (IH (Z.min x y)) as [Hin Hlb]. split.
    + apply elem_of_cons in Hin as [Heq|Hin].
      * rewrite Heq. destruct (Z.min_spec x y) as [[_ ->]|[_ ->]];
          [left | right; left].
      * by do 2 right.
    + intros k Hk. apply elem_of_cons in Hk as [->|Hk].
      * pose proof (Hlb (Z.min x y) ltac:(by left)). lia.
      * apply elem_of_cons in Hk as [->|Hk].
        -- pose proof (Hlb (Z.min x y) ltac:(by left)). lia.
        -- apply Hlb. by right.
Qed.

Lemma elem_of_keys (d : gmap Z Z) (k : Z) : k ∈ keys d <-> is_Some (d !! k).
Proof.
  unfold keys. rewrite list_elem_of_fmap. split.
  - intros [[k' v] [-> Hin]]. apply elem_of_map_to_list in Hin. by exists v.
  - intros [v Hv]. exists (k, v). split; [done|]. by apply elem_of_map_to_list.
Qed.

Lemma len_pos (d : gmap Z Z) : (0 <? len d) = true <-> d <> ∅.
Proof.
  unfold len. rewrite Z.ltb_lt. rewrite <- map_size_non_empty_iff. lia.
Qed.

Lemma len_zero (d : gmap Z Z) : (0 <? len d) = false <-> d = ∅.
Proof.
  unfold len. rewrite Z.ltb_ge. rewrite <- map_size_empty_iff. lia.
Qed.

Lemma keys_nonempty (d : gmap Z Z) : d <> ∅ -> keys d <> [].
Proof.
  intros Hd Hk. apply Hd. apply map_to_list_empty_iff.
  unfold keys in Hk. by apply fmap_nil_inv in Hk.
Qed.

Lemma py_max_keys (d : gmap Z Z) :
  d <> ∅ -> exists m, py_max (keys d) = Done m /\ is_max_price m d.
Proof.
  intros Hd. pose proof (keys_nonempty d Hd) as Hk.
  pose proof (elem_of_keys d) as Hin.
  destruct (keys d) as [|x xs]; [done|]. simpl.
  destruct (foldl_max_spec xs x) as [H1 H2].
  eexists. split; [done|]. split.
  - by apply Hin.
  - intros k Hsome. by apply H2, Hin.
Qed.

Lemma py_min_keys (d : gmap Z Z) :
  d <> ∅ -> exists m, py_min (keys d) = Done m /\ is_min_price m d.
Proof.
  intros Hd. pose proof (keys_nonempty d Hd) as Hk.
  pose proof (elem_of_keys d) as Hin.
  destruct (keys d) as [|x xs]; [done|]. simpl.
  destruct (foldl_min_spec xs x) as [H1 H2].
  eexists. split; [done|]. split.
  - by apply Hin.
  - intros k Hsome. by apply H2, Hin.
Qed.

Lemma is_max_price_unique m m' d :
  is_max_price m d -> is_max_price m' d -> m = m'.
Proof. intros [H1 H2] [H1' H2']. apply H2 in H1'. apply H2' in H1. lia. Qed.

Lemma is_min_price_unique m m' d :
  is_min_price m d -> is_min_price m' d -> m = m'.
Proof. intros [H1 H2] [H1' H2']. apply H2 in H1'. apply H2' in H1. lia. Qed.

Section book.

(** The class attributes hold a state with book [od] for the
    instance's product. *)
Context (c : cls) (self : t) (st : TradingState) (od : OrderDepth).
Hypothesis Hstate : _state c = Some st.
Hypothesis Hbook : order_depths st !! product self = Some od.

Lemma order_depth_eq : order_depth c self = Done od.
Proof. unfold order_depth, state, getitem. by rewrite Hstate; simpl; rewrite Hbook. Qed.

Lemma best_bid_some fuel :
  buy_orders od <> ∅ ->
  exists b, best_bid (S fuel) c self = Done b /\ is_max_price b (buy_orders od).
Proof.
  intros Hd. simpl. rewrite order_depth_eq. simpl.
  apply len_pos in Hd as Hlen. rewrite Hlen. by apply py_max_keys.
Qed.

Lemma best_ask_some fuel :
  sell_orders od <> ∅ ->
  exists a, best_ask (S fuel) c self = Done a /\ is_min_price a (sell_orders od).
Proof.
  intros Hd. simpl. rewrite order_depth_eq. simpl.
  apply len_pos in Hd as Hlen. rewrite Hlen. by apply py_min_keys.
Qed.

Lemma best_bid_fallback fuel :
  buy_orders od = ∅ ->
  best_bid (S fuel) c self = (a <-- best_ask fuel c self;; Done (a - 1)).
Proof.
  intros Hd. simpl. rewrite order_depth_eq. simpl.
  apply len_zero in Hd as Hlen. by rewrite Hlen.
Qed.

Lemma best_ask_fallback fuel :
  sell_orders od = ∅ ->
  best_ask (S fuel) c self = (b <-- best_bid fuel c self;; Done (b + 1)).
Proof.
  intros Hd. simpl. rewrite order_depth_eq. simpl.
  apply len_zero in Hd as Hlen. by rewrite Hlen.
Qed.

(** With both sides empty, no budget is enough for either query. *)
Lemma empty_book_unfinished fuel :
  buy_orders od = ∅ -> sell_orders od = ∅ ->
  best_bid fuel c self = Unfinished /\ best_ask fuel c self = Unfinished.
Proof.
  intros Hb Ha. induction fuel as [|fuel [IHb IHa]]; [done|].
  rewrite best_bid_fallback, best_ask_fallback by done.
  by rewrite IHb, IHa.
Qed.

(** With a level on some side, two nested calls are enough. *)
Lemma best_prices_done fuel :
  buy_orders od <> ∅ \/ sell_orders od <> ∅ ->
  exists b a,
    best_bid (S (S fuel)) c self = Done b
    /\ best_ask (S (S fuel)) c self = Done a
    /\ (if decide (buy_orders od = ∅) then b = a - 1
        else is_max_price b (buy_orders od))
    /\ (if decide (sell_orders od = ∅) then a = b + 1
        else is_min_price a (sell_orders od)).
Proof.
  intros Hne.
  destruct (decide (buy_orders od = ∅)) as [Hb|Hb];
    destruct (decide (sell_orders od = ∅)) as [Ha|Ha].
  - by destruct Hne.
  - destruct (best_ask_some fuel Ha) as (a & Ha1 & Ha2).
    destruct (best_ask_some (S fuel) Ha) as (a' & Ha1' & Ha2').
    pose proof (is_min_price_unique _ _ _ Ha2 Ha2') as <-.
    exists (a - 1), a. rewrite best_bid_fallback by done.
    by rewrite Ha1, Ha1'.
  - destruct (best_bid_some fuel Hb) as (b & Hb1 & Hb2).
    destruct (best_bid_some (S fuel) Hb) as (b' & Hb1' & Hb2').
    pose proof (is_max_price_unique _ _ _ Hb2 Hb2') as <-.
    exists b, (b + 1). rewrite best_ask_fallback by done.
    by rewrite Hb1, Hb1'.
  - destruct (best_bid_some (S fuel) Hb) as (b & Hb1 & Hb2).
    destruct (best_ask_some (S fuel) Ha) as (a & Ha1 & Ha2).
    by exists b, a.
Qed.

Lemma mid_done fuel b a :
  best_bid fuel c self = Done b ->
  best_ask fuel c self = Done a ->
  mid fuel c self = Done ((Qc_of_Z b + Qc_of_Z a) / Qc_of_Z 2)%Qc.
Proof.
  intros Hb Ha. unfold mid. rewrite Hb, Ha. simpl.
  unfold truediv. simpl. by rewrite Z2Qc_inj_add.
Qed.

Lemma mid_unfinished fuel :
  best_bid fuel c self = Unfinished -> mid fuel c self = Unfinished.
Proof. intros Hb. unfold mid. by rewrite Hb. Qed.

End book.

Lemma sum_Z_app xs ys : sum_Z (xs ++ ys) = sum_Z xs + sum_Z ys.
Proof.
  unfold sum_Z. induction xs as [|x xs IH]; [done|].
  cbn [app foldr]. rewrite IH. lia.
Qed.

Lemma notional_app ls1 ls2 : notional (ls1 ++ ls2) = notional ls1 + notional ls2.
Proof. unfold notional. by rewrite fmap_app, sum_Z_app. Qed.

Lemma volume_app ls1 ls2 : volume (ls1 ++ ls2) = volume ls1 + volume ls2.
Proof. unfold volume. by rewrite fmap_app, sum_Z_app. Qed.

Lemma notional_cons prc amt ls :
  notional ((prc, amt) :: ls) = prc * Z.abs amt + notional ls.
Proof. reflexivity. Qed.

Lemma volume_cons prc amt ls :
  volume ((prc, amt) :: ls) = Z.abs amt + volume ls.
Proof. reflexivity. Qed.

Lemma foldl_vwap_ask_step ls vwap total_amt :
  foldl vwap_ask_step (vwap, total_amt) ls
  = (vwap + notional ls, total_amt + volume ls).
Proof.
  revert vwap total_amt. induction ls as [|[prc amt] ls IH]; intros v t.
  - unfold notional, volume, sum_Z. simpl. f_equal; lia.
  - simpl. rewrite IH, notional_cons, volume_cons. f_equal; lia.
Qed.

(** The bid loop adds the signed amounts: it agrees with the sums of
    magnitudes on amounts that are not negative. *)
Lemma foldl_vwap_bid_step ls vwap total_amt :
  Forall (fun l => 0 <= l.2) ls ->
  foldl vwap_bid_step (vwap, total_amt) ls
  = (vwap + notional ls, total_amt + volume ls).
Proof.
  intros Hpos. revert vwap total_amt.
  induction Hpos as [|[prc amt] ls Hamt Hpos IH]; intros v t.
  - unfold notional, volume, sum_Z. simpl. f_equal; lia.
  - simpl in *. rewrite IH, notional_cons, volume_cons.
    rewrite (Z.abs_eq amt) by done. f_equal; lia.
Qed.

(** C3: on a book whose bid amounts are not negative, [vwap] is the sum
    of [price * |qty|] over the sum of [|qty|], both over all the
    levels of both sides; and when that total volume is zero the call
    raises [ZeroDivisionError] and returns no number. *)
Theorem vwap_all_levels c self st od :
  _state c = Some st ->
  order_depths st !! product self = Some od ->
  (forall prc amt, buy_orders od !! prc = Some amt -> 0 <= amt) ->
  vwap c self
  = if volume (levels od) =? 0 then Raised ZeroDivisionError
    else Done (Qc_of_Z (notional (levels od)) / Qc_of_Z (volume (levels od)))%Qc.
Proof.
  intros Hstate Hbook Hbids. unfold vwap.
  rewrite (order_depth_eq c self st od Hstate Hbook). simpl.
  rewrite foldl_vwap_bid_step.
  - rewrite foldl_vwap_ask_step. unfold truediv, levels.
    rewrite notional_app, volume_app.
    by rewrite ?Z.add_0_l.
  - apply Forall_forall. intros [prc amt] Hin.
    apply list_elem_of_In, elem_of_map_to_list in Hin. simpl. by eapply Hbids.
Qed.

Lemma vwap_all_levels_witness :
  vwap (tick_of "KELP" book_two_sided) (init "KELP")
  = Done (Qc_of_Z 1405 / Qc_of_Z 14)%Qc
  /\ vwap (tick_of "KELP" book_empty) (init "KELP") = Raised ZeroDivisionError.
Proof.
  split.
  - refine (vwap_all_levels (tick_of "KELP" book_two_sided) (init "KELP")
              _ book_two_sided eq_refl eq_refl _).
    intros prc amt H. apply elem_of_map_to_list in H.
    revert H. vm_compute map_to_list.
    rewrite !elem_of_cons, elem_of_nil.
    intros H. repeat destruct H as [H|H]; try done; injection H; lia.
  - refine (vwap_all_levels (tick_of "KELP" book_empty) (init "KELP")
              _ book_empty eq_refl eq_refl _).
    intros prc amt H. simpl in H. by rewrite lookup_empty in H.
Defined.

End MarketFacts.

Module BestPriceFacts.
Import Status Spec Examples MarketFacts.

Lemma fuel_two (fuel : nat) : (2 <= fuel)%nat -> exists n, fuel = S (S n).
Proof. intros H. exists (fuel - 2)%nat. lia. Qed.

(** C4: on a book with a level on some side, [best_bid] is the largest
    bid price when there are bids and [best_ask - 1] otherwise,
    [best_ask] is the smallest ask price when there are asks and
    [best_bid + 1] otherwise, and [mid] is half their sum; on the book
    with bids [{100: 5}] and no asks, [best_ask] is 101 and [mid] is
    100.5. *)
Theorem best_bid_best_ask_mid :
  (forall c self st od fuel,
     _state c = Some st ->
     order_depths st !! product self = Some od ->
     buy_orders od <> ∅ \/ sell_orders od <> ∅ ->
     (2 <= fuel)%nat ->
     exists b a,
       best_bid fuel c self = Done b
       /\ best_ask fuel c self = Done a
       /\ mid fuel c self = Done ((Qc_of_Z b + Qc_of_Z a) / Qc_of_Z 2)%Qc
       /\ (if decide (buy_orders od = ∅) then b = a - 1
           else is_max_price b (buy_orders od))
       /\ (if decide (sell_orders od = ∅) then a = b + 1
           else is_min_price a (sell_orders od)))
  /\ (forall c self st fuel,
        _state c = Some st ->
        order_depths st !! product self = Some book_bids_only ->
        (2 <= fuel)%nat ->
        best_bid fuel c self = Done 100
        /\ best_ask fuel c self = Done 101
        /\ mid fuel c self = Done (Q2Qc 100.5)).
Proof.
  assert (forall c self st od fuel,
     _state c = Some st ->
     order_depths st !! product self = Some od ->
     buy_orders od <> ∅ \/ sell_orders od <> ∅ ->
     (2 <= fuel)%nat ->
     exists b a,
       best_bid fuel c self = Done b
       /\ best_ask fuel c self = Done a
       /\ mid fuel c self = Done ((Qc_of_Z b + Qc_of_Z a) / Qc_of_Z 2)%Qc
       /\ (if decide (buy_orders od = ∅) then b = a - 1
           else is_max_price b (buy_orders od))
       /\ (if decide (sell_orders od = ∅) then a = b + 1
           else is_min_price a (sell_orders od))) as Hgen.
  { intros c self st od fuel Hstate Hbook Hne Hfuel.
    destruct (fuel_two fuel Hfuel) as [n ->].
    destruct (best_prices_done c self st od Hstate Hbook n Hne)
      as (b & a & Hb & Ha & Hbid & Hask).
    exists b, a. repeat split; try done.
    by apply (mid_done c self). }
  split; [exact Hgen|].
  intros c self st fuel Hstate Hbook Hfuel.
  destruct (Hgen c self st book_bids_only fuel Hstate Hbook) as
    (b & a & Hb & Ha & Hm & Hbid & Hask); [by left; vm_compute | done |].
  destruct (decide (buy_orders book_bids_only = ∅)) as [He|_];
    [by vm_compute in He|].
  destruct (decide (sell_orders book_bids_only = ∅)) as [_|Hne];
    [|by destruct Hne].
  assert (b = 100) as ->.
  { destruct Hbid as [[v Hv] _]. simpl in Hv.
    by apply lookup_singleton_Some in Hv as [<- _]. }
  subst a. repeat split; try done.
  rewrite Hm. f_equal. apply Qc_is_canon. reflexivity.
Qed.

(** The general part at the two-sided book of the specification, the
    particular one at the book with bids only. *)
Lemma best_bid_best_ask_mid_witness :
  (exists b a,
     best_bid 2 (tick_of "KELP" book_two_sided) (init "KELP") = Done b
     /\ best_ask 2 (tick_of "KELP" book_two_sided) (init "KELP") = Done a
     /\ mid 2 (tick_of "KELP" book_two_sided) (init "KELP")
        = Done ((Qc_of_Z b + Qc_of_Z a) / Qc_of_Z 2)%Qc)
  /\ best_ask 2 (tick_of "KELP" book_bids_only) (init "KELP") = Done 101
  /\ mid 2 (tick_of "KELP" book_bids_only) (init "KELP") = Done (Q2Qc 100.5).
Proof.
  split.
  - destruct (proj1 best_bid_best_ask_mid
                (tick_of "KELP" book_two_sided) (init "KELP") _ book_two_sided 2%nat
                eq_refl eq_refl) as (b & a & Hb & Ha & Hm & _).
    + left. vm_compute. discriminate.
    + lia.
    + by exists b, a.
  - destruct (proj2 best_bid_best_ask_mid
                (tick_of "KELP" book_bids_only) (init "KELP") _ 2%nat
                eq_refl eq_refl) as (_ & Ha & Hm); [lia|].
    by split.
Defined.

(** C9: the two queries call each other through their fallbacks, so
    each of them, and [mid], returns a value for some budget exactly
    when the book has a level on some side, and then for every budget
    of at least two nested calls; on a book with both sides empty no
    budget is enough. *)
Theorem best_bid_best_ask_terminate c self st od :
  _state c = Some st ->
  order_depths st !! product self = Some od ->
  ((exists fuel b, best_bid fuel c self = Done b)
   <-> (buy_orders od <> ∅ \/ sell_orders od <> ∅))
  /\ ((exists fuel a, best_ask fuel c self = Done a)
      <-> (buy_orders od <> ∅ \/ sell_orders od <> ∅))
  /\ ((exists fuel m, mid fuel c self = Done m)
      <-> (buy_orders od <> ∅ \/ sell_orders od <> ∅))
  /\ (buy_orders od <> ∅ \/ sell_orders od <> ∅ ->
      forall fuel, (2 <= fuel)%nat ->
        (exists b, best_bid fuel c self = Done b)
        /\ (exists a, best_ask fuel c self = Done a)
        /\ (exists m, mid fuel c self = Done m))
  /\ (buy_orders od = ∅ -> sell_orders od = ∅ ->
      forall fuel,
        best_bid fuel c self = Unfinished
        /\ best_ask fuel c self = Unfinished
        /\ mid fuel c self = Unfinished).
Proof.
  intros Hstate Hbook.
  assert (buy_orders od = ∅ -> sell_orders od = ∅ ->
      forall fuel,
        best_bid fuel c self = Unfinished
        /\ best_ask fuel c self = Unfinished
        /\ mid fuel c self = Unfinished) as Hempty.
  { intros Hb Ha fuel.
    destruct (empty_book_unfinished c self st od Hstate Hbook fuel Hb Ha)
      as [Hbid Hask].
    repeat split; try done. by apply mid_unfinished. }
  assert (buy_orders od <> ∅ \/ sell_orders od <> ∅ ->
      forall fuel, (2 <= fuel)%nat ->
        (exists b, best_bid fuel c self = Done b)
        /\ (exists a, best_ask fuel c self = Done a)
        /\ (exists m, mid fuel c self = Done m)) as Hdone.
  { intros Hne fuel Hfuel. destruct (fuel_two fuel Hfuel) as [n ->].
    destruct (best_prices_done c self st od Hstate Hbook n Hne)
      as (b & a & Hb & Ha & _).
    repeat split; [by exists b | by exists a |].
    eexists. by apply (mid_done c self). }
  assert (forall fuel,
            (exists b, best_bid fuel c self = Done b)
            \/ (exists a, best_ask fuel c self = Done a)
            \/ (exists m, mid fuel c self = Done m) ->
            buy_orders od <> ∅ \/ sell_orders od <> ∅) as Hconv.
  { intros fuel Hsome.
    destruct (decide (buy_orders od = ∅)) as [Hb|Hb]; [|by left].
    destruct (decide (sell_orders od = ∅)) as [Ha|Ha]; [|by right].
    destruct (Hempty Hb Ha fuel) as (Hbid & Hask & Hmid).
    rewrite Hbid, Hask, Hmid in Hsome.
    destruct Hsome as [[? ?]|[[? ?]|[? ?]]]; discriminate. }
  repeat split; try done.
  - intros (fuel & b & Hb). apply (Hconv fuel). left. by exists b.
  - intros Hne. exists 2%nat. by apply Hdone.
  - intros (fuel & a & Ha). apply (Hconv fuel). right. left. by exists a.
  - intros Hne. exists 2%nat. by apply Hdone.
  - intros (fuel & m & Hm). apply (Hconv fuel). right. right. by exists m.
  - intros Hne. exists 2%nat. by apply Hdone.
  - by apply Hdone.
  - by apply Hdone.
  - by apply Hdone.
  - by apply Hempty.
  - by apply Hempty.
  - by apply Hempty.
Qed.

Lemma best_bid_best_ask_terminate_witness :
  (forall fuel, mid fuel (tick_of "KELP" book_empty) (init "KELP") = Unfinished)
  /\ (exists b, best_bid 2 (tick_of "KELP" book_bids_only) (init "KELP") = Done b).
Proof.
  split.
  - intros fuel.
    apply (best_bid_best_ask_terminate
             (tick_of "KELP" book_empty) (init "KELP") _ book_empty
             eq_refl eq_refl); reflexivity.
  - apply (best_bid_best_ask_terminate
             (tick_of "KELP" book_bids_only) (init "KELP") _ book_bids_only
             eq_refl eq_refl); [left; vm_compute; discriminate | lia].
Defined.

End BestPriceFacts.

(** ** The two moving averages *)

Module EmaFacts.
Import Status Spec Examples MarketFacts BestPriceFacts.

Local Open Scope Qc_scope.

Lemma best_price_product fuel c self self' :
  product self = product self' ->
  best_bid fuel c self = best_bid fuel c self'
  /\ best_ask fuel c self = best_ask fuel c self'.
Proof.
  intros Hp. induction fuel as [|fuel [IHb IHa]]; [done|].
  simpl. unfold order_depth. by rewrite Hp, IHb, IHa.
Qed.

(** [mid] reads the instance's product only. *)
Lemma mid_product fuel c self self' :
  product self = product self' -> mid fuel c self = mid fuel c self'.
Proof.
  intros Hp. unfold mid.
  by destruct (best_price_product fuel c self self' Hp) as [-> ->].
Qed.

Lemma updates_first fuel c self m :
  ema_mid_35 self = [] ->
  mid fuel c self = Done m ->
  updates fuel c self
  = (Done tt, append_ema_mid_100 m (append_ema_mid_35 m self)).
Proof.
  intros H35 Hm. unfold updates. rewrite H35. simpl.
  rewrite Hm.
  rewrite (mid_product fuel c (append_ema_mid_35 m self) self) by done.
  by rewrite Hm.
Qed.

Lemma updates_next fuel c self m prev35 prev100 :
  list.last (ema_mid_35 self) = Some prev35 ->
  list.last (ema_mid_100 self) = Some prev100 ->
  mid fuel c self = Done m ->
  updates fuel c self
  = (Done tt,
     append_ema_mid_100 (prev100 * (1 - n100) + n100 * m)
       (append_ema_mid_35 (prev35 * (1 - n35) + n35 * m) self)).
Proof.
  intros H35 H100 Hm. unfold updates.
  destruct (ema_mid_35 self) as [|x xs] eqn:E; [done|].
  simpl length. cbn [Nat.eqb]. unfold last_item.
  rewrite H35, H100. simpl. by rewrite Hm.
Qed.

Lemma ema_prefix alpha mids m t :
  (t < length mids)%nat -> ema alpha (mids ++ [m]) t = ema alpha mids t.
Proof.
  induction t as [|t IH]; intros Ht; simpl.
  - by rewrite lookup_app_l.
  - rewrite IH by lia. by rewrite lookup_app_l.
Qed.

Lemma ema_series_snoc alpha mids m :
  ema_series alpha (mids ++ [m])
  = ema_series alpha mids ++ [ema alpha (mids ++ [m]) (length mids)].
Proof.
  unfold ema_series. rewrite length_app. simpl.
  rewrite seq_app, fmap_app. simpl. f_equal.
  apply list_fmap_ext. intros i t Hi.
  apply lookup_seq in Hi as [-> Hi]. simpl. by apply ema_prefix.
Qed.

Lemma ema_series_length alpha mids : length (ema_series alpha mids) = length mids.
Proof. unfold ema_series. by rewrite length_fmap, length_seq. Qed.

Lemma ema_series_lookup alpha mids t :
  (t < length mids)%nat -> ema_series alpha mids !! t = Some (ema alpha mids t).
Proof.
  intros Ht. unfold ema_series. rewrite list_lookup_fmap.
  by rewrite lookup_seq_lt.
Qed.

Lemma ema_series_last alpha mids m :
  list.last (ema_series alpha (mids ++ [m]))
  = Some (ema alpha (mids ++ [m]) (length mids)).
Proof. by rewrite ema_series_snoc, last_snoc. Qed.

(** After the ticks, the two series are the two recurrences run on the
    mid prices of the ticks. *)
Lemma run_ticks_series fuel p ticks mids :
  Forall2 (fun c m => mid fuel c (init p) = Done m) ticks mids ->
  run_ticks fuel ticks (init p)
  = {| product := p;
       ema_mid_35 := ema_series n35 mids;
       ema_mid_100 := ema_series n100 mids |}.
Proof.
  revert mids. induction ticks as [|c ticks IH] using rev_ind; intros mids H.
  - by apply Forall2_nil_inv_l in H as ->.
  - apply Forall2_app_inv_l in H as (mids' & ms & H1 & H2 & ->).
    apply Forall2_cons_inv_l in H2 as (m & ms' & Hm & H2 & ->).
    apply Forall2_nil_inv_l in H2 as ->.
    unfold run_ticks in *. rewrite foldl_app. simpl. rewrite (IH mids' H1).
    set (self := {| product := p; ema_mid_35 := ema_series n35 mids';
                    ema_mid_100 := ema_series n100 mids' |}).
    assert (mid fuel c self = Done m) as Hmid.
    { by rewrite (mid_product fuel c self (init p)). }
    destruct mids' as [|m0 mids'] using rev_ind.
    + by rewrite (updates_first fuel c self m eq_refl Hmid).
    + clear IHmids'.
      rewrite (updates_next fuel c self m _ _
                 (ema_series_last n35 mids' m0)
                 (ema_series_last n100 mids' m0) Hmid).
      unfold append_ema_mid_100, append_ema_mid_35. simpl.
      rewrite (ema_series_snoc n35 (mids' ++ [m0]) m).
      rewrite (ema_series_snoc n100 (mids' ++ [m0]) m).
      rewrite !length_app. simpl length.
      replace (length mids' + 1)%nat with (S (length mids')) by lia.
      cbn [ema].
      rewrite !(ema_prefix _ (mids' ++ [m0]) m (length mids'))
        by (rewrite length_app; simpl; lia).
      rewrite !(lookup_app_r (mids' ++ [m0]) [m] (S (length mids')))
        by (rewrite length_app; simpl; lia).
      rewrite !length_app. simpl length.
      replace (S (length mids') - (length mids' + 1))%nat with O by lia.
      done.
Qed.

End EmaFacts.

Module EmaSeries.
Import Status Spec Examples MarketFacts BestPriceFacts EmaFacts.

Local Open Scope Qc_scope.

(** C6: the factors are 2/36 and 2/101; the first call appends the mid
    price to both series and a later call appends
    [prev * (1 - alpha) + alpha * mid] to each; so after one call per
    tick the two series follow the recurrence on the ticks' mid prices,
    and for the mid prices 10, 12, 11 the fast series starts with 10
    and [10 * (34/36) + 12 * (2/36)]. *)
Theorem updates_ema_series :
  (n35 = Q2Qc (2 # 36) /\ n100 = Q2Qc (2 # 101))
  /\ (forall fuel c self m,
        ema_mid_35 self = [] ->
        mid fuel c self = Done m ->
        updates fuel c self
        = (Done tt, append_ema_mid_100 m (append_ema_mid_35 m self)))
  /\ (forall fuel c self m prev35 prev100,
        list.last (ema_mid_35 self) = Some prev35 ->
        list.last (ema_mid_100 self) = Some prev100 ->
        mid fuel c self = Done m ->
        updates fuel c self
        = (Done tt,
           append_ema_mid_100
             (prev100 * (1 - Q2Qc (2 # 101)) + Q2Qc (2 # 101) * m)
             (append_ema_mid_35
                (prev35 * (1 - Q2Qc (2 # 36)) + Q2Qc (2 # 36) * m) self)))
  /\ (forall fuel p ticks mids,
        Forall2 (fun c m => mid fuel c (init p) = Done m) ticks mids ->
        let self := run_ticks fuel ticks (init p) in
        length (ema_mid_35 self) = length mids
        /\ length (ema_mid_100 self) = length mids
        /\ forall t, (t < length mids)%nat ->
             ema_mid_35 self !! t = Some (ema (Q2Qc (2 # 36)) mids t)
             /\ ema_mid_100 self !! t = Some (ema (Q2Qc (2 # 101)) mids t))
  /\ (forall fuel p ticks,
        Forall2 (fun c m => mid fuel c (init p) = Done m) ticks
          [Qc_of_Z 10; Qc_of_Z 12; Qc_of_Z 11] ->
        let self := run_ticks fuel ticks (init p) in
        ema_mid_35 self !! 0%nat = Some (Qc_of_Z 10)
        /\ ema_mid_35 self !! 1%nat
           = Some (Qc_of_Z 10 * Q2Qc (34 # 36) + Qc_of_Z 12 * Q2Qc (2 # 36))).
Proof.
  assert (n35 = Q2Qc (2 # 36)) as E35 by (apply Qc_is_canon; reflexivity).
  assert (n100 = Q2Qc (2 # 101)) as E100 by (apply Qc_is_canon; reflexivity).
  split; [done|]. rewrite <- E35, <- E100.
  split; [exact updates_first|]. split; [exact updates_next|]. split.
  - intros fuel p ticks mids H self. subst self.
    rewrite (run_ticks_series fuel p ticks mids H). simpl.
    rewrite !ema_series_length. repeat split; try done.
    + by apply ema_series_lookup.
    + by apply ema_series_lookup.
  - intros fuel p ticks H self. subst self.
    rewrite (run_ticks_series fuel p ticks _ H). simpl.
    split; [done|]. f_equal; try (apply Qc_is_canon; reflexivity).
Qed.

Lemma squid_ticks_mids :
  Forall2 (fun c m => mid 2 c (init "SQUID_INK") = Done m) squid_ticks
    [Qc_of_Z 10; Qc_of_Z 12; Qc_of_Z 11].
Proof.
  repeat constructor; vm_compute mid; f_equal; apply Qc_is_canon; reflexivity.
Defined.

Lemma updates_ema_series_witness :
  ema_mid_35 (run_ticks 2 squid_ticks (init "SQUID_INK")) !! 0%nat
  = Some (Qc_of_Z 10)
  /\ ema_mid_35 (run_ticks 2 squid_ticks (init "SQUID_INK")) !! 1%nat
     = Some (Qc_of_Z 10 * Q2Qc (34 # 36) + Qc_of_Z 12 * Q2Qc (2 # 36)).
Proof.
  apply (proj2 (proj2 (proj2 (proj2 updates_ema_series)))
           2%nat "SQUID_INK"%string squid_ticks squid_ticks_mids).
Defined.

End EmaSeries.

(** ** Settlement *)

Module SettlementFacts.
Import backtest Spec Passes Examples MarketFacts.

(** *** The first pass *)

Lemma symbol_step_listed fs a item :
  listed fs item.1 ->
  symbol_step fs (Done a) item = Done (foldl flat_step a (item_orders item)).
Proof.
  intros (l & Hl & Hp). unfold symbol_step, getitem, item_orders. simpl.
  rewrite Hl. simpl. rewrite Hp. f_equal.
  generalize a. induction (item.2) as [|o os IH]; intros a'; [done|].
  simpl. by rewrite IH.
Qed.

Lemma symbol_steps_listed fs a items :
  Forall (fun item => listed fs item.1) items ->
  foldl (symbol_step fs) (Done a) items
  = Done (foldl flat_step a (concat (item_orders <$> items))).
Proof.
  intros H. revert a. induction H as [|item items Hi H IH]; intros a; [done|].
  cbn [foldl]. rewrite symbol_step_listed by done. rewrite IH.
  by rewrite fmap_cons, concat_cons, foldl_app.
Qed.

Lemma tick_step_listed fs a d :
  (forall s, is_Some (d !! s) -> listed fs s) ->
  tick_step fs (Done a) d = Done (foldl flat_step a (tick_orders d)).
Proof.
  intros H. unfold tick_step, tick_orders. apply symbol_steps_listed.
  apply Forall_forall. intros [s os] Hin.
  apply list_elem_of_In, elem_of_map_to_list in Hin. apply H. by exists os.
Qed.

Lemma first_pass_listed fs a ledger :
  ledger_listed ledger fs ->
  foldl (tick_step fs) (Done a) ledger
  = Done (foldl flat_step a (ledger_orders ledger)).
Proof.
  revert a. induction ledger as [|d ledger IH]; intros a H; [done|].
  cbn [foldl]. rewrite tick_step_listed.
  - rewrite IH.
    + unfold ledger_orders. by rewrite fmap_cons, concat_cons, foldl_app.
    + intros d' s Hd. apply H. by right.
  - intros s. apply H. by left.
Qed.

Lemma sum_Qc_cons x xs : sum_Qc (x :: xs) = (x + sum_Qc xs)%Qc.
Proof. reflexivity. Qed.

Lemma cash_flow_cons so os :
  cash_flow (so :: os)
  = (cash_flow os - Qc_of_Z (price so.2 * quantity so.2))%Qc.
Proof.
  unfold cash_flow. rewrite fmap_cons, sum_Qc_cons, Z2Qc_inj_mul. ring.
Qed.

Lemma flat_step_eq cash inv so :
  flat_step (cash, inv) so
  = ((cash - Qc_of_Z (price so.2 * quantity so.2))%Qc,
     <[so.1 := default 0 (inv !! so.1) + quantity so.2]> inv).
Proof. reflexivity. Qed.

Lemma first_pass_cash os cash inv :
  (foldl flat_step (cash, inv) os).1 = (cash + cash_flow os)%Qc.
Proof.
  revert cash inv. induction os as [|so os IH]; intros cash inv.
  - unfold cash_flow. simpl. ring.
  - cbn [foldl]. rewrite flat_step_eq, IH, cash_flow_cons. ring.
Qed.

Lemma inventory_cons_eq s o os :
  inventory ((s, o) :: os) s = quantity o + inventory os s.
Proof.
  unfold inventory. rewrite filter_cons_True by done. reflexivity.
Qed.

Lemma inventory_cons_ne s s' o os :
  s' <> s -> inventory ((s', o) :: os) s = inventory os s.
Proof. intros H. unfold inventory. by rewrite filter_cons_False. Qed.

Lemma inventory_not_traded os s : s ∉ os.*1 -> inventory os s = 0.
Proof.
  induction os as [|[s' o] os IH]; intros H; [done|].
  rewrite fmap_cons, not_elem_of_cons in H. destruct H as [Hne Hnin].
  rewrite inventory_cons_ne by done. by apply IH.
Qed.

Lemma first_pass_inventory os cash inv s :
  (foldl flat_step (cash, inv) os).2 !! s
  = if decide (s ∈ os.*1)
    then Some (default 0 (inv !! s) + inventory os s)
    else inv !! s.
Proof.
  revert cash inv. induction os as [|[s' o] os IH]; intros cash inv.
  - simpl. destruct (decide (s ∈ [])) as [H|_]; [|done].
    by apply elem_of_nil in H.
  - cbn [foldl]. rewrite flat_step_eq, IH, fmap_cons. cbn [fst snd].
    destruct (decide (s' = s)) as [->|Hne].
    + rewrite lookup_insert_eq, inventory_cons_eq. simpl.
      destruct (decide (s ∈ s :: os.*1)) as [_|Hn]; [|by destruct Hn; left].
      destruct (decide (s ∈ os.*1)) as [Hin|Hnin].
      * f_equal. lia.
      * rewrite (inventory_not_traded os s Hnin). f_equal. lia.
    + rewrite lookup_insert_ne, inventory_cons_ne by done.
      destruct (decide (s ∈ os.*1)) as [Hin|Hnin];
        destruct (decide (s ∈ s' :: os.*1)) as [Hin'|Hnin']; try done.
      * destruct Hnin'. by right.
      * apply elem_of_cons in Hin' as [->|Hin']; done.
Qed.

(** *** The valuation pass *)

Lemma mid_price_reference fs s od :
  order_depths fs !! s = Some od ->
  exists r, mid_price od = Done r /\ reference_price fs s r.
Proof.
  intros Hod. unfold mid_price, truthy.
  destruct (decide (buy_orders od = ∅)) as [Hb|Hb];
    destruct (decide (sell_orders od = ∅)) as [Ha|Ha].
  - rewrite (proj2 (len_zero _) Hb), (proj2 (len_zero _) Ha). simpl.
    eexists. split; [done|]. by eapply reference_empty.
  - rewrite (proj2 (len_zero _) Hb), (proj2 (len_pos _) Ha). simpl.
    destruct (py_min_keys _ Ha) as (a & -> & Hmin). simpl.
    eexists. split; [done|]. by eapply reference_ask.
  - rewrite (proj2 (len_pos _) Hb), (proj2 (len_zero _) Ha).
    destruct (py_max_keys _ Hb) as (b & -> & Hmax). simpl.
    eexists. split; [done|]. by eapply reference_bid.
  - rewrite (proj2 (len_pos _) Hb), (proj2 (len_pos _) Ha).
    destruct (py_max_keys _ Hb) as (b & -> & Hmax).
    destruct (py_min_keys _ Ha) as (a & -> & Hmin). simpl.
    eexists. split; [done|]. rewrite Z2Qc_inj_add. by eapply reference_mid.
Qed.

Lemma price_used_reference fs s : reference_price fs s (price_used fs s).
Proof.
  unfold price_used. destruct (order_depths fs !! s) as [od|] eqn:Hod.
  - by destruct (mid_price_reference fs s od Hod) as (r & -> & Hr).
  - by apply reference_absent.
Qed.

Lemma no_max_price_empty b : ~ is_max_price b ∅.
Proof. intros [[v Hv] _]. by rewrite lookup_empty in Hv. Qed.

Lemma no_min_price_empty a : ~ is_min_price a ∅.
Proof. intros [[v Hv] _]. by rewrite lookup_empty in Hv. Qed.

(** A symbol has one reference price. *)
Lemma reference_price_unique fs s r r' :
  reference_price fs s r -> reference_price fs s r' -> r = r'.
Proof.
  intros H H'.
  destruct H as [od b a Hod Hb Ha|od a Hod Hb Ha|od b Hod Hb Ha|od Hod Hb Ha|Hod];
    destruct H' as [od' b' a' Hod' Hb' Ha'|od' a' Hod' Hb' Ha'
                   |od' b' Hod' Hb' Ha'|od' Hod' Hb' Ha'|Hod'];
    try congruence;
    assert (od' = od) as -> by congruence;
    try (rewrite Hb in Hb'; by apply no_max_price_empty in Hb');
    try (rewrite Hb' in Hb; by apply no_max_price_empty in Hb);
    try (rewrite Ha in Ha'; by apply no_min_price_empty in Ha');
    try (rewrite Ha' in Ha; by apply no_min_price_empty in Ha);
    try done.
  - by rewrite (is_max_price_unique _ _ _ Hb Hb'),
               (is_min_price_unique _ _ _ Ha Ha').
  - by rewrite (is_min_price_unique _ _ _ Ha Ha').
  - by rewrite (is_max_price_unique _ _ _ Hb Hb').
Qed.

Lemma value_step_eq fs cash item :
  value_step fs (Done cash) item = Done (cash + inventory_value fs item)%Qc.
Proof.
  destruct item as [s v]. unfold value_step, inventory_value, price_used. simpl.
  destruct (Z.eqb_spec v 0) as [->|Hv].
  - simpl. f_equal. ring.
  - destruct (decide (v = 0)) as [?|_]; [done|].
    destruct (order_depths fs !! s) as [od|] eqn:Hod.
    + by destruct (mid_price_reference fs s od Hod) as (r & -> & Hr).
    + f_equal. ring.
Qed.

Lemma second_pass fs cash items :
  foldl (value_step fs) (Done cash) items
  = Done (cash + sum_Qc (inventory_value fs <$> items))%Qc.
Proof.
  revert cash. induction items as [|item items IH]; intros cash.
  - simpl. f_equal. unfold sum_Qc. simpl. ring.
  - cbn [foldl]. rewrite value_step_eq, IH, fmap_cons, sum_Qc_cons.
    f_equal. ring.
Qed.

Lemma sum_Qc_Permutation xs ys : xs ≡ₚ ys -> sum_Qc xs = sum_Qc ys.
Proof.
  induction 1 as [|x xs ys _ IH|x y xs|xs ys zs _ IH1 _ IH2].
  - done.
  - by rewrite !sum_Qc_cons, IH.
  - rewrite !sum_Qc_cons. ring.
  - congruence.
Qed.

Lemma sum_Qc_filter {A : Type} (P : A -> Prop) `{forall x, Decision (P x)}
    (f : A -> Qc) (xs : list A) :
  sum_Qc (f <$> filter P xs)
  = sum_Qc ((fun x => if decide (P x) then f x else 0%Qc) <$> xs).
Proof.
  induction xs as [|x xs IH]; [done|].
  rewrite fmap_cons, sum_Qc_cons. destruct (decide (P x)) as [HP|HP].
  - by rewrite filter_cons_True, fmap_cons, sum_Qc_cons, IH.
  - rewrite filter_cons_False, IH by done. ring.
Qed.

(** The inventory the first pass leaves: one entry per traded symbol. *)
Lemma first_pass_items os :
  map_to_list (foldl flat_step (0%Qc, ∅) os).2
  ≡ₚ (fun s => (s, inventory os s)) <$> elements (traded os).
Proof.
  apply NoDup_Permutation.
  - apply NoDup_map_to_list.
  - apply NoDup_fmap_2; [|apply NoDup_elements].
    intros s1 s2 Heq. by injection Heq.
  - intros [s v]. rewrite elem_of_map_to_list, first_pass_inventory. split.
    + destruct (decide (s ∈ os.*1)) as [Hin|Hnin]; [|by rewrite lookup_empty].
      intros Hv. apply list_elem_of_fmap. exists s. split.
      * rewrite lookup_empty in Hv. simpl in Hv. f_equal. injection Hv. lia.
      * unfold traded. by rewrite elem_of_elements, elem_of_list_to_set.
    + intros Hfm. apply list_elem_of_fmap in Hfm as (s' & Heq & Hin).
      injection Heq as -> ->.
      unfold traded in Hin. rewrite elem_of_elements, elem_of_list_to_set in Hin.
      destruct (decide (s' ∈ os.*1)) as [_|Hnin]; [|done].
      rewrite lookup_empty. simpl. f_equal; lia.
Qed.

(** Settlement of a listed ledger, as the specification writes it. *)
Lemma calculate_pnl_listed ledger fs :
  ledger_listed ledger fs ->
  calculate_pnl ledger (Some fs)
  = Done (cash_flow (ledger_orders ledger)
          + sum_Qc ((fun s => Qc_of_Z (inventory (ledger_orders ledger) s)
                              * price_used fs s)
                      <$> held (ledger_orders ledger)))%Qc.
Proof.
  intros Hl. unfold calculate_pnl. rewrite first_pass_listed by done. simpl.
  destruct (foldl flat_step (0%Qc, ∅) (ledger_orders ledger)) as [cash inv] eqn:E.
  pose proof (first_pass_cash (ledger_orders ledger) 0%Qc ∅) as Hcash.
  pose proof (first_pass_items (ledger_orders ledger)) as Hitems.
  rewrite E in Hcash, Hitems. simpl in Hcash, Hitems.
  rewrite second_pass. f_equal. rewrite Hcash. f_equal; [ring|].
  rewrite (sum_Qc_Permutation _ _ (fmap_Permutation (inventory_value fs) _ _ Hitems)).
  rewrite <- list_fmap_compose. unfold held. rewrite sum_Qc_filter.
  f_equal. apply list_fmap_ext. intros _ s _. unfold inventory_value. simpl.
  destruct (decide (inventory (ledger_orders ledger) s = 0)) as [H0|H0];
    destruct (decide (inventory (ledger_orders ledger) s <> 0)); done.
Qed.

End SettlementFacts.

Module Settlement.
Import backtest Spec Passes Examples MarketFacts SettlementFacts.

Lemma ledger_one_tick_orders :
  ledger_orders ledger_one_tick = [("X"%string, buy_X); ("X"%string, sell_X)].
Proof.
  unfold ledger_orders, ledger_one_tick, tick_orders. simpl.
  by rewrite map_to_list_singleton.
Qed.

Lemma ledger_two_ticks_orders :
  ledger_orders ledger_two_ticks = [("X"%string, buy_X); ("X"%string, sell_X)].
Proof.
  unfold ledger_orders, ledger_two_ticks, tick_orders. simpl.
  by rewrite !map_to_list_singleton.
Qed.

Lemma ledger_X_listed fs ledger :
  listed fs "X" ->
  Forall (fun d => exists os, d = {["X"%string := os]}) ledger ->
  ledger_listed ledger fs.
Proof.
  intros HX Hall d s Hd [os Hs].
  apply list_elem_of_In in Hd.
  rewrite Forall_forall in Hall. destruct (Hall d Hd) as [os' ->].
  by apply lookup_singleton_Some in Hs as [<- _].
Qed.

Lemma example_settles fs ledger :
  ledger_listed ledger fs ->
  ledger_orders ledger = [("X"%string, buy_X); ("X"%string, sell_X)] ->
  calculate_pnl ledger (Some fs) = Done (Qc_of_Z 25).
Proof.
  intros Hl Hos. rewrite (calculate_pnl_listed ledger fs Hl), Hos.
  f_equal. apply Qc_is_canon. vm_compute. reflexivity.
Qed.

(** C2: for a ledger whose symbols the final state lists, each as its
    own product, settlement returns [-sum(price * quantity)] over every
    order, plus, for each symbol left with a net inventory, that
    inventory times the symbol's reference price in the final state:
    the mid price of its book, the best price of the only side with
    levels, or 0 without levels. For the ledger
    [(X,100,+5), (X,105,-5)] the result is 25. *)
Theorem calculate_pnl_settlement :
  (forall ledger fs,
     ledger_listed ledger fs ->
     (forall s, exists r, reference_price fs s r)
     /\ forall ref : string -> Qc,
          (forall s, reference_price fs s (ref s)) ->
          calculate_pnl ledger (Some fs)
          = Done (cash_flow (ledger_orders ledger)
                  + sum_Qc ((fun s => Qc_of_Z (inventory (ledger_orders ledger) s)
                                      * ref s)
                              <$> held (ledger_orders ledger)))%Qc)
  /\ (forall fs,
        listed fs "X" ->
        calculate_pnl ledger_one_tick (Some fs) = Done (Qc_of_Z 25)
        /\ calculate_pnl ledger_two_ticks (Some fs) = Done (Qc_of_Z 25)).
Proof.
  split.
  - intros ledger fs Hl. split.
    + intros s. exists (price_used fs s). apply price_used_reference.
    + intros ref Href. rewrite (calculate_pnl_listed ledger fs Hl).
      do 3 f_equal. apply list_fmap_ext. intros _ s _. f_equal.
      apply (reference_price_unique fs s); [apply price_used_reference|done].
  - intros fs HX. split.
    + apply example_settles; [|exact ledger_one_tick_orders].
      apply ledger_X_listed; [done|]. repeat constructor; by eexists.
    + apply example_settles; [|exact ledger_two_ticks_orders].
      apply ledger_X_listed; [done|]. repeat constructor; by eexists.
Qed.

Lemma listed_final_X : listed final_X "X".
Proof. eexists. split; reflexivity. Defined.

Lemma ledger_one_tick_listed : ledger_listed ledger_one_tick final_X.
Proof.
  intros d s Hd [os Hs]. apply list_elem_of_singleton in Hd. subst d.
  apply lookup_singleton_Some in Hs as [<- _]. exact listed_final_X.
Defined.

Lemma calculate_pnl_settlement_witness :
  calculate_pnl ledger_one_tick (Some final_X)
  = Done (cash_flow (ledger_orders ledger_one_tick)
          + sum_Qc ((fun s =>
                       Qc_of_Z (inventory (ledger_orders ledger_one_tick) s)
                       * price_used final_X s)
                      <$> held (ledger_orders ledger_one_tick)))%Qc
  /\ calculate_pnl ledger_one_tick (Some final_X) = Done (Qc_of_Z 25).
Proof.
  split.
  - exact (proj2 (proj1 calculate_pnl_settlement ledger_one_tick final_X
                    ledger_one_tick_listed)
             (price_used final_X) (price_used_reference final_X)).
  - exact (proj1 (proj2 calculate_pnl_settlement final_X listed_final_X)).
Defined.

(** On a ledger without ticks, or of ticks that filed nothing,
    settlement returns 0, whatever the final state. *)
Lemma calculate_pnl_empty_ticks (n : nat) (final_state : option TradingState) :
  calculate_pnl (replicate n ∅) final_state = Done 0%Qc.
Proof.
  destruct final_state as [fs|]; [|done]. unfold calculate_pnl.
  assert (foldl (tick_step fs) (Done (0%Qc, ∅)) (replicate n ∅)
          = Done (0%Qc, ∅)) as ->.
  { induction n as [|n IH]; [done|]. simpl. unfold tick_step at 2.
    by rewrite map_to_list_empty. }
  simpl. by rewrite map_to_list_empty.
Qed.

(** A symbol filed without orders: the listing is looked up, and
    nothing is accumulated. *)
Lemma symbol_steps_idle fs a items :
  Forall (fun item : string * list Order =>
            is_Some (listings fs !! item.1) /\ item.2 = []) items ->
  foldl (symbol_step fs) (Done a) items = Done a.
Proof.
  induction 1 as [|[s os] items [[l Hl] Hos] _ IH]; [done|].
  cbn [foldl]. simpl in Hl, Hos. subst os.
  unfold symbol_step at 2. unfold getitem. cbn [bind fst snd].
  rewrite Hl. cbn [bind foldl]. exact IH.
Qed.

Lemma tick_orders_nil d s os :
  tick_orders d = [] -> d !! s = Some os -> os = [].
Proof.
  unfold tick_orders. intros Hnil Hs.
  apply concat_nil_Forall in Hnil. rewrite Forall_forall in Hnil.
  specialize (Hnil (item_orders (s, os))).
  unfold item_orders in Hnil. simpl in Hnil.
  eapply fmap_nil_inv, Hnil. apply list_elem_of_In.
  apply (list_elem_of_fmap_2 item_orders _ (s, os)).
  by apply elem_of_map_to_list.
Qed.

Lemma first_pass_idle fs a ledger :
  ledger_orders ledger = [] ->
  (forall d s, d ∈ ledger -> is_Some (d !! s) -> is_Some (listings fs !! s)) ->
  foldl (tick_step fs) (Done a) ledger = Done a.
Proof.
  induction ledger as [|d ledger IH]; intros Hnil Hlisted; [done|].
  unfold ledger_orders in Hnil. rewrite fmap_cons, concat_cons in Hnil.
  apply app_nil in Hnil as [Hd Hrest].
  cbn [foldl]. unfold tick_step at 2. rewrite symbol_steps_idle.
  - apply IH; [exact Hrest|]. intros d' s Hd'. apply Hlisted. by right.
  - apply Forall_forall. intros [s os] Hin.
    apply list_elem_of_In, elem_of_map_to_list in Hin. split; simpl.
    + apply (Hlisted d); [by left|by exists os].
    + by apply (tick_orders_nil d s).
Qed.

(** C8, as amended: on a ledger that holds no order, settlement
    returns 0 whatever the books of the final state, provided every
    symbol that a tick of the ledger files, with an empty list of
    orders, has a listing in the final state; so it does on a ledger
    without ticks or of ticks that filed nothing, and on any ledger
    when there is no final state. *)
Theorem calculate_pnl_no_orders :
  (forall ledger fs,
     ledger_orders ledger = [] ->
     (forall d s, d ∈ ledger -> is_Some (d !! s) -> is_Some (listings fs !! s)) ->
     calculate_pnl ledger (Some fs) = Done 0%Qc)
  /\ (forall ledger, calculate_pnl ledger None = Done 0%Qc)
  /\ (forall final_state : option TradingState,
        calculate_pnl [] final_state = Done 0%Qc)
  /\ (forall (n : nat) (final_state : option TradingState),
        calculate_pnl (replicate n ∅) final_state = Done 0%Qc).
Proof.
  split; [|split; [done|split]].
  - intros ledger fs Hnil Hlisted. unfold calculate_pnl.
    rewrite (first_pass_idle fs _ ledger Hnil Hlisted).
    cbn [bind]. by rewrite map_to_list_empty.
  - intros final_state. exact (calculate_pnl_empty_ticks 0 final_state).
  - exact calculate_pnl_empty_ticks.
Qed.

(** The idle ledger settles to 0 on a final state that lists its
    symbol. *)
Lemma calculate_pnl_no_orders_witness :
  calculate_pnl ledger_idle (Some final_squid) = Done 0%Qc.
Proof.
  apply (proj1 calculate_pnl_no_orders ledger_idle final_squid).
  - unfold ledger_orders, ledger_idle, tick_orders. simpl.
    by rewrite map_to_list_singleton.
  - intros d s Hd [os Hs]. apply list_elem_of_singleton in Hd as ->.
    apply lookup_singleton_Some in Hs as [<- _]. by eexists.
Defined.

(** C8, as stated, fails: the idle ledger holds no order, and on a
    final state that does not list its symbol settlement raises
    [KeyError] where the claim has 0. *)
Lemma calculate_pnl_no_orders_unlisted :
  ledger_orders ledger_idle = []
  /\ calculate_pnl ledger_idle (Some final_X) = Raised KeyError
  /\ calculate_pnl ledger_idle (Some final_X) <> Done 0%Qc.
Proof.
  assert (calculate_pnl ledger_idle (Some final_X) = Raised KeyError) as H.
  { unfold calculate_pnl, ledger_idle. cbn [foldl]. unfold tick_step.
    by rewrite map_to_list_singleton. }
  split; [|split; [exact H|by rewrite H]].
  unfold ledger_orders, ledger_idle, tick_orders. simpl.
  by rewrite map_to_list_singleton.
Qed.

End Settlement.

(** * Further properties

    The logger's truncation, the position tracker, the queries and
    updates of the book, the recording of ticks, the strategies and
    the outcome of settlement. *)

(** ** Truncation *)

Module TruncateFacts.
Import SliceFacts LoggerFacts.

Lemma string_of_list_ascii_app (l1 l2 : list ascii) :
  string_of_list_ascii (l1 ++ l2)
  = (string_of_list_ascii l1 ++ string_of_list_ascii l2)%string.
Proof. induction l1 as [|a l1 IH]; simpl; [done|]. by rewrite IH. Qed.

Lemma str_upto_prefix (k : Z) (s : string) :
  exists rest, s = (Slice.str_upto k s ++ rest)%string.
Proof.
  unfold Slice.str_upto, Slice.upto.
  exists (string_of_list_ascii
            (drop (Slice.clip (length (list_ascii_of_string s)) k)
                  (list_ascii_of_string s))).
  by rewrite <- string_of_list_ascii_app, take_drop,
       string_of_list_ascii_of_string.
Qed.

(** X1: [Logger.truncate] returns its argument, or a prefix of it
    followed by the marker [...]: whatever the budget, it never alters
    the characters it keeps. *)
Theorem truncate_keeps_head (value : string) (max_length : Z) :
  Logger.truncate value max_length = value
  \/ exists head rest,
       value = (head ++ rest)%string
       /\ Logger.truncate value max_length = (head ++ "...")%string.
Proof.
  unfold Logger.truncate.
  destruct (Z.leb_spec (Z.of_nat (String.length value)) max_length); [by left|].
  right. destruct (str_upto_prefix (max_length - 3) value) as [rest Hrest].
  by exists (Slice.str_upto (max_length - 3) value), rest.
Qed.

(** X2: with a budget of at least 3, the result of [Logger.truncate]
    has the length of the value or the budget, whichever is less, and
    truncating it again with the same budget changes nothing. *)
Theorem truncate_within_budget (value : string) (max_length : Z) :
  3 <= max_length ->
  Z.of_nat (String.length (Logger.truncate value max_length))
  = Z.min (Z.of_nat (String.length value)) max_length
  /\ Logger.truncate (Logger.truncate value max_length) max_length
     = Logger.truncate value max_length.
Proof.
  intros H3.
  destruct (Z.le_gt_cases (Z.of_nat (String.length value)) max_length) as [Hle|Hgt].
  - rewrite !(truncate_fits value max_length Hle). split; [lia|done].
  - destruct (truncate_head value max_length) as [Heq Hlen]; [lia|].
    split; [lia|]. apply truncate_fits. lia.
Qed.

Lemma truncate_within_budget_witness :
  Z.of_nat (String.length (Logger.truncate "0123456789" 7)) = 7
  /\ Logger.truncate (Logger.truncate "0123456789" 7) 7
     = Logger.truncate "0123456789" 7.
Proof. apply (truncate_within_budget "0123456789" 7). lia. Defined.

End TruncateFacts.

(** ** The position tracker *)

Module PositionFacts.
Import Status Spec Examples TrackerFacts.

(** X3: a position that [rt_position_update] commits is what
    [rt_position] then returns to every instance of that product; the
    instances of the other products read what they read before, and
    the state, the history tables, the count of ticks and the reported
    position stay. *)
Theorem rt_position_update_read_back c self self' new_position limit :
  _position_limit !! product self = Some limit ->
  Z.abs new_position <= limit ->
  let c' := (rt_position_update c self new_position).2 in
  (product self' = product self -> rt_position c' self' = Done new_position)
  /\ (product self' <> product self -> rt_position c' self' = rt_position c self')
  /\ _state c' = _state c
  /\ _hist_order_depths c' = _hist_order_depths c
  /\ _num_data c' = _num_data c
  /\ position c' self' = position c self'.
Proof.
  intros Hlim Hle c'. subst c'.
  rewrite (rt_position_update_commit c self new_position limit Hlim Hle).
  cbn [snd]. repeat split.
  - intros Hp. unfold rt_position, getitem. cbn [_realtime_position set_realtime_position].
    by rewrite Hp, lookup_insert_eq.
  - intros Hp. unfold rt_position, getitem. cbn [_realtime_position set_realtime_position].
    by rewrite lookup_insert_ne.
Qed.

(** X4: with the realtime position and the reported position within
    the limit, [possible_buy_amt] and [possible_sell_amt] are not
    negative, and [rt_position_update] accepts every buy of at most
    the first and every sell of at most the second. *)
Theorem room_is_enough c self st limit optimistic :
  _state c = Some st ->
  _position_limit !! product self = Some limit ->
  _realtime_position c !! product self = Some optimistic ->
  Z.abs optimistic <= limit ->
  Z.abs (default 0 (datamodel.position st !! product self)) <= limit ->
  exists buy sell,
    possible_buy_amt c self = Done buy
    /\ possible_sell_amt c self = Done sell
    /\ 0 <= buy /\ 0 <= sell
    /\ (forall q, 0 <= q <= buy ->
          (rt_position_update c self (optimistic + q)).1 = Done tt)
    /\ (forall q, 0 <= q <= sell ->
          (rt_position_update c self (optimistic - q)).1 = Done tt).
Proof.
  intros Hst Hlim Hrt Hopt Hpos.
  rewrite (possible_buy_amt_eq c self st limit optimistic Hst Hlim Hrt).
  rewrite (possible_sell_amt_eq c self st limit optimistic Hst Hlim Hrt).
  eexists _, _. split; [done|]. split; [done|].
  repeat split; try lia.
  - intros q Hq. rewrite (rt_position_update_commit _ _ _ limit Hlim); [done|lia].
  - intros q Hq. rewrite (rt_position_update_commit _ _ _ limit Hlim); [done|lia].
Qed.

Lemma room_is_enough_witness :
  exists buy sell,
    possible_buy_amt tracker_kelp (init "KELP") = Done buy
    /\ possible_sell_amt tracker_kelp (init "KELP") = Done sell
    /\ 0 <= buy /\ 0 <= sell
    /\ (forall q, 0 <= q <= buy ->
          (rt_position_update tracker_kelp (init "KELP") (30 + q)).1 = Done tt)
    /\ (forall q, 0 <= q <= sell ->
          (rt_position_update tracker_kelp (init "KELP") (30 - q)).1 = Done tt).
Proof.
  apply (room_is_enough tracker_kelp (init "KELP") feed_kelp 50 30
           eq_refl eq_refl eq_refl); by vm_compute.
Defined.

Lemma rt_position_update_read_back_witness :
  rt_position (rt_position_update initial (init "KELP") 12).2 (init "KELP")
  = Done 12
  /\ rt_position (rt_position_update initial (init "KELP") 12).2 (init "JAMS")
     = rt_position initial (init "JAMS").
Proof.
  pose proof (rt_position_update_read_back initial (init "KELP") (init "KELP") 12 50
                eq_refl ltac:(simpl; lia)) as (H1 & _).
  pose proof (rt_position_update_read_back initial (init "KELP") (init "JAMS") 12 50
                eq_refl ltac:(simpl; lia)) as (_ & H2 & _).
  split; [by apply H1 | by apply H2].
Defined.

End PositionFacts.

(** ** Amounts, worst prices and the spread *)

Module BookFacts.
Import Status Spec BookSpec Examples MarketFacts.

Lemma Qc_div_bounds (lo hi a b : Z) :
  0 < b -> lo * b <= a -> a <= hi * b ->
  (Qc_of_Z lo <= Qc_of_Z a / Qc_of_Z b)%Qc
  /\ (Qc_of_Z a / Qc_of_Z b <= Qc_of_Z hi)%Qc.
Proof.
  intros Hb Hlo Hhi.
  assert (Q2Qc 0 < Qc_of_Z b)%Qc as Hb'.
  { rewrite <- Z2Qc_inj_0. apply (proj1 (Z2Qc_inj_lt 0 b)). exact Hb. }
  assert (Qc_of_Z b <> 0%Qc) as Hb0.
  { intros E. rewrite <- Z2Qc_inj_0 in E. apply Z2Qc_inj in E. lia. }
  assert ((Qc_of_Z a / Qc_of_Z b) * Qc_of_Z b = Qc_of_Z a)%Qc as E
    by (field; done).
  split.
  - apply (Qcmult_le_mono_pos_r _ _ (Qc_of_Z b) Hb').
    rewrite E, <- Z2Qc_inj_mul. exact (proj1 (Z2Qc_inj_le _ _) Hlo).
  - apply (Qcmult_le_mono_pos_r _ _ (Qc_of_Z b) Hb').
    rewrite E, <- Z2Qc_inj_mul. exact (proj1 (Z2Qc_inj_le _ _) Hhi).
Qed.

Lemma py_sum_sum_Z (xs : list Z) : py_sum xs = sum_Z xs.
Proof.
  unfold py_sum, sum_Z.
  assert (forall a, foldl Z.add a xs = a + foldr Z.add 0 xs) as H.
  { induction xs as [|x xs IH]; intros a; simpl; [lia|]. rewrite IH. lia. }
  by rewrite H.
Qed.

Section book.
Context (c : cls) (self : t) (st : TradingState) (od : OrderDepth).
Hypothesis Hstate : _state c = Some st.
Hypothesis Hbook : order_depths st !! product self = Some od.

Lemma best_bid_amount_some :
  buy_orders od <> ∅ ->
  exists b amt,
    is_max_price b (buy_orders od)
    /\ buy_orders od !! b = Some amt
    /\ best_bid_amount c self = Done amt.
Proof.
  intros Hne. unfold best_bid_amount.
  rewrite (order_depth_eq c self st od Hstate Hbook). simpl.
  destruct (py_max_keys _ Hne) as (b & -> & Hmax). simpl.
  destruct Hmax as [[amt Hamt] Hub]. exists b, amt.
  split; [by split; [exists amt|]|]. split; [done|].
  unfold getitem. by rewrite Hamt.
Qed.

Lemma best_ask_amount_some :
  sell_orders od <> ∅ ->
  exists a amt,
    is_min_price a (sell_orders od)
    /\ sell_orders od !! a = Some amt
    /\ best_ask_amount c self = Done (- amt).
Proof.
  intros Hne. unfold best_ask_amount.
  rewrite (order_depth_eq c self st od Hstate Hbook). simpl.
  destruct (py_min_keys _ Hne) as (a & -> & Hmin). simpl.
  destruct Hmin as [[amt Hamt] Hlb]. exists a, amt.
  split; [by split; [exists amt|]|]. split; [done|].
  unfold getitem. by rewrite Hamt.
Qed.

Lemma keys_empty : keys (∅ : gmap Z Z) = [].
Proof. unfold keys. by rewrite map_to_list_empty. Qed.

Lemma best_bid_amount_empty :
  buy_orders od = ∅ ->
  best_bid_amount c self = Raised (ValueError "max() arg is an empty sequence").
Proof.
  intros He. unfold best_bid_amount.
  rewrite (order_depth_eq c self st od Hstate Hbook). simpl.
  by rewrite He, keys_empty.
Qed.

Lemma best_ask_amount_empty :
  sell_orders od = ∅ ->
  best_ask_amount c self = Raised (ValueError "min() arg is an empty sequence").
Proof.
  intros He. unfold best_ask_amount.
  rewrite (order_depth_eq c self st od Hstate Hbook). simpl.
  by rewrite He, keys_empty.
Qed.

Lemma worst_bid_some fuel :
  buy_orders od <> ∅ ->
  exists w, worst_bid fuel c self = Done w /\ is_min_price w (buy_orders od).
Proof.
  intros Hne. unfold worst_bid.
  rewrite (order_depth_eq c self st od Hstate Hbook). simpl.
  rewrite (proj2 (len_pos _) Hne). by apply py_min_keys.
Qed.

Lemma worst_ask_some fuel :
  sell_orders od <> ∅ ->
  exists w, worst_ask fuel c self = Done w /\ is_max_price w (sell_orders od).
Proof.
  intros Hne. unfold worst_ask.
  rewrite (order_depth_eq c self st od Hstate Hbook). simpl.
  rewrite (proj2 (len_pos _) Hne). by apply py_max_keys.
Qed.

Lemma worst_bid_fallback fuel :
  buy_orders od = ∅ ->
  worst_bid fuel c self = (a <-- best_ask fuel c self;; Done (a - 1)).
Proof.
  intros He. unfold worst_bid.
  rewrite (order_depth_eq c self st od Hstate Hbook). simpl.
  by rewrite (proj2 (len_zero _) He).
Qed.

Lemma worst_ask_fallback fuel :
  sell_orders od = ∅ ->
  worst_ask fuel c self = (b <-- best_bid fuel c self;; Done (b + 1)).
Proof.
  intros He. unfold worst_ask.
  rewrite (order_depth_eq c self st od Hstate Hbook). simpl.
  by rewrite (proj2 (len_zero _) He).
Qed.

End book.

(** X5: on a side with levels, [best_bid_amount] is the amount the
    book holds at [best_bid], the one [bidamt] reads there, and
    [best_ask_amount] is the opposite of the amount the book holds at
    [best_ask], which [askamt] reads with its sign. On a side without
    levels, where [best_bid] and [best_ask] fall back on the other
    side, the two amounts raise [ValueError]. *)
Theorem best_amounts c self st od :
  _state c = Some st ->
  order_depths st !! product self = Some od ->
  (buy_orders od <> ∅ ->
   exists b amt,
     best_bid 1 c self = Done b
     /\ buy_orders od !! b = Some amt
     /\ best_bid_amount c self = Done amt
     /\ bidamt c self b = Done amt)
  /\ (sell_orders od <> ∅ ->
      exists a amt,
        best_ask 1 c self = Done a
        /\ sell_orders od !! a = Some amt
        /\ best_ask_amount c self = Done (- amt)
        /\ askamt c self a = Done amt)
  /\ (buy_orders od = ∅ -> exists msg, best_bid_amount c self = Raised (ValueError msg))
  /\ (sell_orders od = ∅ -> exists msg, best_ask_amount c self = Raised (ValueError msg)).
Proof.
  intros Hstate Hbook. repeat split.
  - intros Hne.
    destruct (best_bid_amount_some c self st od Hstate Hbook Hne)
      as (b & amt & Hmax & Hamt & Hba).
    destruct (best_bid_some c self st od Hstate Hbook 0 Hne) as (b' & Hb & Hmax').
    rewrite (is_max_price_unique _ _ _ Hmax' Hmax) in Hb.
    exists b, amt. split; [done|]. split; [done|]. split; [done|].
    unfold bidamt. rewrite (order_depth_eq c self st od Hstate Hbook). simpl.
    by rewrite Hamt.
  - intros Hne.
    destruct (best_ask_amount_some c self st od Hstate Hbook Hne)
      as (a & amt & Hmin & Hamt & Hba).
    destruct (best_ask_some c self st od Hstate Hbook 0 Hne) as (a' & Ha & Hmin').
    rewrite (is_min_price_unique _ _ _ Hmin' Hmin) in Ha.
    exists a, amt. split; [done|]. split; [done|]. split; [done|].
    unfold askamt. rewrite (order_depth_eq c self st od Hstate Hbook). simpl.
    by rewrite Hamt.
  - intros He. eexists. by apply (best_bid_amount_empty c self st od).
  - intros He. eexists. by apply (best_ask_amount_empty c self st od).
Qed.

Lemma best_amounts_witness :
  (exists b amt,
     best_bid 1 (tick_of "KELP" book_bids_only) (init "KELP") = Done b
     /\ buy_orders book_bids_only !! b = Some amt
     /\ best_bid_amount (tick_of "KELP" book_bids_only) (init "KELP") = Done amt
     /\ bidamt (tick_of "KELP" book_bids_only) (init "KELP") b = Done amt)
  /\ (exists msg,
        best_ask_amount (tick_of "KELP" book_bids_only) (init "KELP")
        = Raised (ValueError msg)).
Proof.
  pose proof (best_amounts (tick_of "KELP" book_bids_only) (init "KELP") _
                book_bids_only eq_refl eq_refl) as (Hb & _ & _ & Ha).
  split.
  - apply Hb. by vm_compute.
  - by apply Ha.
Defined.

(** X6: [worst_bid] is the smallest bid price, not above [best_bid],
    and [worst_ask] the largest ask price, not below [best_ask]; on a
    side without levels the worst price is the fallback that the best
    price of that side is: the best ask minus 1 for the bids, the best
    bid plus 1 for the asks. *)
Theorem worst_and_best c self st od fuel :
  _state c = Some st ->
  order_depths st !! product self = Some od ->
  (buy_orders od <> ∅ ->
   exists w b,
     worst_bid fuel c self = Done w /\ best_bid (S fuel) c self = Done b
     /\ is_min_price w (buy_orders od) /\ w <= b)
  /\ (sell_orders od <> ∅ ->
      exists a w,
        best_ask (S fuel) c self = Done a /\ worst_ask fuel c self = Done w
        /\ is_max_price w (sell_orders od) /\ a <= w)
  /\ (buy_orders od = ∅ -> sell_orders od <> ∅ ->
      exists a,
        best_ask (S fuel) c self = Done a
        /\ worst_bid (S fuel) c self = Done (a - 1)
        /\ best_bid (S (S fuel)) c self = Done (a - 1))
  /\ (sell_orders od = ∅ -> buy_orders od <> ∅ ->
      exists b,
        best_bid (S fuel) c self = Done b
        /\ worst_ask (S fuel) c self = Done (b + 1)
        /\ best_ask (S (S fuel)) c self = Done (b + 1)).
Proof.
  intros Hstate Hbook. repeat split.
  - intros Hne.
    destruct (worst_bid_some c self st od Hstate Hbook fuel Hne) as (w & Hw & Hmin).
    destruct (best_bid_some c self st od Hstate Hbook fuel Hne) as (b & Hb & Hmax).
    exists w, b. split; [done|]. split; [done|]. split; [done|].
    destruct Hmin as [Hin _]. destruct Hmax as [_ Hub]. by apply Hub.
  - intros Hne.
    destruct (worst_ask_some c self st od Hstate Hbook fuel Hne) as (w & Hw & Hmax).
    destruct (best_ask_some c self st od Hstate Hbook fuel Hne) as (a & Ha & Hmin).
    exists a, w. split; [done|]. split; [done|]. split; [done|].
    destruct Hmax as [Hin _]. destruct Hmin as [_ Hlb]. by apply Hlb.
  - intros He Hne.
    destruct (best_ask_some c self st od Hstate Hbook fuel Hne) as (a & Ha & Hmin).
    exists a. split; [done|].
    rewrite (worst_bid_fallback c self st od Hstate Hbook _ He).
    rewrite (best_bid_fallback c self st od Hstate Hbook _ He).
    by rewrite Ha.
  - intros He Hne.
    destruct (best_bid_some c self st od Hstate Hbook fuel Hne) as (b & Hb & Hmax).
    exists b. split; [done|].
    rewrite (worst_ask_fallback c self st od Hstate Hbook _ He).
    rewrite (best_ask_fallback c self st od Hstate Hbook _ He).
    by rewrite Hb.
Qed.

Lemma worst_and_best_witness :
  (exists w b,
     worst_bid 0 (tick_of "KELP" book_two_sided) (init "KELP") = Done w
     /\ best_bid 1 (tick_of "KELP" book_two_sided) (init "KELP") = Done b
     /\ is_min_price w (buy_orders book_two_sided) /\ w <= b)
  /\ (exists b,
        best_bid 1 (tick_of "KELP" book_bids_only) (init "KELP") = Done b
        /\ worst_ask 1 (tick_of "KELP" book_bids_only) (init "KELP") = Done (b + 1)
        /\ best_ask 2 (tick_of "KELP" book_bids_only) (init "KELP") = Done (b + 1)).
Proof.
  split.
  - apply (worst_and_best (tick_of "KELP" book_two_sided) (init "KELP") _
             book_two_sided 0 eq_refl eq_refl). by vm_compute.
  - apply (worst_and_best (tick_of "KELP" book_bids_only) (init "KELP") _
             book_bids_only 0 eq_refl eq_refl); [reflexivity | by vm_compute].
Defined.

(** X7: [spread] is the smallest ask price minus the largest bid price
    on a book with both sides, 1 on a book with one side only, and has
    no result on a book without levels, whatever the depth of calls
    allowed. *)
Theorem spread_of_book c self st od fuel :
  _state c = Some st ->
  order_depths st !! product self = Some od ->
  (buy_orders od <> ∅ -> sell_orders od <> ∅ ->
   exists b a,
     is_max_price b (buy_orders od) /\ is_min_price a (sell_orders od)
     /\ spread (S fuel) c self = Done (a - b))
  /\ (buy_orders od = ∅ -> sell_orders od <> ∅ ->
      spread (S (S fuel)) c self = Done 1)
  /\ (buy_orders od <> ∅ -> sell_orders od = ∅ ->
      spread (S (S fuel)) c self = Done 1)
  /\ (buy_orders od = ∅ -> sell_orders od = ∅ ->
      forall n, spread n c self = Unfinished).
Proof.
  intros Hstate Hbook. repeat split.
  - intros Hb Ha.
    destruct (best_bid_some c self st od Hstate Hbook fuel Hb) as (b & Hbb & Hmax).
    destruct (best_ask_some c self st od Hstate Hbook fuel Ha) as (a & Hba & Hmin).
    exists b, a. split; [done|]. split; [done|]. unfold spread. by rewrite Hba, Hbb.
  - intros Hb Ha.
    destruct (best_prices_done c self st od Hstate Hbook fuel (or_intror Ha))
      as (b & a & Hbb & Hba & Hbid & _).
    destruct (decide (buy_orders od = ∅)); [|done].
    unfold spread. rewrite Hba, Hbb. simpl. f_equal. lia.
  - intros Hb Ha.
    destruct (best_prices_done c self st od Hstate Hbook fuel (or_introl Hb))
      as (b & a & Hbb & Hba & _ & Hask).
    destruct (decide (sell_orders od = ∅)); [|done].
    unfold spread. rewrite Hba, Hbb. simpl. f_equal. lia.
  - intros Hb Ha n.
    destruct (empty_book_unfinished c self st od Hstate Hbook n Hb Ha) as [_ Hask].
    unfold spread. by rewrite Hask.
Qed.

Lemma spread_of_book_witness :
  spread 2 (tick_of "KELP" book_bids_only) (init "KELP") = Done 1
  /\ (exists b a,
        is_max_price b (buy_orders book_two_sided)
        /\ is_min_price a (sell_orders book_two_sided)
        /\ spread 1 (tick_of "KELP" book_two_sided) (init "KELP") = Done (a - b)).
Proof.
  split.
  - apply (spread_of_book (tick_of "KELP" book_bids_only) (init "KELP") _
             book_bids_only 0 eq_refl eq_refl); [by vm_compute | reflexivity].
  - apply (spread_of_book (tick_of "KELP" book_two_sided) (init "KELP") _
             book_two_sided 0 eq_refl eq_refl); by vm_compute.
Defined.

End BookFacts.

(** ** Updates of the book *)

Module UpdateFacts.
Import Status Spec BookSpec Examples MarketFacts BookFacts.

Section update.
Context (c : cls) (self : t) (st : TradingState) (od : OrderDepth).
Hypothesis Hstate : _state c = Some st.
Hypothesis Hbook : order_depths st !! product self = Some od.

Lemma setitem_buy_orders_eq prc amt :
  setitem_buy_orders (product self) prc amt c
  = (Done tt,
     set_state c
       (set_order_depth st (product self)
          {| buy_orders := <[prc := amt]> (buy_orders od);
             sell_orders := sell_orders od |})).
Proof.
  unfold setitem_buy_orders, state, getitem. rewrite Hstate. simpl.
  by rewrite Hbook.
Qed.

Lemma setitem_sell_orders_eq prc amt :
  setitem_sell_orders (product self) prc amt c
  = (Done tt,
     set_state c
       (set_order_depth st (product self)
          {| buy_orders := buy_orders od;
             sell_orders := <[prc := amt]> (sell_orders od) |})).
Proof.
  unfold setitem_sell_orders, state, getitem. rewrite Hstate. simpl.
  by rewrite Hbook.
Qed.

Lemma update_bids_eq prc new_amt :
  0 <= new_amt ->
  update_bids self prc new_amt c
  = (Done tt,
     set_state c
       (set_order_depth st (product self)
          {| buy_orders := <[prc := new_amt]> (buy_orders od);
             sell_orders := sell_orders od |})).
Proof.
  intros Hamt. unfold update_bids, _cls_update_bids.
  destruct (Z.ltb_spec 0 new_amt); [by apply setitem_buy_orders_eq|].
  assert (new_amt = 0) as -> by lia. simpl. by apply setitem_buy_orders_eq.
Qed.

Lemma update_asks_eq prc new_amt :
  new_amt <= 0 ->
  update_asks self prc new_amt c
  = (Done tt,
     set_state c
       (set_order_depth st (product self)
          {| buy_orders := buy_orders od;
             sell_orders := <[prc := new_amt]> (sell_orders od) |})).
Proof.
  intros Hamt. unfold update_asks, _cls_update_asks.
  destruct (Z.ltb_spec new_amt 0); [by apply setitem_sell_orders_eq|].
  assert (new_amt = 0) as -> by lia. simpl. by apply setitem_sell_orders_eq.
Qed.

End update.

Lemma update_bids_negative c self prc new_amt :
  new_amt < 0 -> update_bids self prc new_amt c = (Done tt, c).
Proof.
  intros H. unfold update_bids, _cls_update_bids.
  destruct (Z.ltb_spec 0 new_amt); [lia|].
  by destruct (Z.eqb_spec new_amt 0); [lia|].
Qed.

Lemma update_asks_positive c self prc new_amt :
  0 < new_amt -> update_asks self prc new_amt c = (Done tt, c).
Proof.
  intros H. unfold update_asks, _cls_update_asks.
  destruct (Z.ltb_spec new_amt 0); [lia|].
  by destruct (Z.eqb_spec new_amt 0); [lia|].
Qed.

Lemma order_depth_set_state c st self od :
  order_depth (set_state c (set_order_depth st (product self) od)) self = Done od.
Proof.
  unfold order_depth, state, getitem. simpl. by rewrite lookup_insert_eq.
Qed.

Lemma order_depth_set_state_ne c st self self' od :
  _state c = Some st ->
  product self' <> product self ->
  order_depth (set_state c (set_order_depth st (product self) od)) self'
  = order_depth c self'.
Proof.
  intros Hstate Hne. unfold order_depth, state, getitem. simpl.
  rewrite Hstate. simpl. by rewrite lookup_insert_ne.
Qed.

(** X8: [update_bids] returns; with an amount that is not negative it
    writes the level that [bidamt] then reads at that price, and
    leaves the other bid levels, the asks, the books of the other
    products, the realtime positions and the history tables; with a
    negative amount it changes nothing. *)
Theorem update_bids_read_back c self st od prc new_amt :
  _state c = Some st ->
  order_depths st !! product self = Some od ->
  let c' := (update_bids self prc new_amt c).2 in
  (update_bids self prc new_amt c).1 = Done tt
  /\ (0 <= new_amt -> bidamt c' self prc = Done new_amt)
  /\ (new_amt < 0 -> c' = c)
  /\ (forall prc', prc' <> prc -> bidamt c' self prc' = bidamt c self prc')
  /\ (forall prc', askamt c' self prc' = askamt c self prc')
  /\ (forall self', product self' <> product self ->
        order_depth c' self' = order_depth c self')
  /\ _realtime_position c' = _realtime_position c
  /\ _hist_order_depths c' = _hist_order_depths c.
Proof.
  intros Hstate Hbook c'. subst c'.
  destruct (Z.lt_ge_cases new_amt 0) as [Hneg|Hpos].
  - rewrite (update_bids_negative c self prc new_amt Hneg). simpl.
    repeat split; try done. lia.
  - rewrite (update_bids_eq c self st od Hstate Hbook prc new_amt Hpos).
    cbn [fst snd]. split; [done|]. split.
    { intros _. unfold bidamt. rewrite order_depth_set_state. simpl.
      by rewrite lookup_insert_eq. }
    split; [lia|]. split.
    { intros prc' Hne. unfold bidamt. rewrite order_depth_set_state.
      rewrite (order_depth_eq c self st od Hstate Hbook). simpl.
      by rewrite lookup_insert_ne. }
    split.
    { intros prc'. unfold askamt. rewrite order_depth_set_state.
      by rewrite (order_depth_eq c self st od Hstate Hbook). }
    split; [|done].
    intros self' Hne. by apply order_depth_set_state_ne.
Qed.

Lemma update_bids_read_back_witness :
  bidamt (update_bids (init "KELP") 98 7 (tick_of "KELP" book_two_sided)).2
    (init "KELP") 98 = Done 7
  /\ bidamt (update_bids (init "KELP") 98 7 (tick_of "KELP" book_two_sided)).2
       (init "KELP") 100
     = bidamt (tick_of "KELP" book_two_sided) (init "KELP") 100
  /\ (update_bids (init "KELP") 98 (-7) (tick_of "KELP" book_two_sided)).2
     = tick_of "KELP" book_two_sided.
Proof.
  pose proof (update_bids_read_back (tick_of "KELP" book_two_sided) (init "KELP")
                _ book_two_sided 98 7 eq_refl eq_refl) as (_ & H1 & _ & H2 & _).
  pose proof (update_bids_read_back (tick_of "KELP" book_two_sided) (init "KELP")
                _ book_two_sided 98 (-7) eq_refl eq_refl) as (_ & _ & H3 & _).
  split; [apply H1; lia|]. split; [apply H2; lia | apply H3; lia].
Defined.

(** X9: [update_bids] and [update_asks] keep the sign convention of
    the book: after either, the bid amounts are not negative and the
    ask amounts not positive, whatever amount was passed. *)
Theorem updates_keep_signs c self st od prc new_amt :
  _state c = Some st ->
  order_depths st !! product self = Some od ->
  book_signs od ->
  (exists od',
     order_depth (update_bids self prc new_amt c).2 self = Done od'
     /\ book_signs od')
  /\ (exists od',
        order_depth (update_asks self prc new_amt c).2 self = Done od'
        /\ book_signs od').
Proof.
  intros Hstate Hbook [Hb Ha]. split.
  - destruct (Z.lt_ge_cases new_amt 0) as [Hneg|Hpos].
    + rewrite (update_bids_negative c self prc new_amt Hneg). simpl.
      exists od. by rewrite (order_depth_eq c self st od Hstate Hbook).
    + rewrite (update_bids_eq c self st od Hstate Hbook prc new_amt Hpos).
      cbn [snd]. eexists. split; [apply order_depth_set_state|]. split; simpl.
      * intros p a Hl. destruct (decide (prc = p)) as [->|Hne].
        -- rewrite lookup_insert_eq in Hl. by injection Hl as <-.
        -- rewrite lookup_insert_ne in Hl by done. by eapply Hb.
      * done.
  - destruct (Z.lt_ge_cases 0 new_amt) as [Hpos|Hneg].
    + rewrite (update_asks_positive c self prc new_amt Hpos). simpl.
      exists od. by rewrite (order_depth_eq c self st od Hstate Hbook).
    + rewrite (update_asks_eq c self st od Hstate Hbook prc new_amt Hneg).
      cbn [snd]. eexists. split; [apply order_depth_set_state|]. split; simpl.
      * done.
      * intros p a Hl. destruct (decide (prc = p)) as [->|Hne].
        -- rewrite lookup_insert_eq in Hl. by injection Hl as <-.
        -- rewrite lookup_insert_ne in Hl by done. by eapply Ha.
Qed.

Lemma book_two_sided_signs : book_signs book_two_sided.
Proof.
  split; intros prc amt H; apply elem_of_map_to_list in H;
    revert H; vm_compute map_to_list; rewrite !elem_of_cons, elem_of_nil;
    intros H; repeat destruct H as [H|H]; try done; injection H; lia.
Defined.

Lemma updates_keep_signs_witness :
  exists od',
    order_depth (update_bids (init "KELP") 98 (-7) (tick_of "KELP" book_two_sided)).2
      (init "KELP") = Done od'
    /\ book_signs od'.
Proof.
  apply (updates_keep_signs (tick_of "KELP" book_two_sided) (init "KELP")
           _ book_two_sided 98 (-7) eq_refl eq_refl book_two_sided_signs).
Defined.

(** X10: a bid that [update_bids] writes above every bid of the book
    is the best bid from then on, also with the amount 0: [best_bid]
    returns its price and [best_bid_amount] its amount. *)
Theorem update_bids_above_book c self st od prc new_amt fuel :
  _state c = Some st ->
  order_depths st !! product self = Some od ->
  0 <= new_amt ->
  (forall k, is_Some (buy_orders od !! k) -> k < prc) ->
  let c' := (update_bids self prc new_amt c).2 in
  best_bid (S fuel) c' self = Done prc
  /\ best_bid_amount c' self = Done new_amt.
Proof.
  intros Hstate Hbook Hamt Habove c'. subst c'.
  rewrite (update_bids_eq c self st od Hstate Hbook prc new_amt Hamt). cbn [snd].
  set (od' := {| buy_orders := <[prc := new_amt]> (buy_orders od);
                 sell_orders := sell_orders od |}).
  set (c' := set_state c (set_order_depth st (product self) od')).
  assert (_state c' = Some (set_order_depth st (product self) od')) as Hs' by done.
  assert (order_depths (set_order_depth st (product self) od') !! product self
          = Some od') as Hb' by (simpl; apply lookup_insert_eq).
  assert (buy_orders od' <> ∅) as Hne by (simpl; apply insert_non_empty).
  assert (is_max_price prc (buy_orders od')) as Hmax.
  { split; simpl.
    - exists new_amt. apply lookup_insert_eq.
    - intros k [v Hk]. destruct (decide (prc = k)) as [->|Hne']; [lia|].
      rewrite lookup_insert_ne in Hk by done.
      specialize (Habove k (ex_intro _ v Hk)). lia. }
  split.
  - destruct (best_bid_some c' self _ od' Hs' Hb' fuel Hne) as (b & Hb & Hmax').
    by rewrite (is_max_price_unique _ _ _ Hmax Hmax').
  - destruct (best_bid_amount_some c' self _ od' Hs' Hb' Hne)
      as (b & amt & Hmax' & Hl & Hba).
    rewrite <- (is_max_price_unique _ _ _ Hmax Hmax') in Hl.
    simpl in Hl. rewrite lookup_insert_eq in Hl. by injection Hl as <-.
Qed.

Lemma update_bids_above_book_witness :
  best_bid 1 (update_bids (init "KELP") 101 0 (tick_of "KELP" book_two_sided)).2
    (init "KELP") = Done 101
  /\ best_bid_amount
       (update_bids (init "KELP") 101 0 (tick_of "KELP" book_two_sided)).2
       (init "KELP") = Done 0.
Proof.
  apply (update_bids_above_book (tick_of "KELP" book_two_sided) (init "KELP")
           _ book_two_sided 101 0 0 eq_refl eq_refl); [lia|].
  intros k [v H]. apply elem_of_map_to_list in H.
  revert H. vm_compute map_to_list. rewrite !elem_of_cons, elem_of_nil.
  intros H. repeat destruct H as [H|H]; try done; injection H; lia.
Defined.

End UpdateFacts.

(** ** The volume weighted price of a side *)

Module VwapFacts.
Import Status Spec BookSpec Examples MarketFacts BookFacts.

Lemma sum_Z_cons x xs : sum_Z (x :: xs) = x + sum_Z xs.
Proof. reflexivity. Qed.

Lemma foldl_signed_notional ls a :
  foldl (fun vwap level => vwap + level.1 * level.2) a ls
  = a + signed_notional ls.
Proof.
  revert a. induction ls as [|l ls IH]; intros a.
  - unfold signed_notional, sum_Z. simpl. lia.
  - cbn [foldl]. rewrite IH. unfold signed_notional.
    rewrite fmap_cons, sum_Z_cons. lia.
Qed.

Lemma foldl_negated_notional ls a :
  foldl (fun vwap level => vwap + level.1 * - level.2) a ls
  = a - signed_notional ls.
Proof.
  revert a. induction ls as [|l ls IH]; intros a.
  - unfold signed_notional, sum_Z. simpl. lia.
  - cbn [foldl]. rewrite IH. unfold signed_notional.
    rewrite fmap_cons, sum_Z_cons. lia.
Qed.

(** A weighted sum of prices lies between the extreme prices times the
    total weight. *)
Lemma weighted_sum_bounds ls lo hi :
  Forall (fun l => lo <= l.1 <= hi /\ 0 <= l.2) ls ->
  lo * sum_Z (ls.*2) <= signed_notional ls <= hi * sum_Z (ls.*2).
Proof.
  unfold signed_notional.
  induction 1 as [|l ls [Hp Ha] _ IH].
  - unfold sum_Z. simpl. lia.
  - rewrite !fmap_cons, !sum_Z_cons. nia.
Qed.

Lemma sum_Z_pos xs : xs <> [] -> Forall (fun x => 0 < x) xs -> 0 < sum_Z xs.
Proof.
  intros Hne H. destruct H as [|x xs Hx H]; [done|].
  rewrite sum_Z_cons.
  assert (0 <= sum_Z xs); [|lia].
  clear Hne Hx. induction H as [|y ys Hy _ IH]; [done|].
  rewrite sum_Z_cons. lia.
Qed.

Lemma sum_Z_opp xs : sum_Z (Z.opp <$> xs) = - sum_Z xs.
Proof.
  induction xs as [|x xs IH]; [done|].
  rewrite fmap_cons, !sum_Z_cons, IH. lia.
Qed.

Lemma signed_notional_opp ls :
  signed_notional ((fun l => (l.1, - l.2)) <$> ls) = - signed_notional ls.
Proof.
  unfold signed_notional. induction ls as [|l ls IH]; [done|].
  rewrite !fmap_cons, !sum_Z_cons, IH. simpl. lia.
Qed.

Section side.
Context (c : cls) (self : t) (st : TradingState) (od : OrderDepth).
Hypothesis Hstate : _state c = Some st.
Hypothesis Hbook : order_depths st !! product self = Some od.

Lemma vwap_bidprc_eq :
  vwap_bidprc c self
  = truediv (signed_notional (map_to_list (buy_orders od)))
      (sum_Z ((map_to_list (buy_orders od)).*2)).
Proof.
  unfold vwap_bidprc. rewrite (order_depth_eq c self st od Hstate Hbook). simpl.
  by rewrite foldl_signed_notional, py_sum_sum_Z, Z.add_0_l.
Qed.

Lemma vwap_askprc_eq :
  vwap_askprc c self
  = truediv (- signed_notional (map_to_list (sell_orders od)))
      (- sum_Z ((map_to_list (sell_orders od)).*2)).
Proof.
  unfold vwap_askprc. rewrite (order_depth_eq c self st od Hstate Hbook). simpl.
  by rewrite foldl_negated_notional, py_sum_sum_Z, Z.sub_0_l.
Qed.

End side.

Lemma truediv_bounds lo hi a b :
  0 < b -> lo * b <= a <= hi * b ->
  exists v, truediv a b = Done v /\ (Qc_of_Z lo <= v)%Qc /\ (v <= Qc_of_Z hi)%Qc.
Proof.
  intros Hb [Hlo Hhi]. unfold truediv.
  destruct (Z.eqb_spec b 0); [lia|].
  eexists. split; [done|]. by apply Qc_div_bounds.
Qed.

(** X11: on a side with levels, all of positive size, the volume
    weighted price of the side lies between its worst and its best
    price: [vwap_bidprc] between [worst_bid] and [best_bid],
    [vwap_askprc] between [best_ask] and [worst_ask]. *)
Theorem side_vwap_between c self st od fuel :
  _state c = Some st ->
  order_depths st !! product self = Some od ->
  (buy_orders od <> ∅ ->
   (forall prc amt, buy_orders od !! prc = Some amt -> 0 < amt) ->
   exists w b v,
     worst_bid fuel c self = Done w /\ best_bid (S fuel) c self = Done b
     /\ vwap_bidprc c self = Done v
     /\ (Qc_of_Z w <= v)%Qc /\ (v <= Qc_of_Z b)%Qc)
  /\ (sell_orders od <> ∅ ->
      (forall prc amt, sell_orders od !! prc = Some amt -> amt < 0) ->
      exists a w v,
        best_ask (S fuel) c self = Done a /\ worst_ask fuel c self = Done w
        /\ vwap_askprc c self = Done v
        /\ (Qc_of_Z a <= v)%Qc /\ (v <= Qc_of_Z w)%Qc).
Proof.
  intros Hstate Hbook. split.
  - intros Hne Hpos.
    destruct (worst_bid_some c self st od Hstate Hbook fuel Hne) as (w & Hw & Hmin).
    destruct (best_bid_some c self st od Hstate Hbook fuel Hne) as (b & Hb & Hmax).
    rewrite (vwap_bidprc_eq c self st od Hstate Hbook).
    destruct (truediv_bounds w b
                (signed_notional (map_to_list (buy_orders od)))
                (sum_Z ((map_to_list (buy_orders od)).*2))) as (v & Hv & Hlo & Hhi).
    + apply sum_Z_pos.
      * intros E. apply fmap_nil_inv in E. by apply map_to_list_empty_iff in E.
      * apply Forall_fmap, Forall_forall. intros [p a] Hin.
        apply list_elem_of_In, elem_of_map_to_list in Hin. simpl. by eapply Hpos.
    + apply weighted_sum_bounds, Forall_forall. intros [p a] Hin.
      apply list_elem_of_In, elem_of_map_to_list in Hin. simpl.
      destruct Hmin as [_ Hlb]. destruct Hmax as [_ Hub].
      pose proof (Hlb p (ex_intro _ a Hin)). pose proof (Hub p (ex_intro _ a Hin)).
      pose proof (Hpos p a Hin). lia.
    + by exists w, b, v.
  - intros Hne Hneg.
    destruct (worst_ask_some c self st od Hstate Hbook fuel Hne) as (w & Hw & Hmax).
    destruct (best_ask_some c self st od Hstate Hbook fuel Hne) as (a & Ha & Hmin).
    rewrite (vwap_askprc_eq c self st od Hstate Hbook).
    set (ls := map_to_list (sell_orders od)).
    set (ls' := (fun l : Z * Z => (l.1, - l.2)) <$> ls).
    assert (- signed_notional ls = signed_notional ls') as ->
        by (unfold ls'; by rewrite signed_notional_opp).
    assert (- sum_Z (ls.*2) = sum_Z (ls'.*2)) as ->.
    { unfold ls'. rewrite <- sum_Z_opp, <- !list_fmap_compose. done. }
    assert (Forall (fun l : Z * Z => a <= l.1 <= w /\ 0 < l.2) ls') as Hall.
    { apply Forall_fmap, Forall_forall. intros [p q] Hin.
      apply list_elem_of_In, elem_of_map_to_list in Hin. simpl.
      destruct Hmin as [_ Hlb]. destruct Hmax as [_ Hub].
      pose proof (Hlb p (ex_intro _ q Hin)). pose proof (Hub p (ex_intro _ q Hin)).
      pose proof (Hneg p q Hin). lia. }
    destruct (truediv_bounds a w (signed_notional ls') (sum_Z (ls'.*2)))
      as (v & Hv & Hlo & Hhi).
    + apply sum_Z_pos.
      * intros E. apply fmap_nil_inv in E. unfold ls' in E.
        apply fmap_nil_inv in E. by apply map_to_list_empty_iff in E.
      * apply Forall_fmap. eapply Forall_impl; [|exact Hall]. simpl. tauto.
    + apply weighted_sum_bounds. eapply Forall_impl; [|exact Hall]. simpl. lia.
    + by exists a, w, v.
Qed.

Lemma side_vwap_between_witness :
  exists w b v,
    worst_bid 0 (tick_of "KELP" book_two_sided) (init "KELP") = Done w
    /\ best_bid 1 (tick_of "KELP" book_two_sided) (init "KELP") = Done b
    /\ vwap_bidprc (tick_of "KELP" book_two_sided) (init "KELP") = Done v
    /\ (Qc_of_Z w <= v)%Qc /\ (v <= Qc_of_Z b)%Qc.
Proof.
  apply (side_vwap_between (tick_of "KELP" book_two_sided) (init "KELP") _
           book_two_sided 0 eq_refl eq_refl); [by vm_compute|].
  intros prc amt H. apply elem_of_map_to_list in H.
  revert H. vm_compute map_to_list. rewrite !elem_of_cons, elem_of_nil.
  intros H. repeat destruct H as [H|H]; try done; injection H; lia.
Defined.

(** X12: on a side whose amounts sum to 0, and so on a side without
    levels, [vwap_bidprc] and [vwap_askprc] raise [ZeroDivisionError]. *)
Theorem side_vwap_no_volume c self st od :
  _state c = Some st ->
  order_depths st !! product self = Some od ->
  (sum_Z ((map_to_list (buy_orders od)).*2) = 0 ->
   vwap_bidprc c self = Raised ZeroDivisionError)
  /\ (sum_Z ((map_to_list (sell_orders od)).*2) = 0 ->
      vwap_askprc c self = Raised ZeroDivisionError)
  /\ (buy_orders od = ∅ -> vwap_bidprc c self = Raised ZeroDivisionError)
  /\ (sell_orders od = ∅ -> vwap_askprc c self = Raised ZeroDivisionError).
Proof.
  intros Hstate Hbook.
  rewrite (vwap_bidprc_eq c self st od Hstate Hbook).
  rewrite (vwap_askprc_eq c self st od Hstate Hbook).
  repeat split.
  - intros ->. done.
  - intros ->. done.
  - intros ->. by rewrite map_to_list_empty.
  - intros ->. by rewrite map_to_list_empty.
Qed.

Lemma side_vwap_no_volume_witness :
  vwap_askprc (tick_of "KELP" book_bids_only) (init "KELP")
  = Raised ZeroDivisionError.
Proof.
  apply (side_vwap_no_volume (tick_of "KELP" book_bids_only) (init "KELP") _
           book_bids_only eq_refl eq_refl). reflexivity.
Defined.

End VwapFacts.

(** ** The sides combined, and the largest levels *)

Module CombineFacts.
Import Status Spec BookSpec Examples MarketFacts BookFacts VwapFacts.

Lemma notional_signed ls :
  Forall (fun l : Z * Z => 0 <= l.2) ls -> notional ls = signed_notional ls.
Proof.
  unfold notional, signed_notional. induction 1 as [|l ls Hl _ IH]; [done|].
  rewrite !fmap_cons, !sum_Z_cons, IH, Z.abs_eq by done. done.
Qed.

Lemma volume_signed ls :
  Forall (fun l : Z * Z => 0 <= l.2) ls -> volume ls = sum_Z (ls.*2).
Proof.
  unfold volume. induction 1 as [|l ls Hl _ IH]; [done|].
  rewrite !fmap_cons, !sum_Z_cons, IH, Z.abs_eq by done. done.
Qed.

Lemma notional_negated ls :
  Forall (fun l : Z * Z => l.2 <= 0) ls -> notional ls = - signed_notional ls.
Proof.
  unfold notional, signed_notional. induction 1 as [|l ls Hl _ IH]; [done|].
  rewrite !fmap_cons, !sum_Z_cons, IH, Z.abs_neq by done. lia.
Qed.

Lemma volume_negated ls :
  Forall (fun l : Z * Z => l.2 <= 0) ls -> volume ls = - sum_Z (ls.*2).
Proof.
  unfold volume. induction 1 as [|l ls Hl _ IH]; [done|].
  rewrite !fmap_cons, !sum_Z_cons, IH, Z.abs_neq by done. lia.
Qed.

Lemma vwap_truediv c self st od :
  _state c = Some st ->
  order_depths st !! product self = Some od ->
  (forall prc amt, buy_orders od !! prc = Some amt -> 0 <= amt) ->
  vwap c self = truediv (notional (levels od)) (volume (levels od)).
Proof.
  intros Hstate Hbook Hbids. unfold vwap.
  rewrite (order_depth_eq c self st od Hstate Hbook). simpl.
  rewrite foldl_vwap_bid_step.
  - rewrite foldl_vwap_ask_step. unfold levels.
    by rewrite notional_app, volume_app, ?Z.add_0_l.
  - apply Forall_forall. intros [prc amt] Hin.
    apply list_elem_of_In, elem_of_map_to_list in Hin. simpl. by eapply Hbids.
Qed.

(** Quotients of integers with positive denominators compare as
    their cross products. *)
Lemma Qc_div_le_div (a b a' b' : Z) :
  0 < b -> 0 < b' -> a * b' <= a' * b ->
  (Qc_of_Z a / Qc_of_Z b <= Qc_of_Z a' / Qc_of_Z b')%Qc.
Proof.
  intros Hb Hb' Hle.
  assert (forall z, 0 < z -> (Q2Qc 0 < Qc_of_Z z)%Qc) as Hpos.
  { intros z Hz. rewrite <- Z2Qc_inj_0. exact (proj1 (Z2Qc_inj_lt 0 z) Hz). }
  assert (forall z, 0 < z -> Qc_of_Z z <> 0%Qc) as Hnz.
  { intros z Hz E. rewrite <- Z2Qc_inj_0 in E. apply Z2Qc_inj in E. lia. }
  assert (0 < b * b') as Hbb by (by apply Z.mul_pos_pos).
  apply (Qcmult_le_mono_pos_r _ _ (Qc_of_Z (b * b')) (Hpos _ Hbb)).
  assert ((Qc_of_Z a / Qc_of_Z b) * Qc_of_Z (b * b') = Qc_of_Z (a * b'))%Qc
    as ->.
  { rewrite !Z2Qc_inj_mul. field. by apply Hnz. }
  assert ((Qc_of_Z a' / Qc_of_Z b') * Qc_of_Z (b * b') = Qc_of_Z (a' * b))%Qc
    as ->.
  { rewrite !Z2Qc_inj_mul. field. by apply Hnz. }
  exact (proj1 (Z2Qc_inj_le _ _) Hle).
Qed.

(** X13: on a book that keeps the sign convention and has volume on
    both sides, each of [vwap_bidprc], [vwap_askprc] and [vwap] is one
    division of two integers, the dividend and the divisor of [vwap]
    being the sums of those of the two sides, and the divisors being
    [total_bidamt] and [total_askamt], both positive; so [vwap] lies
    between [vwap_bidprc] and [vwap_askprc]. The division is taken
    exactly; the order between the three results does not depend on
    that. *)
Theorem vwap_between_sides c self st od :
  _state c = Some st ->
  order_depths st !! product self = Some od ->
  book_signs od ->
  0 < sum_Z ((map_to_list (buy_orders od)).*2) ->
  sum_Z ((map_to_list (sell_orders od)).*2) < 0 ->
  exists nb na tb ta v vb va,
    total_bidamt c self = Done tb
    /\ total_askamt c self = Done ta
    /\ 0 < tb /\ 0 < ta
    /\ vwap_bidprc c self = truediv nb tb
    /\ vwap_askprc c self = truediv na ta
    /\ vwap c self = truediv (nb + na) (tb + ta)
    /\ vwap_bidprc c self = Done vb
    /\ vwap_askprc c self = Done va
    /\ vwap c self = Done v
    /\ ((vb <= v /\ v <= va) \/ (va <= v /\ v <= vb))%Qc.
Proof.
  intros Hstate Hbook [Hb Ha] Htb Hta.
  set (bids := map_to_list (buy_orders od)) in *.
  set (asks := map_to_list (sell_orders od)) in *.
  assert (Forall (fun l : Z * Z => 0 <= l.2) bids) as Hbids.
  { apply Forall_forall. intros [prc amt] Hin.
    apply list_elem_of_In, elem_of_map_to_list in Hin. simpl. by eapply Hb. }
  assert (Forall (fun l : Z * Z => l.2 <= 0) asks) as Hasks.
  { apply Forall_forall. intros [prc amt] Hin.
    apply list_elem_of_In, elem_of_map_to_list in Hin. simpl. by eapply Ha. }
  rewrite (vwap_truediv c self st od Hstate Hbook Hb).
  rewrite (vwap_bidprc_eq c self st od Hstate Hbook).
  rewrite (vwap_askprc_eq c self st od Hstate Hbook).
  unfold total_bidamt, total_askamt.
  rewrite (order_depth_eq c self st od Hstate Hbook). simpl.
  unfold values, levels. fold bids asks. rewrite !py_sum_sum_Z.
  rewrite notional_app, volume_app.
  rewrite (notional_signed bids Hbids), (volume_signed bids Hbids).
  rewrite (notional_negated asks Hasks), (volume_negated asks Hasks).
  set (nb := signed_notional bids). set (na := - signed_notional asks).
  set (tb := sum_Z (bids.*2)) in *. set (ta := - sum_Z (asks.*2)).
  assert (0 < ta) as Hta' by (unfold ta; lia).
  exists nb, na, tb, ta.
  unfold truediv.
  destruct (Z.eqb_spec (tb + ta) 0); [lia|].
  destruct (Z.eqb_spec tb 0); [lia|].
  destruct (Z.eqb_spec ta 0); [lia|].
  eexists _, _, _. do 10 (split; [done|]).
  destruct (Z.le_gt_cases (nb * ta) (na * tb)) as [Hle|Hgt].
  - left. split; apply Qc_div_le_div; lia.
  - right. split; apply Qc_div_le_div; lia.
Qed.

Lemma vwap_between_sides_witness :
  exists nb na tb ta v vb va,
    total_bidamt (tick_of "KELP" book_two_sided) (init "KELP") = Done tb
    /\ total_askamt (tick_of "KELP" book_two_sided) (init "KELP") = Done ta
    /\ 0 < tb /\ 0 < ta
    /\ vwap_bidprc (tick_of "KELP" book_two_sided) (init "KELP") = truediv nb tb
    /\ vwap_askprc (tick_of "KELP" book_two_sided) (init "KELP") = truediv na ta
    /\ vwap (tick_of "KELP" book_two_sided) (init "KELP")
       = truediv (nb + na) (tb + ta)
    /\ vwap_bidprc (tick_of "KELP" book_two_sided) (init "KELP") = Done vb
    /\ vwap_askprc (tick_of "KELP" book_two_sided) (init "KELP") = Done va
    /\ vwap (tick_of "KELP" book_two_sided) (init "KELP") = Done v
    /\ ((vb <= v /\ v <= va) \/ (va <= v /\ v <= vb))%Qc.
Proof.
  apply (vwap_between_sides (tick_of "KELP" book_two_sided) (init "KELP") _
           book_two_sided eq_refl eq_refl UpdateFacts.book_two_sided_signs);
    by vm_compute.
Defined.

(** The scan for the level with the largest amount. *)
Lemma maxamt_bid_scan ls p m :
  0 <= m ->
  let r := foldl maxamt_bid_step (p, m) ls in
  m <= r.2
  /\ Forall (fun l => l.2 <= r.2) ls
  /\ (r = (p, m) \/ (r ∈ ls /\ m < r.2)).
Proof.
  revert p m. induction ls as [|[prc amt] ls IH]; intros p m Hm r; subst r.
  - simpl. split; [lia|]. split; [constructor|by left].
  - cbn [foldl].
    change (maxamt_bid_step (p, m) (prc, amt))
      with (if m <? amt then (prc, amt) else (p, m)).
    destruct (Z.ltb_spec m amt) as [Hlt|Hge].
    + destruct (IH prc amt ltac:(lia)) as (H1 & H2 & H3).
      split; [lia|]. split.
      * constructor; [simpl; lia|done].
      * right. destruct H3 as [->|[Hin Hlt']].
        -- split; [by left|simpl; lia].
        -- split; [by right|lia].
    + destruct (IH p m Hm) as (H1 & H2 & H3).
      split; [done|]. split.
      * constructor; [simpl; lia|done].
      * destruct H3 as [->|[Hin Hlt']]; [by left|].
        right. split; [by right|done].
Qed.

Lemma maxamt_ask_scan ls p m :
  m <= 0 ->
  let r := foldl maxamt_ask_step (p, m) ls in
  r.2 <= m
  /\ Forall (fun l => r.2 <= l.2) ls
  /\ (r = (p, m) \/ (r ∈ ls /\ r.2 < m)).
Proof.
  revert p m. induction ls as [|[prc amt] ls IH]; intros p m Hm r; subst r.
  - simpl. split; [lia|]. split; [constructor|by left].
  - cbn [foldl].
    change (maxamt_ask_step (p, m) (prc, amt))
      with (if amt <? m then (prc, amt) else (p, m)).
    destruct (Z.ltb_spec amt m) as [Hlt|Hge].
    + destruct (IH prc amt ltac:(lia)) as (H1 & H2 & H3).
      split; [lia|]. split.
      * constructor; [simpl; lia|done].
      * right. destruct H3 as [->|[Hin Hlt']].
        -- split; [by left|simpl; lia].
        -- split; [by right|lia].
    + destruct (IH p m Hm) as (H1 & H2 & H3).
      split; [done|]. split.
      * constructor; [simpl; lia|done].
      * destruct H3 as [->|[Hin Hlt']]; [by left|].
        right. split; [by right|done].
Qed.

(** X14: whatever the order in which the dict enumerates its levels,
    [maxamt_bidprc] is a price whose amount is the largest of the
    bids, and 0 when no bid has a positive amount; [maxamt_askprc] is
    a price whose amount is the most negative of the asks, and 0 when
    no ask has a negative amount. *)
Theorem maxamt_prices items c self st od :
  enumerates items ->
  _state c = Some st ->
  order_depths st !! product self = Some od ->
  (exists p,
     maxamt_bidprc items c self = Done p
     /\ ((p = 0 /\ forall prc amt, buy_orders od !! prc = Some amt -> amt <= 0)
         \/ exists amt,
              buy_orders od !! p = Some amt /\ 0 < amt
              /\ forall prc' amt', buy_orders od !! prc' = Some amt' -> amt' <= amt))
  /\ (exists p,
        maxamt_askprc items c self = Done p
        /\ ((p = 0 /\ forall prc amt, sell_orders od !! prc = Some amt -> 0 <= amt)
            \/ exists amt,
                 sell_orders od !! p = Some amt /\ amt < 0
                 /\ forall prc' amt', sell_orders od !! prc' = Some amt' -> amt <= amt')).
Proof.
  intros Hitems Hstate Hbook. split.
  - unfold maxamt_bidprc. rewrite (order_depth_eq c self st od Hstate Hbook). simpl.
    eexists. split; [done|].
    destruct (maxamt_bid_scan (items (buy_orders od)) 0 0 ltac:(lia)) as (H1 & H2 & H3).
    rewrite Forall_forall in H2.
    assert (forall prc a, buy_orders od !! prc = Some a ->
              a <= (foldl maxamt_bid_step (0, 0) (items (buy_orders od))).2) as Hall.
    { intros prc a Hl. apply (H2 (prc, a)). apply list_elem_of_In.
      rewrite (Hitems (buy_orders od)). by apply elem_of_map_to_list. }
    destruct H3 as [E|[Hin Hlt]].
    + left. rewrite E in *. split; [done|]. exact Hall.
    + right. destruct (foldl maxamt_bid_step (0, 0) (items (buy_orders od)))
        as [p m] eqn:E. simpl in *.
      exists m. rewrite (Hitems (buy_orders od)) in Hin.
      apply elem_of_map_to_list in Hin. by repeat split.
  - unfold maxamt_askprc. rewrite (order_depth_eq c self st od Hstate Hbook). simpl.
    eexists. split; [done|].
    destruct (maxamt_ask_scan (items (sell_orders od)) 0 0 ltac:(lia)) as (H1 & H2 & H3).
    rewrite Forall_forall in H2.
    assert (forall prc a, sell_orders od !! prc = Some a ->
              (foldl maxamt_ask_step (0, 0) (items (sell_orders od))).2 <= a) as Hall.
    { intros prc a Hl. apply (H2 (prc, a)). apply list_elem_of_In.
      rewrite (Hitems (sell_orders od)). by apply elem_of_map_to_list. }
    destruct H3 as [E|[Hin Hlt]].
    + left. rewrite E in *. split; [done|]. exact Hall.
    + right. destruct (foldl maxamt_ask_step (0, 0) (items (sell_orders od)))
        as [p m] eqn:E. simpl in *.
      exists m. rewrite (Hitems (sell_orders od)) in Hin.
      apply elem_of_map_to_list in Hin. by repeat split.
Qed.

Lemma enumerates_map_to_list {K : Type} `{Countable K} {V : Type} :
  enumerates (map_to_list : gmap K V -> list (K * V)).
Proof. intros d. reflexivity. Defined.

Lemma maxamt_prices_witness :
  exists p,
    maxamt_bidprc map_to_list (tick_of "KELP" book_two_sided) (init "KELP") = Done p
    /\ ((p = 0 /\ forall prc amt,
                    buy_orders book_two_sided !! prc = Some amt -> amt <= 0)
        \/ exists amt,
             buy_orders book_two_sided !! p = Some amt /\ 0 < amt
             /\ forall prc' amt',
                  buy_orders book_two_sided !! prc' = Some amt' -> amt' <= amt).
Proof.
  apply (maxamt_prices map_to_list (tick_of "KELP" book_two_sided) (init "KELP")
           _ book_two_sided enumerates_map_to_list eq_refl eq_refl).
Defined.

End CombineFacts.

(** ** [sorted] on the items of a book *)

Module SortedFacts.
Import Status Spec BookSpec Examples MarketFacts.

#[local] Instance item_le_total : Total item_le.
Proof. intros [p a] [q b]. unfold item_le. simpl. lia. Qed.

#[local] Instance item_le_trans : Transitive item_le.
Proof. intros [p a] [q b] [r d]. unfold item_le. simpl. lia. Qed.

#[local] Instance item_le_antisymm : AntiSymm (=) item_le.
Proof.
  intros [p a] [q b]. unfold item_le. simpl. intros H1 H2.
  f_equal; lia.
Qed.

#[local] Instance flip_item_le_total : Total (flip item_le).
Proof. intros x y. unfold flip. destruct (total item_le y x); auto. Qed.

#[local] Instance flip_item_le_trans : Transitive (flip item_le).
Proof. intros x y z H1 H2. unfold flip in *. by transitivity y. Qed.

#[local] Instance flip_item_le_antisymm : AntiSymm (=) (flip item_le).
Proof. intros x y H1 H2. unfold flip in *. by apply (anti_symm item_le). Qed.

Lemma sorted_Permutation reverse items : sorted reverse items ≡ₚ items.
Proof. destruct reverse; apply merge_sort_Permutation. Qed.

Lemma sorted_ascending items : StronglySorted item_le (sorted false items).
Proof. apply StronglySorted_merge_sort; apply _. Qed.

Lemma sorted_descending items : StronglySorted (flip item_le) (sorted true items).
Proof. apply StronglySorted_merge_sort; apply _. Qed.

(** The result does not depend on the order in which the items come. *)
Lemma sorted_enumeration reverse items items' :
  items ≡ₚ items' -> sorted reverse items = sorted reverse items'.
Proof.
  intros Hp. destruct reverse.
  - apply (StronglySorted_unique (flip item_le));
      [apply sorted_descending..|].
    by rewrite !sorted_Permutation.
  - apply (StronglySorted_unique item_le); [apply sorted_ascending..|].
    by rewrite !sorted_Permutation.
Qed.

(** With one item per price, the order is strict on the prices. *)
Lemma strictly_by_price (R : relation Z) (R' : relation (Z * Z)) ls :
  (forall x y, R' x y -> x.1 <> y.1 -> R x.1 y.1) ->
  NoDup (ls.*1) -> StronglySorted R' ls ->
  StronglySorted (fun x y => R x.1 y.1) ls.
Proof.
  intros HR Hnd Hs. induction Hs as [|x ls Hs IH Hall]; [constructor|].
  rewrite fmap_cons in Hnd. inversion Hnd as [|? ? Hx Hnd']; subst.
  constructor; [by apply IH|].
  rewrite Forall_forall in Hall. apply Forall_forall. intros y Hy.
  apply HR; [by apply Hall|].
  intros E. apply Hx. rewrite E. apply list_elem_of_fmap.
  exists y. split; [done|]. by apply list_elem_of_In.
Qed.

Lemma sorted_asks_strict (d : gmap Z Z) :
  StronglySorted (fun x y => x.1 < y.1) (sorted false (map_to_list d)).
Proof.
  apply (strictly_by_price Z.lt item_le).
  - intros [p a] [q b]. unfold item_le. simpl. lia.
  - rewrite (sorted_Permutation false (map_to_list d)).
    apply NoDup_fst_map_to_list.
  - apply sorted_ascending.
Qed.

Lemma sorted_bids_strict (d : gmap Z Z) :
  StronglySorted (fun x y => y.1 < x.1) (sorted true (map_to_list d)).
Proof.
  apply (strictly_by_price (fun p q => q < p) (flip item_le)).
  - intros [p a] [q b]. unfold flip, item_le. simpl. lia.
  - rewrite (sorted_Permutation true (map_to_list d)).
    apply NoDup_fst_map_to_list.
  - apply sorted_descending.
Qed.

Lemma elem_of_sorted reverse (d : gmap Z Z) prc amt :
  (prc, amt) ∈ sorted reverse (map_to_list d) <-> d !! prc = Some amt.
Proof. by rewrite sorted_Permutation, elem_of_map_to_list. Qed.

(** The first item of the sorted asks is the best ask, that of the
    sorted bids the best bid. *)
Lemma sorted_asks_head (d : gmap Z Z) x rest :
  sorted false (map_to_list d) = x :: rest ->
  is_min_price x.1 d /\ d !! x.1 = Some x.2.
Proof.
  intros E. pose proof (sorted_asks_strict d) as Hs. rewrite E in Hs.
  apply StronglySorted_cons in Hs as [Hall _].
  assert (d !! x.1 = Some x.2) as Hx.
  { apply (elem_of_sorted false). rewrite E. destruct x. by left. }
  split; [|done]. split; [by eexists|].
  intros k [v Hk]. apply (elem_of_sorted false) in Hk. rewrite E in Hk.
  apply elem_of_cons in Hk as [<-|Hk]; [simpl; lia|].
  rewrite Forall_forall in Hall. apply list_elem_of_In in Hk.
  specialize (Hall _ Hk). simpl in Hall. lia.
Qed.

Lemma sorted_bids_head (d : gmap Z Z) x rest :
  sorted true (map_to_list d) = x :: rest ->
  is_max_price x.1 d /\ d !! x.1 = Some x.2.
Proof.
  intros E. pose proof (sorted_bids_strict d) as Hs. rewrite E in Hs.
  apply StronglySorted_cons in Hs as [Hall _].
  assert (d !! x.1 = Some x.2) as Hx.
  { apply (elem_of_sorted true). rewrite E. destruct x. by left. }
  split; [|done]. split; [by eexists|].
  intros k [v Hk]. apply (elem_of_sorted true) in Hk. rewrite E in Hk.
  apply elem_of_cons in Hk as [<-|Hk]; [simpl; lia|].
  rewrite Forall_forall in Hall. apply list_elem_of_In in Hk.
  specialize (Hall _ Hk). simpl in Hall. lia.
Qed.

Lemma sorted_nil_iff reverse (d : gmap Z Z) :
  sorted reverse (map_to_list d) = [] <-> d = ∅.
Proof.
  split.
  - intros E. apply map_to_list_empty_iff.
    apply Permutation_nil_r. by rewrite <- (sorted_Permutation reverse), E.
  - intros ->. rewrite map_to_list_empty. by destruct reverse.
Qed.

(** [sorted] does not depend on the order in which the dict enumerates
    its items, and keeps them all. *)
Lemma sorted_book_items (items : gmap Z Z -> list (Z * Z)) (d : gmap Z Z) :
  enumerates items ->
  sorted false (items d) = sorted false (map_to_list d)
  /\ sorted true (items d) = sorted true (map_to_list d)
  /\ (forall prc amt, (prc, amt) ∈ sorted false (items d) <-> d !! prc = Some amt)
  /\ length (sorted false (items d)) = size d
  /\ StronglySorted (fun x y => x.1 < y.1) (sorted false (items d))
  /\ StronglySorted (fun x y => y.1 < x.1) (sorted true (items d))
  /\ sorted true (items d) = reverse (sorted false (items d)).
Proof.
  intros Hitems.
  rewrite (sorted_enumeration false _ _ (Hitems d)).
  rewrite (sorted_enumeration true _ _ (Hitems d)).
  split; [done|]. split; [done|]. split; [intros; apply elem_of_sorted|].
  split; [by rewrite sorted_Permutation, length_map_to_list|].
  split; [apply sorted_asks_strict|]. split; [apply sorted_bids_strict|].
  apply (StronglySorted_unique (flip item_le)).
  - apply sorted_descending.
  - apply Sorted_StronglySorted; [apply _|]. apply Sorted_reverse.
    apply StronglySorted_Sorted, sorted_ascending.
  - by rewrite reverse_Permutation, !sorted_Permutation.
Qed.

End SortedFacts.

(** ** What a tick appends *)

Module RecordFacts.
Import Status Spec BookSpec HistorySpec Examples MarketFacts SortedFacts.

Ltac run_appends :=
  repeat (cbv -[hist_append];
          match goal with
          | |- context [hist_append ?p ?n ?x ?c] =>
              destruct (hist_append p n x c) as [[[]|?|] ?]
          end);
  cbv -[hist_append]; try reflexivity.

Lemma ask_cells_three a1 a2 a3 rest :
  ask_cells (a1 :: a2 :: a3 :: rest) = ask_cells [a1; a2; a3].
Proof.
  unfold ask_cells. f_equal. simpl length.
  by rewrite (drop_ge level_numbers) by (simpl; lia).
Qed.

Lemma bid_cells_three b1 b2 b3 rest :
  bid_cells (b1 :: b2 :: b3 :: rest) = bid_cells [b1; b2; b3].
Proof.
  unfold bid_cells. f_equal. simpl length.
  by rewrite (drop_ge level_numbers) by (simpl; lia).
Qed.

Lemma record_asks_three product a1 a2 a3 rest c :
  record_asks product (a1 :: a2 :: a3 :: rest) 1 c
  = record_asks product [a1; a2; a3] 1 c.
Proof. destruct a1, a2, a3. run_appends. Qed.

Lemma record_bids_three product b1 b2 b3 rest c :
  record_bids product (b1 :: b2 :: b3 :: rest) 1 c
  = record_bids product [b1; b2; b3] 1 c.
Proof. destruct b1, b2, b3. run_appends. Qed.

(** The two loops over the asks are the appends of [ask_cells], and
    they end with [cnt = 4]. *)
Lemma asks_part product asks {B : Type} (k : action B) c :
  (cnt <~ record_asks product asks 1;; _ <~ pad_asks 3 product cnt;; k) c
  = (_ <~ appends product (ask_cells asks);; k) c.
Proof.
  assert (forall asks', length asks' <= 3 ->
            (cnt <~ record_asks product asks' 1;; _ <~ pad_asks 3 product cnt;; k) c
            = (_ <~ appends product (ask_cells asks');; k) c)%nat as Hshort.
  { intros [|[] [|[] [|[] [|? ?]]]] Hlen; try (simpl in Hlen; lia);
      unfold appends; run_appends. }
  destruct asks as [|a1 [|a2 [|a3 rest]]]; try (apply Hshort; simpl; lia).
  rewrite ask_cells_three. rewrite <- (Hshort [a1; a2; a3]) by (simpl; lia).
  unfold andthen. by rewrite record_asks_three.
Qed.

Lemma bids_part product bids {B : Type} (k : action B) c :
  (cnt <~ record_bids product bids 1;; _ <~ pad_bids 3 product cnt;; k) c
  = (_ <~ appends product (bid_cells bids);; k) c.
Proof.
  assert (forall bids', length bids' <= 3 ->
            (cnt <~ record_bids product bids' 1;; _ <~ pad_bids 3 product cnt;; k) c
            = (_ <~ appends product (bid_cells bids');; k) c)%nat as Hshort.
  { intros [|[] [|[] [|[] [|? ?]]]] Hlen; try (simpl in Hlen; lia);
      unfold appends; run_appends. }
  destruct bids as [|b1 [|b2 [|b3 rest]]]; try (apply Hshort; simpl; lia).
  rewrite bid_cells_three. rewrite <- (Hshort [b1; b2; b3]) by (simpl; lia).
  unfold andthen. by rewrite record_bids_three.
Qed.

Lemma appends_app product cells1 cells2 c :
  appends product (cells1 ++ cells2) c
  = (_ <~ appends product cells1;; appends product cells2) c.
Proof.
  revert c. induction cells1 as [|cell cells1 IH]; intros c; [done|].
  cbn [app]. unfold appends in *. cbn [for_each]. unfold andthen in *.
  destruct (hist_append product cell.1 cell.2 c) as [[[]|e|] c1]; done.
Qed.

Lemma record_order_depth_cells product od c :
  record_order_depth (product, od) c = appends product (tick_cells od) c.
Proof.
  unfold record_order_depth, tick_cells.
  rewrite asks_part, appends_app.
  unfold andthen at 1. unfold andthen at 3.
  destruct (appends product (ask_cells _) c) as [[[]|e|] c1]; try done.
  rewrite bids_part. unfold andthen.
  by destruct (appends product (bid_cells _) c1) as [[[]|e|] c2].
Qed.

Lemma hist_append_missing product name x c :
  _hist_order_depths c !! product = None ->
  hist_append product name x c = (Raised KeyError, c).
Proof. intros H. unfold hist_append, getitem. by rewrite H. Qed.

Lemma hist_append_present product name x c per :
  _hist_order_depths c !! product = Some per ->
  is_Some (per !! name) ->
  hist_append product name x c
  = (Done tt,
     set_hist_order_depths c
       (<[product := alter (fun s => s ++ [x]) name per]> (_hist_order_depths c))).
Proof.
  intros Hp [s Hs]. unfold hist_append, getitem. rewrite Hp, Hs.
  do 3 f_equal. apply map_eq. intros n.
  destruct (decide (name = n)) as [<-|Hne].
  - by rewrite lookup_insert_eq, lookup_alter_eq, Hs.
  - by rewrite lookup_insert_ne, lookup_alter_ne.
Qed.

Lemma appends_missing product cells c :
  cells <> [] ->
  _hist_order_depths c !! product = None ->
  appends product cells c = (Raised KeyError, c).
Proof.
  intros Hne H. destruct cells as [|cell cells]; [done|].
  unfold appends. cbn [for_each]. unfold andthen.
  by rewrite hist_append_missing.
Qed.

Lemma set_hist_order_depths_id c :
  set_hist_order_depths c (_hist_order_depths c) = c.
Proof. by destruct c. Qed.

Lemma set_hist_order_depths_twice c h h' :
  set_hist_order_depths (set_hist_order_depths c h) h'
  = set_hist_order_depths c h'.
Proof. reflexivity. Qed.

Lemma appended_is_Some cells per name :
  is_Some (appended cells per !! name) <-> is_Some (per !! name).
Proof.
  revert per. induction cells as [|cell cells IH]; intros per; [done|].
  unfold appended in *. cbn [foldl]. rewrite IH.
  destruct (decide (cell.1 = name)) as [<-|Hne].
  - rewrite lookup_alter_eq. by rewrite fmap_is_Some.
  - by rewrite lookup_alter_ne.
Qed.

Lemma appends_present product cells c per :
  _hist_order_depths c !! product = Some per ->
  Forall (fun cell => is_Some (per !! cell.1)) cells ->
  appends product cells c
  = (Done tt,
     set_hist_order_depths c
       (<[product := appended cells per]> (_hist_order_depths c))).
Proof.
  intros Hp Hall. revert c per Hp Hall.
  induction cells as [|cell cells IH]; intros c per Hp Hall.
  - unfold appends, appended. simpl. unfold ret.
    by rewrite insert_id, set_hist_order_depths_id.
  - inversion Hall as [|? ? Hcell Hall']; subst.
    unfold appends in *. cbn [for_each]. unfold andthen.
    rewrite (hist_append_present product cell.1 cell.2 c per Hp Hcell).
    rewrite (IH _ (alter (fun s => s ++ [cell.2]) cell.1 per)).
    + rewrite set_hist_order_depths_twice. cbn [_hist_order_depths set_hist_order_depths].
      by rewrite insert_insert_eq.
    + cbn [_hist_order_depths set_hist_order_depths]. by rewrite lookup_insert_eq.
    + eapply Forall_impl; [|exact Hall']. intros cell' Hs. simpl.
      destruct (decide (cell.1 = cell'.1)) as [E|Hne].
      * rewrite <- E, lookup_alter_eq. by rewrite fmap_is_Some.
      * by rewrite lookup_alter_ne.
Qed.

Lemma appended_cons cell cells per :
  appended (cell :: cells) per
  = appended cells (alter (fun s => s ++ [cell.2]) cell.1 per).
Proof. reflexivity. Qed.

Lemma appended_lookup_other cells per name :
  name ∉ cells.*1 -> appended cells per !! name = per !! name.
Proof.
  revert per. induction cells as [|cell cells IH]; intros per Hn; [done|].
  rewrite fmap_cons, not_elem_of_cons in Hn. destruct Hn as [Hne Hn].
  rewrite appended_cons, IH by done. by rewrite lookup_alter_ne.
Qed.

Lemma appended_lookup cells per name x :
  NoDup (cells.*1) -> (name, x) ∈ cells ->
  appended cells per !! name = (fun s => s ++ [x]) <$> per !! name.
Proof.
  revert per. induction cells as [|cell cells IH]; intros per Hnd Hin.
  - by apply elem_of_nil in Hin.
  - rewrite fmap_cons in Hnd. inversion Hnd as [|? ? Hx Hnd']; subst.
    rewrite appended_cons.
    apply elem_of_cons in Hin as [<-|Hin].
    + rewrite appended_lookup_other by done. simpl. by rewrite lookup_alter_eq.
    + rewrite IH by done. rewrite lookup_alter_ne; [done|].
      intros E. apply Hx. rewrite E. apply list_elem_of_fmap. by exists (name, x).
Qed.

Ltac decide_closed := refine (bool_decide_unpack _ _); vm_compute; exact I.

Lemma ask_cells_names asks : (ask_cells asks).*1 ≡ₚ ask_names.
Proof.
  destruct asks as [|a1 [|a2 [|a3 rest]]]; rewrite ?ask_cells_three;
    decide_closed.
Qed.

Lemma bid_cells_names bids : (bid_cells bids).*1 ≡ₚ bid_names.
Proof.
  destruct bids as [|b1 [|b2 [|b3 rest]]]; rewrite ?bid_cells_three;
    decide_closed.
Qed.

Lemma tick_cells_names od : (tick_cells od).*1 ≡ₚ series_names.
Proof.
  unfold tick_cells. rewrite fmap_app, ask_cells_names, bid_cells_names.
  decide_closed.
Qed.

Lemma NoDup_series_names : NoDup series_names.
Proof. decide_closed. Qed.

Lemma ask_cells_elem asks :
  ("askprc1"%string, fst <$> asks !! 0%nat) ∈ ask_cells asks
  /\ ("askamt1"%string, snd <$> asks !! 0%nat) ∈ ask_cells asks
  /\ ("askprc2"%string, fst <$> asks !! 1%nat) ∈ ask_cells asks
  /\ ("askamt2"%string, snd <$> asks !! 1%nat) ∈ ask_cells asks
  /\ ("askprc3"%string, fst <$> asks !! 2%nat) ∈ ask_cells asks
  /\ ("askamt3"%string, snd <$> asks !! 2%nat) ∈ ask_cells asks.
Proof.
  destruct asks as [|a1 [|a2 [|a3 rest]]]; rewrite ?ask_cells_three;
    repeat split; vm_compute; repeat constructor.
Qed.

Lemma bid_cells_elem bids :
  ("bidprc1"%string, fst <$> bids !! 0%nat) ∈ bid_cells bids
  /\ ("bidamt1"%string, snd <$> bids !! 0%nat) ∈ bid_cells bids
  /\ ("bidprc2"%string, fst <$> bids !! 1%nat) ∈ bid_cells bids
  /\ ("bidamt2"%string, snd <$> bids !! 1%nat) ∈ bid_cells bids
  /\ ("bidprc3"%string, fst <$> bids !! 2%nat) ∈ bid_cells bids
  /\ ("bidamt3"%string, snd <$> bids !! 2%nat) ∈ bid_cells bids.
Proof.
  destruct bids as [|b1 [|b2 [|b3 rest]]]; rewrite ?bid_cells_three;
    repeat split; vm_compute; repeat constructor.
Qed.

Lemma tick_cells_level od type depth x :
  level_cell od type depth = Some x ->
  ((type ++ str depth)%string, x) ∈ tick_cells od.
Proof.
  unfold level_cell, tick_cells. intros H.
  destruct (decide (1 <= depth <= 3)) as [Hd|]; [|done].
  pose proof (ask_cells_elem (sorted false (map_to_list (sell_orders od))))
    as (A1 & A2 & A3 & A4 & A5 & A6).
  pose proof (bid_cells_elem (sorted true (map_to_list (buy_orders od))))
    as (B1 & B2 & B3 & B4 & B5 & B6).
  assert (depth = 1 \/ depth = 2 \/ depth = 3) as Hcases by lia.
  destruct Hcases as [-> | [-> | ->]];
    repeat (destruct (decide (type = _)) as [->|?]; [injection H as <-|]);
    try done; apply elem_of_app; auto.
Qed.

Lemma level_cell_name od type depth x :
  level_cell od type depth = Some x -> (type ++ str depth)%string ∈ series_names.
Proof.
  intros H. apply tick_cells_level in H.
  rewrite <- (tick_cells_names od). apply list_elem_of_fmap. by eexists (_, _).
Qed.

Lemma appended_level od per type depth x :
  level_cell od type depth = Some x ->
  appended (tick_cells od) per !! (type ++ str depth)%string
  = (fun s => s ++ [x]) <$> per !! (type ++ str depth)%string.
Proof.
  intros H. apply appended_lookup.
  - rewrite tick_cells_names. apply NoDup_series_names.
  - by apply tick_cells_level.
Qed.

Lemma tick_cells_cover od name :
  name ∈ series_names -> exists x, (name, x) ∈ tick_cells od.
Proof.
  rewrite <- (tick_cells_names od). intros H.
  apply list_elem_of_fmap in H as ([n x] & -> & Hin). by exists x.
Qed.

Lemma table_wf_appended od per :
  table_wf per -> table_wf (appended (tick_cells od) per).
Proof.
  intros [n Hn]. exists (S n). intros name Hname.
  destruct (Hn name Hname) as (s & Hs & Hlen).
  destruct (tick_cells_cover od name Hname) as [x Hx].
  exists (s ++ [x]). split.
  - rewrite (appended_lookup _ _ name x); [by rewrite Hs| |done].
    rewrite tick_cells_names. apply NoDup_series_names.
  - rewrite length_app. simpl. lia.
Qed.

Lemma record_order_depth_missing product od c :
  _hist_order_depths c !! product = None ->
  record_order_depth (product, od) c = (Raised KeyError, c).
Proof.
  intros H. rewrite record_order_depth_cells. apply appends_missing; [|done].
  intros E. pose proof (tick_cells_names od) as Hp. rewrite E in Hp.
  by apply Permutation_nil_l in Hp.
Qed.

Lemma record_order_depth_present product od c per :
  _hist_order_depths c !! product = Some per ->
  table_wf per ->
  record_order_depth (product, od) c
  = (Done tt,
     set_hist_order_depths c
       (<[product := appended (tick_cells od) per]> (_hist_order_depths c))).
Proof.
  intros Hp [n Hn]. rewrite record_order_depth_cells.
  apply appends_present; [done|].
  apply Forall_forall. intros [name x] Hin. simpl.
  destruct (Hn name) as (s & Hs & _); [|by exists s].
  rewrite <- (tick_cells_names od). apply list_elem_of_fmap.
  exists (name, x). split; [done|]. by apply list_elem_of_In.
Qed.

(** What a run of the loop over the order depths leaves. *)
Lemma for_each_record_wf items c :
  hist_wf c ->
  let r := for_each record_order_depth items c in
  hist_wf r.2
  /\ (forall p, is_Some (_hist_order_depths r.2 !! p)
               <-> is_Some (_hist_order_depths c !! p))
  /\ _state r.2 = _state c
  /\ _realtime_position r.2 = _realtime_position c
  /\ _num_data r.2 = _num_data c
  /\ (r.1 = Done tt \/ r.1 = Raised KeyError).
Proof.
  revert c. induction items as [|[product od] items IH]; intros c Hwf r; subst r.
  - simpl. repeat split; auto.
  - cbn [for_each]. unfold andthen.
    destruct (_hist_order_depths c !! product) as [per|] eqn:Hp.
    + rewrite (record_order_depth_present product od c per Hp (Hwf _ _ Hp)).
      set (c1 := set_hist_order_depths c _).
      assert (hist_wf c1) as Hwf1.
      { intros p per1 Hl. unfold c1 in Hl. simpl in Hl.
        destruct (decide (product = p)) as [<-|Hne].
        - rewrite lookup_insert_eq in Hl. injection Hl as <-.
          apply table_wf_appended. by eapply Hwf.
        - rewrite lookup_insert_ne in Hl by done. by eapply Hwf. }
      destruct (IH c1 Hwf1) as (H1 & H2 & H3 & H4 & H5 & H6).
      split; [done|]. split; [|done].
      intros p. rewrite H2. unfold c1. simpl.
      destruct (decide (product = p)) as [<-|Hne].
      * rewrite lookup_insert_eq, Hp. split; intros _; by eexists.
      * by rewrite lookup_insert_ne.
    + rewrite (record_order_depth_missing product od c Hp). simpl.
      repeat split; auto.
Qed.

Lemma for_each_record_done items c :
  hist_wf c ->
  Forall (fun item => is_Some (_hist_order_depths c !! item.1)) items ->
  NoDup (items.*1) ->
  let r := for_each record_order_depth items c in
  r.1 = Done tt
  /\ (forall product od per,
        (product, od) ∈ items ->
        _hist_order_depths c !! product = Some per ->
        _hist_order_depths r.2 !! product = Some (appended (tick_cells od) per))
  /\ (forall product,
        product ∉ items.*1 ->
        _hist_order_depths r.2 !! product = _hist_order_depths c !! product).
Proof.
  revert c. induction items as [|[product od] items IH];
    intros c Hwf Hall Hnd r; subst r.
  - simpl. split; [done|]. split; [|done]. intros ? ? ? Hin.
    by apply elem_of_nil in Hin.
  - inversion Hall as [|? ? [per Hp] Hall']; subst. simpl in Hp.
    rewrite fmap_cons in Hnd. inversion Hnd as [|? ? Hx Hnd']; subst.
    cbn [for_each]. unfold andthen.
    rewrite (record_order_depth_present product od c per Hp (Hwf _ _ Hp)).
    set (c1 := set_hist_order_depths c _).
    assert (forall p, p <> product ->
              _hist_order_depths c1 !! p = _hist_order_depths c !! p) as Hother.
    { intros p Hne. unfold c1. simpl. by rewrite lookup_insert_ne. }
    assert (_hist_order_depths c1 !! product
            = Some (appended (tick_cells od) per)) as Hthis.
    { unfold c1. simpl. by rewrite lookup_insert_eq. }
    assert (hist_wf c1) as Hwf1.
    { intros p per1 Hl. destruct (decide (p = product)) as [->|Hne].
      - rewrite Hthis in Hl. injection Hl as <-.
        apply table_wf_appended. by eapply Hwf.
      - rewrite Hother in Hl by done. by eapply Hwf. }
    destruct (IH c1 Hwf1) as (H1 & H2 & H3); [|done|].
    { apply Forall_forall. intros [p o] Hin. cbn [fst].
      rewrite Forall_forall in Hall'. specialize (Hall' _ Hin). cbn [fst] in Hall'.
      destruct (decide (p = product)) as [->|Hne]; [by rewrite Hthis|].
      by rewrite Hother. }
    split; [done|]. split.
    + intros p o per' Hin Hl. apply elem_of_cons in Hin as [E|Hin].
      * injection E as -> ->. rewrite H3 by done.
        etransitivity; [exact Hthis|]. congruence.
      * assert (p <> product) as Hne.
        { intros ->. apply Hx. apply list_elem_of_fmap. by exists (product, o). }
        apply H2; [done|]. by rewrite Hother.
    + intros p Hn. rewrite fmap_cons, not_elem_of_cons in Hn.
      destruct Hn as [Hne Hn]. rewrite H3 by done. by apply Hother.
Qed.

Lemma for_each_record_raise items c :
  hist_wf c ->
  Exists (fun item => _hist_order_depths c !! item.1 = None) items ->
  (for_each record_order_depth items c).1 = Raised KeyError.
Proof.
  revert c. induction items as [|[product od] items IH]; intros c Hwf Hex.
  - inversion Hex.
  - cbn [for_each]. unfold andthen.
    destruct (_hist_order_depths c !! product) as [per|] eqn:Hp.
    + rewrite (record_order_depth_present product od c per Hp (Hwf _ _ Hp)).
      set (c1 := set_hist_order_depths c _).
      inversion Hex as [? ? Hnone|? ? Hex']; subst;
        [simpl in Hnone; congruence|].
      apply IH.
      * intros p per1 Hl. unfold c1 in Hl. simpl in Hl.
        destruct (decide (product = p)) as [<-|Hne].
        -- rewrite lookup_insert_eq in Hl. injection Hl as <-.
           apply table_wf_appended. by eapply Hwf.
        -- rewrite lookup_insert_ne in Hl by done. by eapply Hwf.
      * eapply Exists_impl; [|exact Hex']. intros [p o] Hn. simpl in *.
        unfold c1. simpl. destruct (decide (product = p)) as [<-|Hne];
          [congruence|]. by rewrite lookup_insert_ne.
    + by rewrite (record_order_depth_missing product od c Hp).
Qed.

End RecordFacts.

(** ** [Status.cls_update] *)

Module ClsUpdateFacts.
Import Status Spec BookSpec HistorySpec Examples MarketFacts SortedFacts RecordFacts SliceFacts BookFacts.

Lemma hist_append_frame product name x c :
  frame c (hist_append product name x c).2.
Proof.
  unfold hist_append, getitem.
  destruct (_hist_order_depths c !! product) as [per|]; [|done].
  by destruct (per !! name).
Qed.

Lemma frame_trans c1 c2 c3 : frame c1 c2 -> frame c2 c3 -> frame c1 c3.
Proof. intros (?&?&?) (?&?&?). repeat split; congruence. Qed.

Lemma appends_frame product cells c : frame c (appends product cells c).2.
Proof.
  revert c. induction cells as [|cell cells IH]; intros c; [done|].
  unfold appends in *. cbn [for_each]. unfold andthen.
  pose proof (hist_append_frame product cell.1 cell.2 c) as Hf.
  destruct (hist_append product cell.1 cell.2 c) as [[[]|e|] c1]; try done.
  eapply frame_trans; [exact Hf|apply IH].
Qed.

Lemma for_each_record_frame items c :
  frame c (for_each record_order_depth items c).2.
Proof.
  revert c. induction items as [|[product od] items IH]; intros c; [done|].
  cbn [for_each]. unfold andthen.
  pose proof (appends_frame product (tick_cells od) c) as Hf.
  rewrite <- record_order_depth_cells in Hf.
  destruct (record_order_depth (product, od) c) as [[[]|e|] c1]; try done.
  eapply frame_trans; [exact Hf|apply IH].
Qed.

Lemma set_realtime_position_id c :
  set_realtime_position c (_realtime_position c) = c.
Proof. by destruct c. Qed.

Lemma for_each_record_position items c :
  for_each record_position items c
  = (Done tt,
     set_realtime_position c (foldl put_position (_realtime_position c) items)).
Proof.
  revert c. induction items as [|item items IH]; intros c.
  - simpl. unfold ret. by rewrite set_realtime_position_id.
  - cbn [for_each foldl]. unfold andthen, record_position at 1. by rewrite IH.
Qed.

Lemma foldl_put_position_other items m p :
  p ∉ items.*1 -> foldl put_position m items !! p = m !! p.
Proof.
  revert m. induction items as [|item items IH]; intros m Hn; [done|].
  rewrite fmap_cons, not_elem_of_cons in Hn. destruct Hn as [Hne Hn].
  cbn [foldl]. rewrite IH by done. unfold put_position.
  by rewrite lookup_insert_ne.
Qed.

Lemma foldl_put_position items m p v :
  NoDup (items.*1) -> (p, v) ∈ items ->
  foldl put_position m items !! p = Some v.
Proof.
  revert m. induction items as [|item items IH]; intros m Hnd Hin.
  - by apply elem_of_nil in Hin.
  - rewrite fmap_cons in Hnd. inversion Hnd as [|? ? Hx Hnd']; subst.
    cbn [foldl]. apply elem_of_cons in Hin as [<-|Hin].
    + rewrite foldl_put_position_other by done. unfold put_position. simpl.
      by rewrite lookup_insert_eq.
    + by apply IH.
Qed.

(** The shape of a run of [cls_update]. *)
Lemma cls_update_eq position_items order_depth_items state c :
  let c2 :=
    set_realtime_position (set_state c state)
      (foldl put_position (_realtime_position c)
         (position_items (datamodel.position state))) in
  let r := for_each record_order_depth
             (order_depth_items (order_depths state)) c2 in
  cls_update position_items order_depth_items state c
  = match r.1 with
    | Done _ => (Done tt, set_num_data r.2 (_num_data r.2 + 1))
    | Raised e => (Raised e, r.2)
    | Unfinished => (Unfinished, r.2)
    end.
Proof.
  intros c2 r. unfold cls_update, andthen.
  rewrite for_each_record_position. cbn [fst snd].
  change (set_realtime_position _ _) with c2. fold r.
  clearbody r. by destruct r as [[[]|e|] c3].
Qed.

Lemma enumerates_NoDup {V : Type} (enum : gmap string V -> list (string * V)) d :
  enumerates enum -> NoDup ((enum d).*1).
Proof. intros H. rewrite (H d). apply NoDup_fst_map_to_list. Qed.

Lemma enumerates_elem_of {V : Type} (enum : gmap string V -> list (string * V))
    d k v :
  enumerates enum -> (k, v) ∈ enum d <-> d !! k = Some v.
Proof. intros H. by rewrite (H d), elem_of_map_to_list. Qed.

Lemma enumerates_not_elem_of {V : Type}
    (enum : gmap string V -> list (string * V)) d k :
  enumerates enum -> k ∉ (enum d).*1 <-> d !! k = None.
Proof.
  intros H. rewrite (H d). split.
  - intros Hn. destruct (d !! k) as [v|] eqn:E; [|done].
    destruct Hn. apply list_elem_of_fmap. exists (k, v).
    split; [done|]. by apply elem_of_map_to_list.
  - intros Hn Hin. apply list_elem_of_fmap in Hin as ([k' v] & -> & Hin).
    apply elem_of_map_to_list in Hin. simpl in Hn. congruence.
Qed.

Lemma hist_wf_frame c h :
  hist_wf c -> hist_wf (set_realtime_position (set_state c h.1) h.2).
Proof. done. Qed.

Lemma hist_wf_initial : hist_wf initial.
Proof.
  intros product per H. unfold initial in H. cbn [_hist_order_depths] in H.
  rewrite lookup_fmap in H.
  destruct (_position_limit !! product); [|done]. injection H as <-.
  exists 0%nat. intros name Hname. exists []. split; [|done].
  unfold series_names in Hname.
  repeat (apply elem_of_cons in Hname as [->|Hname]; [reflexivity|]).
  by apply elem_of_nil in Hname.
Qed.

(** X15: after a call of [cls_update], whatever its outcome, the state
    is the one passed and the realtime position of every product the
    state reports is the reported one, the other products keeping
    theirs. *)
Theorem cls_update_positions position_items order_depth_items state c :
  enumerates position_items ->
  let r := cls_update position_items order_depth_items state c in
  _state r.2 = Some state
  /\ (forall p v, datamodel.position state !! p = Some v ->
        _realtime_position r.2 !! p = Some v)
  /\ (forall p, datamodel.position state !! p = None ->
        _realtime_position r.2 !! p = _realtime_position c !! p).
Proof.
  intros Henum r. subst r. rewrite cls_update_eq.
  set (c2 := set_realtime_position _ _).
  pose proof (for_each_record_frame
                (order_depth_items (order_depths state)) c2) as (Hs & Hr & _).
  set (r := for_each record_order_depth _ c2) in *.
  assert (_state r.2 = Some state /\
          _realtime_position r.2
          = foldl put_position (_realtime_position c)
              (position_items (datamodel.position state))) as [Hs' Hr'].
  { by rewrite Hs, Hr. }
  assert (forall (o : outcome unit * cls) n,
            _state (set_num_data o.2 n) = _state o.2
            /\ _realtime_position (set_num_data o.2 n) = _realtime_position o.2)
    as Hn by done.
  assert (_state (match r.1 with
                  | Done _ => (Done tt, set_num_data r.2 (_num_data r.2 + 1))
                  | Raised e => (Raised e, r.2)
                  | Unfinished => (Unfinished, r.2)
                  end).2 = Some state
          /\ _realtime_position
               (match r.1 with
                | Done _ => (Done tt, set_num_data r.2 (_num_data r.2 + 1))
                | Raised e => (Raised e, r.2)
                | Unfinished => (Unfinished, r.2)
                end).2
             = foldl put_position (_realtime_position c)
                 (position_items (datamodel.position state))) as [-> ->].
  { by destruct (r.1). }
  split; [done|]. split.
  - intros p v Hp. apply foldl_put_position.
    + by apply enumerates_NoDup.
    + by apply enumerates_elem_of.
  - intros p Hp. apply foldl_put_position_other.
    by apply enumerates_not_elem_of.
Qed.

Lemma cls_update_done position_items order_depth_items state c :
  hist_wf c -> enumerates order_depth_items ->
  (forall p, is_Some (order_depths state !! p) ->
             is_Some (_hist_order_depths c !! p)) ->
  let r := cls_update position_items order_depth_items state c in
  r.1 = Done tt
  /\ _num_data r.2 = _num_data c + 1
  /\ _state r.2 = Some state
  /\ (forall product od per,
        order_depths state !! product = Some od ->
        _hist_order_depths c !! product = Some per ->
        _hist_order_depths r.2 !! product = Some (appended (tick_cells od) per))
  /\ (forall product,
        order_depths state !! product = None ->
        _hist_order_depths r.2 !! product = _hist_order_depths c !! product).
Proof.
  intros Hwf Henum Hall r. subst r. rewrite cls_update_eq.
  set (c2 := set_realtime_position _ _).
  pose proof (for_each_record_frame
                (order_depth_items (order_depths state)) c2) as (Hs & _ & Hn).
  destruct (for_each_record_done (order_depth_items (order_depths state)) c2)
    as (Hdone & Hin & Hout).
  - exact Hwf.
  - apply Forall_forall. intros [p od] Hp. apply list_elem_of_In in Hp.
    apply (enumerates_elem_of order_depth_items) in Hp; [|done].
    apply Hall. by exists od.
  - by apply enumerates_NoDup.
  - set (r := for_each record_order_depth _ c2) in *.
    rewrite Hdone. cbn [fst snd]. split; [done|]. split; [simpl; by rewrite Hn|].
    split; [exact Hs|]. split.
    + intros product od per Hod Hper. apply (Hin product od per); [|done].
      by apply enumerates_elem_of.
    + intros product Hod. apply Hout. by apply enumerates_not_elem_of.
Qed.

Lemma cls_update_raise position_items order_depth_items state c :
  hist_wf c -> enumerates order_depth_items ->
  (exists p, is_Some (order_depths state !! p)
             /\ _hist_order_depths c !! p = None) ->
  let r := cls_update position_items order_depth_items state c in
  r.1 = Raised KeyError /\ _num_data r.2 = _num_data c.
Proof.
  intros Hwf Henum (p & [od Hod] & Hp) r. subst r. rewrite cls_update_eq.
  set (c2 := set_realtime_position _ _).
  pose proof (for_each_record_frame
                (order_depth_items (order_depths state)) c2) as (_ & _ & Hn).
  pose proof (for_each_record_raise
                (order_depth_items (order_depths state)) c2 Hwf) as Hr.
  rewrite Hr.
  - done.
  - apply Exists_exists. exists (p, od). split; [|done].
    apply list_elem_of_In. by apply enumerates_elem_of.
Qed.

Lemma cls_update_wf position_items order_depth_items state c :
  hist_wf c ->
  let r := cls_update position_items order_depth_items state c in
  hist_wf r.2
  /\ (forall p, is_Some (_hist_order_depths r.2 !! p)
                <-> is_Some (_hist_order_depths c !! p)).
Proof.
  intros Hwf r. subst r. rewrite cls_update_eq.
  set (c2 := set_realtime_position _ _).
  destruct (for_each_record_wf (order_depth_items (order_depths state)) c2 Hwf)
    as (Hwf' & Hsame & _).
  set (r := for_each record_order_depth _ c2) in *.
  by destruct (r.1).
Qed.

Lemma feed_tables position_items order_depth_items states c0 :
  hist_wf c0 ->
  hist_wf (feed position_items order_depth_items states c0)
  /\ (forall p,
        is_Some (_hist_order_depths
                   (feed position_items order_depth_items states c0) !! p)
        <-> is_Some (_hist_order_depths c0 !! p)).
Proof.
  revert c0. induction states as [|state states IH]; intros c0 Hwf; [done|].
  unfold feed in *. cbn [foldl].
  destruct (cls_update_wf position_items order_depth_items state c0 Hwf)
    as [Hwf1 Hsame1].
  destruct (IH _ Hwf1) as [Hwf2 Hsame2]. split; [done|].
  intros p. by rewrite Hsame2, Hsame1.
Qed.

Lemma initial_tables p :
  is_Some (_hist_order_depths initial !! p) <-> is_Some (_position_limit !! p).
Proof.
  unfold initial. cbn [_hist_order_depths].
  rewrite lookup_fmap. by rewrite fmap_is_Some.
Qed.

(** X16: whatever ticks [cls_update] is given since the class body
    ran, and whether it raised on some of them, the products that have
    history tables stay those with a position limit, and the twelve
    series of a table keep one common length. *)
Theorem cls_update_keeps_tables position_items order_depth_items states :
  let c := feed position_items order_depth_items states initial in
  hist_wf c
  /\ (forall p, is_Some (_hist_order_depths c !! p)
                <-> is_Some (_position_limit !! p)).
Proof.
  intros c. subst c.
  destruct (feed_tables position_items order_depth_items states initial
              hist_wf_initial) as [Hwf Hsame].
  split; [done|]. intros p. by rewrite Hsame, initial_tables.
Qed.

(** X17: on class attributes whose tables are well formed,
    [cls_update] returns and counts the tick when every product of the
    tick's order depths has a history table; when one has none it
    raises [KeyError] and the count of ticks stays. *)
Theorem cls_update_outcome position_items order_depth_items state c :
  hist_wf c -> enumerates order_depth_items ->
  let r := cls_update position_items order_depth_items state c in
  ((forall p, is_Some (order_depths state !! p) ->
              is_Some (_hist_order_depths c !! p)) ->
   r.1 = Done tt /\ _num_data r.2 = _num_data c + 1)
  /\ ((exists p, is_Some (order_depths state !! p)
                 /\ _hist_order_depths c !! p = None) ->
      r.1 = Raised KeyError /\ _num_data r.2 = _num_data c).
Proof.
  intros Hwf Henum r. split.
  - intros Hall.
    by destruct (cls_update_done position_items order_depth_items state c
                   Hwf Henum Hall) as (? & ? & _).
  - intros Hex.
    exact (cls_update_raise position_items order_depth_items state c
             Hwf Henum Hex).
Qed.

Section recorded.

Context {F : Type} (float32 : cell -> F).

Lemma cls_update_cell position_items order_depth_items state c
    self od type depth x :
  hist_wf c -> enumerates order_depth_items ->
  (forall p, is_Some (order_depths state !! p) ->
             is_Some (_hist_order_depths c !! p)) ->
  order_depths state !! product self = Some od ->
  level_cell od type depth = Some x ->
  let c' := (cls_update position_items order_depth_items state c).2 in
  (exists per per' series,
     _hist_order_depths c !! product self = Some per
     /\ per !! (type ++ str depth)%string = Some series
     /\ _hist_order_depths c' !! product self = Some per'
     /\ per' !! (type ++ str depth)%string = Some (series ++ [x]))
  /\ hist_order_depth float32 c' self type depth 1 = Done [float32 x].
Proof.
  intros Hwf Henum Hall Hod Hx c'. subst c'.
  destruct (cls_update_done position_items order_depth_items state c
              Hwf Henum Hall) as (_ & _ & _ & Hin & _).
  destruct (Hall (product self)) as [per Hper]; [by eexists|].
  destruct (Hwf _ _ Hper) as [n Hn].
  destruct (Hn _ (level_cell_name _ _ _ _ Hx)) as (series & Hseries & _).
  pose proof (Hin _ _ _ Hod Hper) as Hper'.
  pose proof (appended_level od per type depth x Hx) as Hcell.
  rewrite Hseries in Hcell. simpl in Hcell. split.
  - by exists per, (appended (tick_cells od) per), series.
  - unfold hist_order_depth, getitem. rewrite Hper'. simpl.
    rewrite Hcell. simpl. rewrite from_neg by lia.
    replace (length (series ++ [x]) - Z.to_nat 1)%nat with (length series)
      by (rewrite length_app; simpl; lia).
    by rewrite drop_app_length.
Qed.

(** X18: a tick that [cls_update] takes appends, to the series [type
    ++ str depth] of each product of the tick, the price or the amount
    of the level of that depth counted from the best price, and [None]
    where the side has fewer levels; [hist_order_depth] with size 1
    then returns that cell alone. The tables of the products the tick
    does not quote stay. *)
Theorem cls_update_records position_items order_depth_items state c
    self od type depth x :
  hist_wf c -> enumerates order_depth_items ->
  (forall p, is_Some (order_depths state !! p) ->
             is_Some (_hist_order_depths c !! p)) ->
  order_depths state !! product self = Some od ->
  level_cell od type depth = Some x ->
  let c' := (cls_update position_items order_depth_items state c).2 in
  (exists per per' series,
     _hist_order_depths c !! product self = Some per
     /\ per !! (type ++ str depth)%string = Some series
     /\ _hist_order_depths c' !! product self = Some per'
     /\ per' !! (type ++ str depth)%string = Some (series ++ [x]))
  /\ hist_order_depth float32 c' self type depth 1 = Done [float32 x]
  /\ (forall p, order_depths state !! p = None ->
        _hist_order_depths c' !! p = _hist_order_depths c !! p).
Proof.
  intros Hwf Henum Hall Hod Hx c'. subst c'.
  destruct (cls_update_cell position_items order_depth_items state c
              self od type depth x Hwf Henum Hall Hod Hx) as [Hper Hhist].
  destruct (cls_update_done position_items order_depth_items state c
              Hwf Henum Hall) as (_ & _ & _ & _ & Hout).
  done.
Qed.

(** X19: after a tick that [cls_update] takes, the first bid level
    recorded for a product is what [best_bid] and [best_bid_amount]
    read from the state, and the first ask level is the price of
    [best_ask] with the amount as the book holds it, the opposite of
    [best_ask_amount]; a side without levels records [None]. *)
Theorem cls_update_first_level position_items order_depth_items state c self od :
  hist_wf c -> enumerates order_depth_items ->
  (forall p, is_Some (order_depths state !! p) ->
             is_Some (_hist_order_depths c !! p)) ->
  order_depths state !! product self = Some od ->
  let c' := (cls_update position_items order_depth_items state c).2 in
  (buy_orders od <> ∅ ->
   exists b amt,
     best_bid 1 c' self = Done b /\ best_bid_amount c' self = Done amt
     /\ hist_order_depth float32 c' self "bidprc" 1 1 = Done [float32 (Some b)]
     /\ hist_order_depth float32 c' self "bidamt" 1 1 = Done [float32 (Some amt)])
  /\ (sell_orders od <> ∅ ->
      exists a amt,
        best_ask 1 c' self = Done a /\ best_ask_amount c' self = Done amt
        /\ hist_order_depth float32 c' self "askprc" 1 1 = Done [float32 (Some a)]
        /\ hist_order_depth float32 c' self "askamt" 1 1
           = Done [float32 (Some (- amt))])
  /\ (buy_orders od = ∅ ->
      hist_order_depth float32 c' self "bidprc" 1 1 = Done [float32 None]
      /\ hist_order_depth float32 c' self "bidamt" 1 1 = Done [float32 None])
  /\ (sell_orders od = ∅ ->
      hist_order_depth float32 c' self "askprc" 1 1 = Done [float32 None]
      /\ hist_order_depth float32 c' self "askamt" 1 1 = Done [float32 None]).
Proof.
  intros Hwf Henum Hall Hod c'.
  destruct (cls_update_done position_items order_depth_items state c
              Hwf Henum Hall) as (_ & _ & Hstate & _).
  fold c' in Hstate.
  assert (forall type x, level_cell od type 1 = Some x ->
            hist_order_depth float32 c' self type 1 1 = Done [float32 x])
    as Hcell.
  { intros type x Hx.
    by destruct (cls_update_cell position_items order_depth_items state c
                   self od type 1 x Hwf Henum Hall Hod Hx) as [_ ?]. }
  split; [|split; [|split]].
  - intros Hne.
    destruct (best_bid_some c' self state od Hstate Hod 0 Hne) as (b & Hb & Hmax).
    destruct (best_bid_amount_some c' self state od Hstate Hod Hne)
      as (b' & amt & Hmax' & Hamt & Hba).
    assert (b' = b) as -> by (by eapply is_max_price_unique).
    destruct (sorted true (map_to_list (buy_orders od))) as [|x rest] eqn:E.
    { by apply sorted_nil_iff in E. }
    destruct (sorted_bids_head _ _ _ E) as [Hx Hxa].
    assert (x.1 = b) as Hxb by (by eapply is_max_price_unique).
    rewrite Hxb in Hxa. assert (x.2 = amt) as Hxamt by congruence.
    exists b, amt. split; [done|]. split; [done|]. split.
    + apply Hcell. unfold level_cell. rewrite E. simpl. by rewrite Hxb.
    + apply Hcell. unfold level_cell. rewrite E. simpl. by rewrite Hxamt.
  - intros Hne.
    destruct (best_ask_some c' self state od Hstate Hod 0 Hne) as (a & Ha & Hmin).
    destruct (best_ask_amount_some c' self state od Hstate Hod Hne)
      as (a' & amt & Hmin' & Hamt & Haa).
    assert (a' = a) as -> by (by eapply is_min_price_unique).
    destruct (sorted false (map_to_list (sell_orders od))) as [|x rest] eqn:E.
    { by apply sorted_nil_iff in E. }
    destruct (sorted_asks_head _ _ _ E) as [Hx Hxa].
    assert (x.1 = a) as Hxb by (by eapply is_min_price_unique).
    rewrite Hxb in Hxa. assert (x.2 = amt) as Hxamt by congruence.
    exists a, (- amt). split; [done|]. split; [done|]. split.
    + apply Hcell. unfold level_cell. rewrite E. simpl. by rewrite Hxb.
    + apply Hcell. unfold level_cell. rewrite E. simpl. rewrite Hxamt.
      do 2 f_equal. lia.
  - intros Hempty. split; apply Hcell; unfold level_cell; rewrite Hempty;
      by rewrite map_to_list_empty.
  - intros Hempty. split; apply Hcell; unfold level_cell; rewrite Hempty;
      by rewrite map_to_list_empty.
Qed.

End recorded.

End ClsUpdateFacts.

(** ** The strategies *)

Module StrategyFacts.
Import Status Spec StrategySpec BookSpec Examples MoreExamples MarketFacts TrackerFacts SortedFacts EmaFacts
       BookFacts VwapFacts.

Lemma andthen_done {A B : Type} (m : action A) (k : A -> action B) c a c' :
  m c = (Done a, c') -> andthen m k c = k a c'.
Proof. intros H. unfold andthen. by rewrite H. Qed.

Lemma andthen_raised {A B : Type} (m : action A) (k : A -> action B) c e c' :
  m c = (Raised e, c') -> andthen m k c = (Raised e, c').
Proof. intros H. unfold andthen. by rewrite H. Qed.

Lemma andthen_lift {A B : Type} (f : cls -> outcome A) (k : A -> action B) c a :
  f c = Done a -> andthen (lift f) k c = k a c.
Proof. intros H. apply andthen_done. unfold lift. by rewrite H. Qed.

Lemma andthen_lift_raised {A B : Type} (f : cls -> outcome A)
    (k : A -> action B) c e :
  f c = Raised e -> andthen (lift f) k c = (Raised e, c).
Proof. intros H. apply andthen_raised. unfold lift. by rewrite H. Qed.

Lemma volume_nonneg ls : 0 <= volume ls.
Proof.
  induction ls as [|[prc amt] ls IH]; [done|]. rewrite volume_cons. lia.
Qed.

Section tracker.

Context (self : t) (st : TradingState) (limit : Z).
Hypothesis Hlimit : _position_limit !! product self = Some limit.

Let pos : Z := default 0 (datamodel.position st !! product self).

Lemma sweep_fills levels : forall c orders rt0,
  _state c = Some st ->
  _realtime_position c !! product self = Some rt0 ->
  - limit <= rt0 <= limit -> pos <= limit ->
  exists qs,
    length qs = length levels
    /\ Forall2 (fun l q => 0 <= q <= Z.abs l.2) levels qs
    /\ Strategy.sweep self orders levels c
       = (Done (orders ++ fills (product self) levels qs),
          set_realtime_position c
            (<[product self := rt0 + sum_Z qs]> (_realtime_position c)))
    /\ rt0 + sum_Z qs <= limit
    /\ (pos <= rt0 -> sum_Z qs = Z.min (limit - rt0) (volume levels)).
Proof.
  induction levels as [|[price amount] levels IH];
    intros c orders rt0 Hstate Hrt Hrt0 Hpos.
  - exists []. split; [done|]. split; [constructor|]. split.
    + simpl. unfold ret, fills. simpl. rewrite app_nil_r. f_equal.
      unfold sum_Z. simpl. rewrite Z.add_0_r.
      rewrite insert_id by done. by destruct c.
    + unfold sum_Z, volume. simpl. split; [lia|]. intros _.
      unfold sum_Z. simpl. lia.
  - set (q := Z.min (Z.min (limit - rt0) (limit - pos)) (Z.abs amount)).
    assert (0 <= q <= Z.abs amount) as Hq by (unfold q; lia).
    assert (q <= limit - rt0) as Hroom by (unfold q; lia).
    set (c1 := set_realtime_position c
                 (<[product self := rt0 + q]> (_realtime_position c))).
    assert (Strategy.sweep_step self orders (price, amount) c
            = (Done (orders ++ [mkOrder (product self) price q]), c1)) as Hstep.
    { unfold Strategy.sweep_step.
      rewrite (andthen_lift _ _ c _
                 (possible_buy_amt_eq c self st limit rt0 Hstate Hlimit Hrt)).
      fold pos. fold q.
      assert (rt_position c self = Done rt0) as Hread
        by (unfold rt_position, getitem; by rewrite Hrt).
      rewrite (andthen_lift _ _ c _ Hread).
      rewrite (andthen_done _ _ c tt c1); [reflexivity|].
      apply (rt_position_update_commit c self (rt0 + q) limit Hlimit). lia. }
    destruct (IH c1 (orders ++ [mkOrder (product self) price q]) (rt0 + q))
      as (qs & Hlen & Hall & Hsweep & Hle & Htotal).
    + done.
    + unfold c1. simpl. apply lookup_insert_eq.
    + lia.
    + done.
    + exists (q :: qs). split; [simpl; by rewrite Hlen|].
      split; [by constructor|]. split; [|split].
      * cbn [Strategy.sweep]. rewrite (andthen_done _ _ _ _ _ Hstep).
        rewrite Hsweep. unfold fills. cbn [zip_with]. rewrite <- app_assoc.
        cbn [app fst]. f_equal. rewrite sum_Z_cons.
        unfold c1, set_realtime_position.
        cbn [_state _realtime_position _hist_order_depths _num_data].
        rewrite insert_insert_eq. do 2 f_equal. lia.
      * rewrite sum_Z_cons. lia.
      * intros Hge. rewrite sum_Z_cons, volume_cons.
        rewrite Htotal by lia. pose proof (volume_nonneg levels). unfold q. lia.
Qed.

End tracker.

(** X20: when the averages have just crossed, [ema_crossover] files
    one buy order per ask level, cheapest first, each for an amount
    between 0 and the size of the level, and moves the realtime
    position by their total, which stays within the limit; from a
    realtime position not below the reported one the total is the room
    under the limit or the whole ask volume, whichever is less. When
    they have not crossed it files nothing and changes nothing. *)
Theorem ema_crossover_orders items state c st od limit rt0 :
  enumerates items ->
  _state c = Some st ->
  order_depths st !! product state = Some od ->
  _position_limit !! product state = Some limit ->
  _realtime_position c !! product state = Some rt0 ->
  - limit <= rt0 <= limit ->
  default 0 (datamodel.position st !! product state) <= limit ->
  let asks := sorted false (map_to_list (sell_orders od)) in
  (Strategy.crossed_up state = Done true ->
   exists qs,
     length qs = length asks
     /\ Forall2 (fun l q => 0 <= q <= Z.abs l.2) asks qs
     /\ Strategy.ema_crossover items state c
        = (Done (fills (product state) asks qs),
           set_realtime_position c
             (<[product state := rt0 + sum_Z qs]> (_realtime_position c)))
     /\ rt0 + sum_Z qs <= limit
     /\ (default 0 (datamodel.position st !! product state) <= rt0 ->
         sum_Z qs = Z.min (limit - rt0) (volume asks)))
  /\ (Strategy.crossed_up state = Done false ->
      Strategy.ema_crossover items state c = (Done [], c)).
Proof.
  intros Hitems Hstate Hbook Hlimit Hrt Hrt0 Hpos asks. split.
  - intros Hcross.
    destruct (sweep_fills state st limit Hlimit asks c [] rt0 Hstate Hrt Hrt0 Hpos)
      as (qs & Hlen & Hall & Hsweep & Hle & Htotal).
    exists qs. split; [done|]. split; [done|]. split; [|done].
    unfold Strategy.ema_crossover.
    rewrite (andthen_lift _ _ c true Hcross).
    assert (all_asks items c state = Done (items (sell_orders od))) as Hasks.
    { unfold all_asks. by rewrite (order_depth_eq c state st od Hstate Hbook). }
    rewrite (andthen_lift _ _ c _ Hasks).
    rewrite (sorted_enumeration false _ _ (Hitems (sell_orders od))).
    exact Hsweep.
  - intros Hcross. unfold Strategy.ema_crossover.
    by rewrite (andthen_lift _ _ c false Hcross).
Qed.

Lemma ema_crossover_orders_witness :
  let c := tick_of "SQUID_INK" book_two_sided in
  let asks := sorted false (map_to_list (sell_orders book_two_sided)) in
  exists qs,
    length qs = length asks
    /\ Forall2 (fun l q => 0 <= q <= Z.abs l.2) asks qs
    /\ Strategy.ema_crossover map_to_list crossing_squid c
       = (Done (fills "SQUID_INK" asks qs),
          set_realtime_position c
            (<["SQUID_INK"%string := 0 + sum_Z qs]> (_realtime_position c)))
    /\ 0 + sum_Z qs <= 50
    /\ (0 <= 0 -> sum_Z qs = Z.min (50 - 0) (volume asks)).
Proof.
  apply (ema_crossover_orders map_to_list crossing_squid
           (tick_of "SQUID_INK" book_two_sided) _ book_two_sided 50 0
           CombineFacts.enumerates_map_to_list eq_refl eq_refl eq_refl eq_refl
           ltac:(lia) ltac:(by vm_compute)).
  by vm_compute.
Defined.

Lemma seeded_updates fuel c self :
  seeded self -> seeded (updates fuel c self).2.
Proof.
  intros Hs. pose proof Hs as [Hlen Hhead]. unfold updates.
  destruct (length (ema_mid_35 self) =? 0)%nat eqn:E.
  - apply Nat.eqb_eq in E.
    destruct (mid fuel c self) as [m| |] eqn:Hm; [|exact Hs..].
    rewrite (mid_product fuel c (append_ema_mid_35 m self) self) by done.
    rewrite Hm. unfold seeded. simpl.
    rewrite E in Hlen. symmetry in Hlen.
    apply nil_length_inv in E. apply nil_length_inv in Hlen.
    by rewrite E, Hlen.
  - apply Nat.eqb_neq in E.
    destruct (last_item (ema_mid_35 self)) as [prev| |]; simpl; [|exact Hs..].
    destruct (mid fuel c self) as [m| |]; simpl; [|exact Hs..].
    destruct (last_item (ema_mid_100 self)) as [prev2| |]; simpl; [|exact Hs..].
    unfold seeded. simpl. rewrite !length_app. simpl. split; [lia|].
    rewrite !lookup_app_l by lia. done.
Qed.

Lemma seeded_run_ticks fuel ticks self :
  seeded self -> seeded (run_ticks fuel ticks self).
Proof.
  revert self. induction ticks as [|c ticks IH]; intros self H; [done|].
  unfold run_ticks in *. cbn [foldl]. apply IH. by apply seeded_updates.
Qed.

Lemma getindex_last {A : Type} (xs : list A) x :
  getindex (xs ++ [x]) (-1) = Done x.
Proof.
  unfold getindex. cbn [Z.ltb Z.compare]. rewrite length_app. simpl.
  destruct (Z.ltb_spec (Z.of_nat (length xs + 1) + -1) 0); [lia|].
  replace (Z.to_nat (Z.of_nat (length xs + 1) + -1)) with (length xs) by lia.
  by rewrite lookup_app_r, Nat.sub_diag.
Qed.

Lemma getindex_before_last {A : Type} (xs : list A) x y :
  getindex (xs ++ [x; y]) (-2) = Done x.
Proof.
  unfold getindex. cbn [Z.ltb Z.compare]. rewrite length_app. simpl.
  destruct (Z.ltb_spec (Z.of_nat (length xs + 2) + -2) 0); [lia|].
  replace (Z.to_nat (Z.of_nat (length xs + 2) + -2)) with (length xs) by lia.
  by rewrite lookup_app_r, Nat.sub_diag.
Qed.

Lemma getindex_last_of_two {A : Type} (xs : list A) x y :
  getindex (xs ++ [x; y]) (-1) = Done y.
Proof.
  change (xs ++ [x; y]) with (xs ++ [x] ++ [y]). rewrite app_assoc.
  apply getindex_last.
Qed.

Lemma two_last {A : Type} (xs : list A) :
  (2 <= length xs)%nat -> exists ys x y, xs = ys ++ [x; y].
Proof.
  intros H. destruct xs as [|y xs _] using rev_ind; [simpl in H; lia|].
  destruct xs as [|x xs _] using rev_ind; [simpl in H; lia|].
  exists xs, x, y. by rewrite <- app_assoc.
Qed.

Lemma crossed_up_seeded self :
  seeded self ->
  exists cross,
    Strategy.crossed_up self = Done cross
    /\ ((length (ema_mid_35 self) <= 2)%nat -> cross = false).
Proof.
  intros [Hlen Hhead]. unfold Strategy.crossed_up.
  destruct (Z.leb_spec 2 (Z.of_nat (length (ema_mid_35 self)))) as [H2|H2].
  - destruct (two_last (ema_mid_35 self)) as (fs & f' & f & E35); [lia|].
    destruct (two_last (ema_mid_100 self)) as (ss & s' & s & E100); [lia|].
    rewrite E35, E100 in *.
    rewrite !getindex_last_of_two. simpl.
    rewrite !getindex_before_last.
    destruct (bool_decide (s <= f)%Qc).
    + eexists. split; [done|]. intros Hshort.
      rewrite !length_app in *. simpl in *.
      destruct fs; [|simpl in Hshort; lia].
      destruct ss; [|simpl in Hlen; lia].
      simpl in Hhead. injection Hhead as ->.
      apply bool_decide_eq_false. apply Qcle_not_lt, Qcle_refl.
    + by exists false.
  - exists false. split; [done|]. done.
Qed.

(** X21: however the ticks went since the instance was made, the two
    averages [updates] keeps have one length, at most the number of
    ticks, so the test of [ema_crossover] never raises; in the first
    two ticks it is false, and [ema_crossover] and [Trade.squidInk]
    file nothing and leave the class attributes alone. *)
Theorem ema_crossover_warm_up fuel ticks p items c :
  let self := run_ticks fuel ticks (init p) in
  length (ema_mid_35 self) = length (ema_mid_100 self)
  /\ (length (ema_mid_35 self) <= length ticks)%nat
  /\ (exists cross, Strategy.crossed_up self = Done cross)
  /\ ((length ticks <= 2)%nat ->
      Strategy.ema_crossover items self c = (Done [], c)
      /\ Trade.squidInk items self c = (Done [], c)).
Proof.
  intros self.
  assert (seeded self) as Hseeded by (by apply seeded_run_ticks).
  assert (forall self0,
            (length (ema_mid_35 (run_ticks fuel ticks self0))
             <= length (ema_mid_35 self0) + length ticks)%nat) as Hgrow.
  { clear. induction ticks as [|c ticks IH]; intros self0; [simpl; lia|].
    unfold run_ticks in *. cbn [foldl]. etransitivity; [apply IH|].
    simpl. assert (length (ema_mid_35 (updates fuel c self0).2)
                   <= S (length (ema_mid_35 self0)))%nat; [|lia].
    unfold updates.
    destruct (length (ema_mid_35 self0) =? 0)%nat.
    - destruct (mid fuel c self0) as [m| |]; [|simpl; lia..].
      destruct (mid fuel c (append_ema_mid_35 m self0)); simpl;
        rewrite length_app; simpl; lia.
    - destruct (last_item (ema_mid_35 self0)); simpl; [|lia..].
      destruct (mid fuel c self0); simpl; [|lia..].
      destruct (last_item (ema_mid_100 self0)); simpl; [|lia..].
      rewrite length_app. simpl. lia. }
  specialize (Hgrow (init p)). fold self in Hgrow. simpl in Hgrow.
  destruct (crossed_up_seeded self Hseeded) as (cross & Hcross & Hshort).
  split; [apply Hseeded|]. split; [done|]. split; [by exists cross|].
  intros Hticks. rewrite Hshort in Hcross by lia.
  assert (Strategy.ema_crossover items self c = (Done [], c)) as Hnone.
  { unfold Strategy.ema_crossover. by rewrite (andthen_lift _ _ c false Hcross). }
  split; [done|]. unfold Trade.squidInk.
  by rewrite (andthen_done _ _ c [] c Hnone).
Qed.

Section something.

Context (state : t) (c : cls) (st : TradingState) (od : OrderDepth).
Context (limit rt0 : Z).
Hypothesis Hstate : _state c = Some st.
Hypothesis Hbook : order_depths st !! product state = Some od.
Hypothesis Hlimit : _position_limit !! product state = Some limit.
Hypothesis Hrt : _realtime_position c !! product state = Some rt0.

Lemma rt_position_eq : rt_position c state = Done rt0.
Proof. unfold rt_position, getitem. by rewrite Hrt. Qed.

Lemma best_ask_is_min fuel a :
  is_min_price a (sell_orders od) -> best_ask (S fuel) c state = Done a.
Proof.
  intros Hmin.
  assert (sell_orders od <> ∅) as Hne.
  { intros E. destruct Hmin as [[v Hv] _]. rewrite E in Hv. done. }
  destruct (best_ask_some c state st od Hstate Hbook fuel Hne) as (a' & Ha & Hmin').
  by rewrite (is_min_price_unique _ _ _ Hmin Hmin').
Qed.

Lemma best_bid_is_max fuel b :
  is_max_price b (buy_orders od) -> best_bid (S fuel) c state = Done b.
Proof.
  intros Hmax.
  assert (buy_orders od <> ∅) as Hne.
  { intros E. destruct Hmax as [[v Hv] _]. rewrite E in Hv. done. }
  destruct (best_bid_some c state st od Hstate Hbook fuel Hne) as (b' & Hb & Hmax').
  by rewrite (is_max_price_unique _ _ _ Hmax Hmax').
Qed.

Lemma best_ask_amount_is_min a amt :
  is_min_price a (sell_orders od) -> sell_orders od !! a = Some amt ->
  best_ask_amount c state = Done (- amt).
Proof.
  intros Hmin Hamt.
  assert (sell_orders od <> ∅) as Hne by (intros E; rewrite E in Hamt; done).
  destruct (best_ask_amount_some c state st od Hstate Hbook Hne)
    as (a' & amt' & Hmin' & Hamt' & ->).
  rewrite (is_min_price_unique _ _ _ Hmin' Hmin) in Hamt'. congruence.
Qed.

Lemma best_bid_amount_is_max b amt :
  is_max_price b (buy_orders od) -> buy_orders od !! b = Some amt ->
  best_bid_amount c state = Done amt.
Proof.
  intros Hmax Hamt.
  assert (buy_orders od <> ∅) as Hne by (intros E; rewrite E in Hamt; done).
  destruct (best_bid_amount_some c state st od Hstate Hbook Hne)
    as (b' & amt' & Hmax' & Hamt' & ->).
  rewrite (is_max_price_unique _ _ _ Hmax' Hmax) in Hamt'. congruence.
Qed.

Lemma something_buy fuel a b q :
  best_ask fuel c state = Done a -> best_bid fuel c state = Done b -> b < a ->
  best_ask_amount c state = Done q ->
  let executed :=
    Z.min (Z.min (limit - rt0)
                 (limit - default 0 (datamodel.position st !! product state))) q in
  Z.abs (rt0 + executed) <= limit ->
  Strategy.something fuel state c
  = (Done [mkOrder (product state) a executed],
     set_realtime_position c
       (<[product state := rt0 + executed]> (_realtime_position c))).
Proof.
  intros Ha Hb Hlt Hq executed Hfit. unfold Strategy.something.
  rewrite (andthen_lift _ _ c a Ha), (andthen_lift _ _ c b Hb).
  destruct (Z.ltb_spec b a); [|lia].
  rewrite (andthen_lift _ _ c _
             (possible_buy_amt_eq c state st limit rt0 Hstate Hlimit Hrt)).
  rewrite (andthen_lift _ _ c q Hq), (andthen_lift _ _ c a Ha).
  rewrite (andthen_lift _ _ c rt0 rt_position_eq).
  fold executed.
  rewrite (andthen_done _ _ c tt
             (set_realtime_position c
                (<[product state := rt0 + executed]> (_realtime_position c))));
    [done|].
  by apply (rt_position_update_commit c state (rt0 + executed) limit Hlimit).
Qed.

Lemma something_sell fuel a b q :
  best_ask fuel c state = Done a -> best_bid fuel c state = Done b -> a <= b ->
  best_bid_amount c state = Done q ->
  let executed :=
    Z.min (Z.min (limit + rt0)
                 (limit + default 0 (datamodel.position st !! product state))) q in
  Z.abs (rt0 - executed) <= limit ->
  Strategy.something fuel state c
  = (Done [mkOrder (product state) b (- executed)],
     set_realtime_position c
       (<[product state := rt0 - executed]> (_realtime_position c))).
Proof.
  intros Ha Hb Hle Hq executed Hfit. unfold Strategy.something.
  rewrite (andthen_lift _ _ c a Ha), (andthen_lift _ _ c b Hb).
  destruct (Z.ltb_spec b a); [lia|].
  rewrite (andthen_lift _ _ c _
             (possible_sell_amt_eq c state st limit rt0 Hstate Hlimit Hrt)).
  rewrite (andthen_lift _ _ c q Hq), (andthen_lift _ _ c b Hb).
  rewrite (andthen_lift _ _ c rt0 rt_position_eq).
  fold executed.
  rewrite (andthen_done _ _ c tt
             (set_realtime_position c
                (<[product state := rt0 - executed]> (_realtime_position c))));
    [done|].
  by apply (rt_position_update_commit c state (rt0 - executed) limit Hlimit).
Qed.

End something.

(** X22: [something] buys at the best ask whenever the best bid is
    below it, also on a book without bids, and sells at the best bid
    only on a crossed book; the amount is the room under the limit or
    the size of the level it trades at, whichever is less, and the
    realtime position that [rt_position] then reads has moved by it
    and stays within the limit. On a book with bids and no asks the
    fallback makes it take the buy branch, where reading the amount of
    the best ask raises [ValueError], and the position stays. *)
Theorem something_order fuel state c st od limit rt0 :
  _state c = Some st ->
  order_depths st !! product state = Some od ->
  _position_limit !! product state = Some limit ->
  _realtime_position c !! product state = Some rt0 ->
  - limit <= rt0 <= limit ->
  - limit <= default 0 (datamodel.position st !! product state) <= limit ->
  book_signs od ->
  let pos := default 0 (datamodel.position st !! product state) in
  let run := Strategy.something (S (S fuel)) state c in
  (forall a amt,
     is_min_price a (sell_orders od) -> sell_orders od !! a = Some amt ->
     (forall b, is_max_price b (buy_orders od) -> b < a) ->
     let q := Z.min (Z.min (limit - rt0) (limit - pos)) (- amt) in
     run = (Done [mkOrder (product state) a q],
            set_realtime_position c
              (<[product state := rt0 + q]> (_realtime_position c)))
     /\ rt_position run.2 state = Done (rt0 + q)
     /\ 0 <= q /\ rt0 + q <= limit)
  /\ (forall b amt a,
        is_max_price b (buy_orders od) -> buy_orders od !! b = Some amt ->
        is_min_price a (sell_orders od) -> a <= b ->
        let q := Z.min (Z.min (limit + rt0) (limit + pos)) amt in
        run = (Done [mkOrder (product state) b (- q)],
               set_realtime_position c
                 (<[product state := rt0 - q]> (_realtime_position c)))
        /\ rt_position run.2 state = Done (rt0 - q)
        /\ 0 <= q /\ - limit <= rt0 - q)
  /\ (buy_orders od <> ∅ -> sell_orders od = ∅ ->
      run = (Raised (ValueError "min() arg is an empty sequence"), c)
      /\ rt_position run.2 state = Done rt0).
Proof.
  intros Hstate Hbook Hlimit Hrt Hrt0 Hpos [Hbids Hasks] pos run.
  assert (forall v,
            rt_position
              (set_realtime_position c
                 (<[product state := v]> (_realtime_position c))) state
            = Done v) as Hread.
  { intros v. unfold rt_position, getitem.
    cbn [_realtime_position set_realtime_position].
    by rewrite lookup_insert_eq. }
  split; [|split].
  - intros a amt Hmin Hamt Hbelow q.
    assert (amt <= 0) as Hsign by (by eapply Hasks).
    assert (0 <= q /\ rt0 + q <= limit) as Hq by (unfold q, pos in *; lia).
    pose proof (best_ask_is_min state c st od Hstate Hbook (S fuel) a Hmin) as Ha.
    assert (exists b, best_bid (S (S fuel)) c state = Done b /\ b < a)
      as (b & Hb & Hlt).
    { destruct (decide (buy_orders od = ∅)) as [He|Hne].
      - exists (a - 1). split; [|lia].
        rewrite (best_bid_fallback c state st od Hstate Hbook _ He).
        by rewrite (best_ask_is_min state c st od Hstate Hbook fuel a Hmin).
      - destruct (best_bid_some c state st od Hstate Hbook (S fuel) Hne)
          as (b & Hb & Hmax).
        exists b. split; [done|]. by apply Hbelow. }
    assert (run = (Done [mkOrder (product state) a q],
                   set_realtime_position c
                     (<[product state := rt0 + q]> (_realtime_position c))))
      as Hrun.
    { apply (something_buy state c st limit rt0 Hstate Hlimit Hrt
               (S (S fuel)) a b (- amt) Ha Hb Hlt).
      + by apply (best_ask_amount_is_min state c st od Hstate Hbook a).
      + fold pos. fold q. lia. }
    split; [exact Hrun|]. split; [|done]. rewrite Hrun. apply Hread.
  - intros b amt a Hmax Hamt Hmin Hle q.
    assert (0 <= amt) as Hsign by (by eapply Hbids).
    assert (0 <= q /\ - limit <= rt0 - q) as Hq by (unfold q, pos in *; lia).
    assert (run = (Done [mkOrder (product state) b (- q)],
                   set_realtime_position c
                     (<[product state := rt0 - q]> (_realtime_position c))))
      as Hrun.
    { apply (something_sell state c st limit rt0 Hstate Hlimit Hrt
               (S (S fuel)) a b amt).
      + by apply (best_ask_is_min state c st od Hstate Hbook).
      + by apply (best_bid_is_max state c st od Hstate Hbook).
      + done.
      + by apply (best_bid_amount_is_max state c st od Hstate Hbook b).
      + fold pos. fold q. lia. }
    split; [exact Hrun|]. split; [|done]. rewrite Hrun. apply Hread.
  - intros Hne He.
    assert (run = (Raised (ValueError "min() arg is an empty sequence"), c))
      as Hrun.
    { subst run. unfold Strategy.something.
      destruct (best_bid_some c state st od Hstate Hbook (S fuel) Hne)
        as (b & Hb & Hmax).
      assert (best_ask (S (S fuel)) c state = Done (b + 1)) as Ha.
      { rewrite (best_ask_fallback c state st od Hstate Hbook _ He).
        by rewrite (best_bid_is_max state c st od Hstate Hbook fuel b Hmax). }
      rewrite (andthen_lift _ _ c _ Ha), (andthen_lift _ _ c b Hb).
      destruct (Z.ltb_spec b (b + 1)); [|lia].
      rewrite (andthen_lift _ _ c _
                 (possible_buy_amt_eq c state st limit rt0 Hstate Hlimit Hrt)).
      by rewrite (andthen_lift_raised _ _ c _
                    (best_ask_amount_empty c state st od Hstate Hbook He)). }
    split; [exact Hrun|]. rewrite Hrun.
    exact (rt_position_eq state c rt0 Hrt).
Qed.

Lemma book_two_sided_best_ask : is_min_price 101 (sell_orders book_two_sided).
Proof.
  split; [by exists (-4)|]. intros k [v Hk]. simpl in Hk.
  apply lookup_insert_Some in Hk as [[<- _]|[_ Hk]]; [lia|].
  apply lookup_singleton_Some in Hk as [<- _]. lia.
Qed.

Lemma book_two_sided_bids_below b :
  is_max_price b (buy_orders book_two_sided) -> b < 101.
Proof.
  intros [[v Hb] _]. simpl in Hb.
  apply lookup_insert_Some in Hb as [[<- _]|[_ Hb]]; [lia|].
  apply lookup_singleton_Some in Hb as [<- _]. lia.
Qed.

Lemma something_order_witness :
  (let c := tick_of "KELP" book_two_sided in
   let run := Strategy.something 2 (init "KELP") c in
   let q := Z.min (Z.min (50 - 0) (50 - 0)) (- -4) in
   run = (Done [mkOrder "KELP" 101 q],
          set_realtime_position c
            (<["KELP"%string := 0 + q]> (_realtime_position c)))
   /\ rt_position run.2 (init "KELP") = Done (0 + q)
   /\ 0 <= q /\ 0 + q <= 50)
  /\ (let c := tick_of "KELP" book_bids_only in
      let run := Strategy.something 2 (init "KELP") c in
      run = (Raised (ValueError "min() arg is an empty sequence"), c)
      /\ rt_position run.2 (init "KELP") = Done 0).
Proof.
  split.
  - pose proof (something_order 0 (init "KELP") (tick_of "KELP" book_two_sided) _
                  book_two_sided 50 0 eq_refl eq_refl eq_refl eq_refl
                  ltac:(lia) ltac:(by vm_compute)
                  UpdateFacts.book_two_sided_signs) as (Hbuy & _ & _).
    exact (Hbuy 101 (-4) book_two_sided_best_ask eq_refl
             book_two_sided_bids_below).
  - pose proof (something_order 0 (init "KELP") (tick_of "KELP" book_bids_only) _
                  book_bids_only 50 0 eq_refl eq_refl eq_refl eq_refl
                  ltac:(lia) ltac:(by vm_compute)) as Hrun.
    apply Hrun.
    + split; intros prc amt H; simpl in H.
      * apply lookup_singleton_Some in H as [_ <-]. lia.
      * done.
    + by vm_compute.
    + reflexivity.
Defined.

Lemma ema_crossover_warm_up_witness :
  Strategy.ema_crossover map_to_list
    (run_ticks 2 (take 2 crossing_ticks) (init "SQUID_INK"))
    (tick_of "SQUID_INK" book_two_sided)
  = (Done [], tick_of "SQUID_INK" book_two_sided)
  /\ Trade.squidInk map_to_list
       (run_ticks 2 (take 2 crossing_ticks) (init "SQUID_INK"))
       (tick_of "SQUID_INK" book_two_sided)
     = (Done [], tick_of "SQUID_INK" book_two_sided).
Proof.
  apply (ema_crossover_warm_up 2 (take 2 crossing_ticks) "SQUID_INK" map_to_list
           (tick_of "SQUID_INK" book_two_sided)).
  simpl. lia.
Defined.

End StrategyFacts.

(** ** [Status.cls_update] on example ticks *)

Module ClsUpdateRuns.
Import Status Spec BookSpec HistorySpec Examples MoreExamples MarketFacts
       SortedFacts RecordFacts ClsUpdateFacts.

Lemma kelp_has_table od held p :
  is_Some (order_depths (feed_book "KELP" od held) !! p) ->
  is_Some (_hist_order_depths initial !! p).
Proof.
  intros [od' H]. cbn [feed_book order_depths] in H.
  apply lookup_singleton_Some in H as [<- _].
  eexists. reflexivity.
Qed.

Lemma cls_update_positions_witness :
  let r := cls_update map_to_list map_to_list feed_kelp tracker_kelp in
  _state r.2 = Some feed_kelp
  /\ (forall p v, datamodel.position feed_kelp !! p = Some v ->
        _realtime_position r.2 !! p = Some v)
  /\ (forall p, datamodel.position feed_kelp !! p = None ->
        _realtime_position r.2 !! p = _realtime_position tracker_kelp !! p).
Proof.
  apply (cls_update_positions map_to_list map_to_list feed_kelp tracker_kelp
           CombineFacts.enumerates_map_to_list).
Defined.

Lemma cls_update_outcome_witness :
  (let r := cls_update map_to_list map_to_list
              (feed_book "KELP" book_two_sided 10) initial in
   r.1 = Done tt /\ _num_data r.2 = _num_data initial + 1)
  /\ (let r := cls_update map_to_list map_to_list final_X initial in
      r.1 = Raised KeyError /\ _num_data r.2 = _num_data initial).
Proof.
  split.
  - apply (cls_update_outcome map_to_list map_to_list
             (feed_book "KELP" book_two_sided 10) initial hist_wf_initial
             CombineFacts.enumerates_map_to_list).
    apply kelp_has_table.
  - apply (cls_update_outcome map_to_list map_to_list final_X initial
             hist_wf_initial CombineFacts.enumerates_map_to_list).
    exists "X"%string. split; [eexists|]; reflexivity.
Defined.

Lemma cls_update_records_witness :
  let c' := (cls_update map_to_list map_to_list
               (feed_book "KELP" book_two_sided 10) initial).2 in
  (exists per per' series,
     _hist_order_depths initial !! "KELP"%string = Some per
     /\ per !! "askprc2"%string = Some series
     /\ _hist_order_depths c' !! "KELP"%string = Some per'
     /\ per' !! "askprc2"%string = Some (series ++ [Some 102]))
  /\ hist_order_depth id c' (init "KELP") "askprc" 2 1 = Done [Some 102]
  /\ (forall p, order_depths (feed_book "KELP" book_two_sided 10) !! p = None ->
        _hist_order_depths c' !! p = _hist_order_depths initial !! p).
Proof.
  apply (cls_update_records id map_to_list map_to_list
           (feed_book "KELP" book_two_sided 10) initial (init "KELP")
           book_two_sided "askprc" 2 (Some 102) hist_wf_initial
           CombineFacts.enumerates_map_to_list (kelp_has_table _ _)
           eq_refl eq_refl).
Defined.

Lemma cls_update_first_level_witness :
  let c' := (cls_update map_to_list map_to_list
               (feed_book "KELP" book_bids_only 10) initial).2 in
  (exists b amt,
     best_bid 1 c' (init "KELP") = Done b
     /\ best_bid_amount c' (init "KELP") = Done amt
     /\ hist_order_depth id c' (init "KELP") "bidprc" 1 1 = Done [Some b]
     /\ hist_order_depth id c' (init "KELP") "bidamt" 1 1 = Done [Some amt])
  /\ hist_order_depth id c' (init "KELP") "askprc" 1 1 = Done [None]
  /\ hist_order_depth id c' (init "KELP") "askamt" 1 1 = Done [None].
Proof.
  pose proof (cls_update_first_level id map_to_list map_to_list
                (feed_book "KELP" book_bids_only 10) initial (init "KELP")
                book_bids_only hist_wf_initial
                CombineFacts.enumerates_map_to_list (kelp_has_table _ _)
                eq_refl) as (Hbid & _ & _ & Hask).
  split.
  - apply Hbid. by vm_compute.
  - apply Hask. reflexivity.
Defined.

End ClsUpdateRuns.

(** ** Reading the history *)

Module HistoryFacts.
Import Status Spec HistorySpec Examples MoreExamples SliceFacts RecordFacts
       ClsUpdateFacts.

Section reads.

Context {F : Type} (float32 : cell -> F).

(** X23: after any run of ticks through [cls_update] since the class
    body ran, [hist_order_depth] on a product with a position limit,
    for one of the twelve series and a positive size, does not raise:
    it returns the last [size] cells recorded, oldest first, or all of
    them when fewer were recorded. For a product without a limit it
    raises [KeyError]. *)
Theorem hist_order_depth_after_feed position_items order_depth_items states
    self type depth size :
  let c := feed position_items order_depth_items states initial in
  (is_Some (_position_limit !! product self) ->
   (type ++ str depth)%string ∈ series_names ->
   0 < size ->
   exists per series older window,
     _hist_order_depths c !! product self = Some per
     /\ per !! (type ++ str depth)%string = Some series
     /\ series = older ++ window
     /\ length window = (Z.to_nat size `min` length series)%nat
     /\ hist_order_depth float32 c self type depth size
        = Done (float32 <$> window))
  /\ (_position_limit !! product self = None ->
      hist_order_depth float32 c self type depth size = Raised KeyError).
Proof.
  intros c. subst c.
  destruct (feed_tables position_items order_depth_items states initial
              hist_wf_initial) as [Hwf Hsame].
  set (c := feed position_items order_depth_items states initial) in *.
  split.
  - intros Hlimit Hname Hsize.
    destruct (proj2 (Hsame (product self))) as [per Hper].
    { by apply initial_tables. }
    destruct (Hwf _ _ Hper) as [n Hn].
    destruct (Hn _ Hname) as (series & Hseries & _).
    exists per, series,
      (take (length series - Z.to_nat size) series),
      (drop (length series - Z.to_nat size) series).
    split; [done|]. split; [done|]. split; [by rewrite take_drop|]. split.
    + rewrite length_drop. lia.
    + unfold hist_order_depth, getitem. rewrite Hper. simpl. rewrite Hseries.
      simpl. by rewrite from_neg.
  - intros Hnone. unfold hist_order_depth, getitem.
    destruct (_hist_order_depths c !! product self) as [per|] eqn:E; [|done].
    assert (is_Some (_position_limit !! product self)) as [? ?].
    { apply initial_tables, Hsame. by eexists. }
    congruence.
Qed.

End reads.

Lemma hist_order_depth_after_feed_witness :
  let c := feed map_to_list map_to_list
             [feed_book "KELP" (book_around 9 11) 0;
              feed_book "KELP" (book_around 11 13) 0] initial in
  exists per series older window,
    _hist_order_depths c !! "KELP"%string = Some per
    /\ per !! "bidprc1"%string = Some series
    /\ series = older ++ window
    /\ length window = (Z.to_nat 5 `min` length series)%nat
    /\ hist_order_depth id c (init "KELP") "bidprc" 1 5 = Done (id <$> window).
Proof.
  apply (hist_order_depth_after_feed id map_to_list map_to_list
           [feed_book "KELP" (book_around 9 11) 0;
            feed_book "KELP" (book_around 11 13) 0] (init "KELP") "bidprc" 1 5).
  - eexists. reflexivity.
  - by vm_compute; left.
  - lia.
Defined.

End HistoryFacts.

(** ** The outcome of settlement *)

Module LedgerFacts.
Import backtest Spec Passes Examples SettlementFacts.

Lemma symbol_step_raised fs e item :
  symbol_step fs (Raised e) item = Raised e.
Proof. done. Qed.

Lemma symbol_steps_raised fs e items :
  foldl (symbol_step fs) (Raised e) items = Raised e.
Proof. induction items as [|item items IH]; [done|]. by cbn [foldl]. Qed.

Lemma tick_steps_raised fs e ledger :
  foldl (tick_step fs) (Raised e) ledger = Raised e.
Proof.
  induction ledger as [|d ledger IH]; [done|]. cbn [foldl].
  unfold tick_step at 2. by rewrite symbol_steps_raised.
Qed.

(** The first pass over the items of a tick: it raises [KeyError] at
    the first symbol without a listing. *)
Lemma symbol_steps_outcome fs items : forall a,
  (Forall (fun item => is_Some (listings fs !! item.1)) items ->
   exists a', foldl (symbol_step fs) (Done a) items = Done a')
  /\ (Exists (fun item => listings fs !! item.1 = None) items ->
      foldl (symbol_step fs) (Done a) items = Raised KeyError).
Proof.
  induction items as [|item items IH]; intros a.
  - split; [by eexists|]. intros H. by apply Exists_nil in H.
  - cbn [foldl]. unfold symbol_step at 2 4. unfold getitem. cbn [bind].
    destruct (listings fs !! item.1) as [l|] eqn:E; cbn [bind].
    + split.
      * intros H. inversion H as [|? ? _ H']; subst. by apply IH.
      * intros H. inversion H as [? ? H'|? ? H']; subst; [congruence|].
        by apply IH.
    + split.
      * intros H. inversion H as [|? ? [? H1] _]; subst. congruence.
      * intros _. apply symbol_steps_raised.
Qed.

Lemma tick_steps_outcome fs ledger : forall a,
  ((forall d s, d ∈ ledger -> is_Some (d !! s) -> is_Some (listings fs !! s)) ->
   exists a', foldl (tick_step fs) (Done a) ledger = Done a')
  /\ ((exists d s, d ∈ ledger /\ is_Some (d !! s) /\ listings fs !! s = None) ->
      foldl (tick_step fs) (Done a) ledger = Raised KeyError).
Proof.
  induction ledger as [|d ledger IH]; intros a.
  - split; [by eexists|]. intros (d & s & Hd & _). by apply elem_of_nil in Hd.
  - cbn [foldl]. unfold tick_step at 2 4.
    destruct (symbol_steps_outcome fs (map_to_list d) a) as [Hok Hbad].
    destruct (decide (Exists (fun item => listings fs !! item.1 = None)
                        (map_to_list d))) as [Hex|Hnex].
    + rewrite (Hbad Hex). rewrite tick_steps_raised. split; [|done].
      intros Hall. apply Exists_exists in Hex as ([s os] & Hin & Hnone).
      apply list_elem_of_In, elem_of_map_to_list in Hin. simpl in Hnone.
      destruct (Hall d s) as [l Hl]; [by left|by eexists|]. congruence.
    + destruct Hok as [a' Ha'].
      { apply Forall_forall. intros item Hin.
        destruct (listings fs !! item.1) eqn:E; [by eexists|].
        destruct Hnex. apply Exists_exists. by exists item. }
      rewrite Ha'. destruct (IH a') as [IHok IHbad]. split.
      * intros Hall. apply IHok. intros d' s Hd'. apply Hall. by right.
      * intros (d' & s & Hd' & Hs & Hnone).
        apply IHbad. exists d', s. split; [|done].
        apply elem_of_cons in Hd' as [->|Hd']; [|done].
        destruct Hnex. apply Exists_exists. destruct Hs as [os Hos].
        exists (s, os). split; [|done].
        apply list_elem_of_In. by apply elem_of_map_to_list.
Qed.

(** X24: [calculate_pnl] returns a number when every symbol of the
    ledger has a listing in the final state, and raises [KeyError]
    when one has none, also when no order is filed under it; without a
    final state it returns 0 whatever the ledger. *)
Theorem calculate_pnl_outcome ledger :
  (forall fs,
     (forall d s, d ∈ ledger -> is_Some (d !! s) -> is_Some (listings fs !! s)) ->
     exists pnl, calculate_pnl ledger (Some fs) = Done pnl)
  /\ (forall fs,
        (exists d s, d ∈ ledger /\ is_Some (d !! s) /\ listings fs !! s = None) ->
        calculate_pnl ledger (Some fs) = Raised KeyError)
  /\ calculate_pnl ledger None = Done 0%Qc.
Proof.
  split; [|split; [|done]].
  - intros fs Hall. unfold calculate_pnl.
    destruct (tick_steps_outcome fs ledger (0%Qc, ∅)) as [Hok _].
    destruct (Hok Hall) as [[cash inv] ->]. cbn [bind].
    rewrite second_pass. by eexists.
  - intros fs Hex. unfold calculate_pnl.
    destruct (tick_steps_outcome fs ledger (0%Qc, ∅)) as [_ Hbad].
    by rewrite (Hbad Hex).
Qed.

Lemma calculate_pnl_outcome_witness :
  calculate_pnl [ {["X"%string := [buy_X]]}; {["Y"%string := []]} ] (Some final_X)
  = Raised KeyError.
Proof.
  apply (calculate_pnl_outcome
           [ {["X"%string := [buy_X]]}; {["Y"%string := []]} ]).
  exists {["Y"%string := []]}, "Y"%string.
  split; [by right; left|]. split; [eexists|]; reflexivity.
Defined.

End LedgerFacts.
